(** * The item usage engine of the dnd5e system, embedded in Rocq

    Source: [module/documents/item.mjs], class [Item5e].  The development
    embeds the resource-consumption resolver ([_getUsageUpdates],
    [_handleConsumeResource]), the critical-threshold calculator
    ([getCriticalThreshold]), the advancement index ([_prepareAdvancement])
    and the damage scaling functions ([_scaleCantripDamage],
    [_scaleSpellDamage], [_scaleDamage]).  It further embeds the ammunition
    of [rollAttack], the parts of [rollDamage], [rollRecharge], the default
    configuration of [use], [abilityMod], [_prepareActivation],
    [replaceFormulaData], [_preUpdate], the defaults of [_preCreate],
    [createScrollFromSpell] and the migrations of [SpellData].

    Conventions of the embedding.
    - JavaScript numbers that hold game quantities are integers, [Z].
    - A nullable field is an [option]; [None] is JavaScript's [null], which
      [??] replaces by its default and arithmetic coerces to [0].
    - An object that the code guards with [|| {}] or [?.] is a record whose
      fields are all nullable: the absent object is the record of [None]s.
    - The item is embedded in an actor: [use], the resolver and
      [getCriticalThreshold] read [this.actor] at once.
    - A function that returns [false] to refuse, after warning the user,
      returns [Refuse key] where [key] is the localisation key of the
      warning.
    - Functions of the Foundry host (formula parsing, collation, numeric
      tests, the persistence calls) are operations of type classes or
      section variables. *)

From stdpp Require Import gmap strings list fin_maps pretty.
From Stdlib Require Import ZArith Lia Ascii Sorted.

Local Open Scope Z_scope.

#[local] Set Warnings "-clear-no-such-hyp".

(** ** JavaScript helpers *)

Module Js.

(** Truthiness of a nullable string: [null] and the empty string are falsy. *)
Definition truthyStr (s : option string) : bool :=
  match s with
  | Some s => negb (String.eqb s "")
  | None => false
  end.

(** Truthiness of a nullable number: [null] and [0] are falsy. *)
Definition truthyNum (n : option Z) : bool :=
  match n with
  | Some n => negb (n =? 0)
  | None => false
  end.

(** Truthiness of a nullable boolean. *)
Definition truthyBool (b : option bool) : bool := default false b.

(** [Array.prototype.includes] on an array of strings. *)
Definition includes (l : list string) (s : string) : bool :=
  existsb (String.eqb s) l.

(** [Array.prototype.join]. *)
Fixpoint join (sep : string) (l : list string) : string :=
  match l with
  | [] => ""
  | [x] => x
  | x :: rest => x +:+ sep +:+ join sep rest
  end.

(** [Array.prototype.sort] with a comparator: a stable sort.  An element
    moves behind the elements that the comparator orders strictly before
    it and stays ahead of those it ties with. *)
Section Sort.
Context {A : Type} (cmp : A → A → Z).

Fixpoint insertBy (x : A) (l : list A) : list A :=
  match l with
  | [] => [x]
  | y :: rest => if cmp x y <=? 0 then x :: y :: rest else y :: insertBy x rest
  end.

Definition sort (l : list A) : list A := foldr insertBy [] l.
End Sort.

End Js.

(** ** Results of a step that may refuse *)

Inductive Result (A : Type) : Type :=
| Refuse (warning : string)
| Continue (a : A).
Arguments Refuse {A} warning.
Arguments Continue {A} a.

Definition isRefused {A} (r : Result A) : Prop :=
  match r with Refuse _ => True | Continue _ => False end.

#[global] Instance result_ret : MRet Result := λ A a, Continue a.
#[global] Instance result_bind : MBind Result := λ A B f r,
  match r with
  | Refuse w => Refuse w
  | Continue a => f a
  end.

(** ** Data model *)

(** A value stored by an update: a number or a boolean. *)
Inductive JsVal : Type :=
| VNum (n : Z)
| VBool (b : bool).

#[global] Instance JsVal_eq_dec : EqDecision JsVal.
Proof. solve_decision. Defined.

(** [system.uses] *)
Record Uses : Type := mkUses {
  uses_value : option Z;
  uses_max : option Z;
  uses_per : option string
}.

(** [system.recharge] *)
Record Recharge : Type := mkRecharge {
  recharge_value : option Z;
  recharge_charged : option bool
}.

(** [system.consume]; the schema's default for [type] is the empty string. *)
Record Consume : Type := mkConsume {
  consume_type : string;
  consume_target : option string;
  consume_amount : option Z
}.

(** An item with the fields of [system] that the engine reads. *)
Record Item : Type := mkItem {
  item_id : string;
  item_type : string;
  item_actionType : option string;
  item_level : Z;
  item_quantity : option Z;
  item_uses : Uses;
  item_recharge : Recharge;
  item_consume : Consume;
  item_criticalThreshold : option Z   (* system.critical?.threshold *)
}.

(** A class item, as [actor.classes] lists them. *)
Record ClassItem : Type := mkClass {
  cls_id : string;
  cls_hitDice : string;
  cls_levels : Z;
  cls_hitDiceUsed : Z
}.

(** [actor.flags.dnd5e || {}] *)
Record ActorFlags : Type := mkFlags {
  weaponCriticalThreshold : option Z;
  spellCriticalThreshold : option Z
}.

(** The owning actor.  [actor_system] holds the numeric leaves of
    [actor.system] under their dotted paths, the way [getProperty] and the
    flattened update keys address them. *)
Record Actor : Type := mkActor {
  actor_system : gmap string Z;
  actor_items : gmap string Item;
  actor_classes : list ClassItem;
  actor_flags : ActorFlags
}.

(** [consumeSpellLevel]: a level number, or a string such as ["pact"]. *)
Inductive SpellLevel : Type :=
| LevelNumber (n : Z)
| LevelString (s : string).

Record ItemUseConfiguration : Type := mkConfig {
  consumeQuantity : bool;
  consumeRecharge : bool;
  consumeResource : bool;
  consumeSpellSlot : bool;
  consumeSpellLevel : option SpellLevel;
  consumeUsage : bool
}.

(** One entry of [resourceUpdates]: [{_id, ...fields}]. *)
Record ResourceUpdate : Type := mkUpdate {
  upd_id : string;
  upd_fields : gmap string JsVal
}.

(** The three update buckets. *)
Record Usage : Type := mkUsage {
  itemUpdates : gmap string JsVal;
  actorUpdates : gmap string Z;
  resourceUpdates : list ResourceUpdate
}.

Definition noUpdates : Usage := mkUsage ∅ ∅ [].

Definition setItemUpdate (k : string) (v : JsVal) (u : Usage) : Usage :=
  mkUsage (<[k := v]> (itemUpdates u)) (actorUpdates u) (resourceUpdates u).

Definition setActorUpdate (k : string) (v : Z) (u : Usage) : Usage :=
  mkUsage (itemUpdates u) (<[k := v]> (actorUpdates u)) (resourceUpdates u).

Definition pushResourceUpdates (l : list ResourceUpdate) (u : Usage) : Usage :=
  mkUsage (itemUpdates u) (actorUpdates u) (resourceUpdates u ++ l).

(** ** Usage resolution: [_getUsageUpdates] and [_handleConsumeResource] *)

(** The kinds of [consume.type] that the two [switch] statements of
    [_handleConsumeResource] tell apart; any other string takes no case. *)
Inductive ConsumeKind : Type :=
| KAttribute | KAmmo | KMaterial | KHitDice | KCharges | KOther.

Definition consumeKind (type : string) : ConsumeKind :=
  if String.eqb type "attribute" then KAttribute
  else if String.eqb type "ammo" then KAmmo
  else if String.eqb type "material" then KMaterial
  else if String.eqb type "hitDice" then KHitDice
  else if String.eqb type "charges" then KCharges
  else KOther.

(** The loop over the class items of the [hitDice] case.  It yields, in
    order, each class for which an update is pushed with the [delta] added
    to its [hitDiceUsed]. *)
Fixpoint hitDiceDeltas (toConsume : Z) (resource : list ClassItem)
  : list (ClassItem * Z) :=
  match resource with
  | [] => []
  | cls :: rest =>
      let available :=
        (if 0 <? toConsume then cls_levels cls else 0) - cls_hitDiceUsed cls in
      let delta :=
        if 0 <? toConsume then Z.min toConsume available
        else Z.max toConsume available in
      if delta =? 0 then hitDiceDeltas toConsume rest
      else (cls, delta) ::
           (if toConsume - delta =? 0 then []
            else hitDiceDeltas (toConsume - delta) rest)
  end.

Definition hitDiceUpdate (cd : ClassItem * Z) : ResourceUpdate :=
  mkUpdate (cls_id cd.1)
    {[ "system.hitDiceUsed" := VNum (cls_hitDiceUsed cd.1 + cd.2) ]}.

(** The key of the actor's slot pool for a [consumeSpellLevel]. *)
Definition spellPoolPath (key : string) : string :=
  "spells." +:+ key +:+ ".value".

Section UsageResolver.

(** [Number.isNumeric] on strings and [String.prototype.localeCompare] with
    [("en", {numeric: true})], both of the host. *)
Context (isNumericString : string → bool).
Context (localeCompareNumeric : string → string → Z).

Context (this : Item) (actor : Actor).

(** The classes that the [hitDice] case reads: all of them for the targets
    ["smallest"] and ["largest"], else those whose die is the target. *)
Definition hitDiceResource (target : string) : list ClassItem :=
  let denom :=
    if negb (Js.includes ["smallest"; "largest"] target) then Some target
    else None in
  List.filter
    (λ cls, match denom with
            | None => true
            | Some d => String.eqb (cls_hitDice cls) d
            end)
    (actor_classes actor).

Definition hitDiceQuantity (resource : list ClassItem) : Z :=
  foldl (λ count cls, count + cls_levels cls - cls_hitDiceUsed cls) 0 resource.

(** The order in which the [hitDice] case consumes. *)
Definition hitDiceOrder (target : string) (resource : list ClassItem)
  : list ClassItem :=
  if Js.includes ["smallest"; "largest"] target then
    Js.sort
      (λ lhs rhs,
         let sort := localeCompareNumeric (cls_hitDice lhs) (cls_hitDice rhs) in
         if String.eqb target "largest" then sort * -1 else sort)
      resource
  else resource.

(** What the first [switch] finds: whether [resource] is defined, the
    [quantity] and the [amount]. *)
Definition identifyResource (kind : ConsumeKind) (target : string)
  : bool * Z * Z :=
  let consume := item_consume this in
  let amount := default 1 (consume_amount consume) in
  match kind with
  | KAttribute =>
      match actor_system actor !! target with
      | Some resource => (true, resource, amount)
      | None => (false, 0, amount)
      end
  | KAmmo | KMaterial =>
      match actor_items actor !! target with
      | Some resource => (true, default 0 (item_quantity resource), amount)
      | None => (false, 0, amount)
      end
  | KHitDice => (true, hitDiceQuantity (hitDiceResource target), amount)
  | KCharges =>
      match actor_items actor !! target with
      | None => (false, 0, amount)
      | Some resource =>
          let uses := item_uses resource in
          if Js.truthyStr (uses_per uses) && Js.truthyNum (uses_max uses)
          then (true, default 0 (uses_value uses), amount)
          else if Js.truthyNum (recharge_value (item_recharge resource))
          then (true,
                if Js.truthyBool (recharge_charged (item_recharge resource))
                then 1 else 0,
                1)
          else (true, 0, amount)
      end
  | KOther => (true, 0, amount)
  end.

(** The second [switch]: the updates for a resource that is available. *)
Definition resourceUpdatesFor (kind : ConsumeKind) (target : string)
    (remaining : Z) (u : Usage) : Usage :=
  match kind with
  | KAttribute => setActorUpdate ("system." +:+ target) remaining u
  | KAmmo | KMaterial =>
      pushResourceUpdates
        [mkUpdate target {[ "system.quantity" := VNum remaining ]}] u
  | KHitDice =>
      let resource := hitDiceOrder target (hitDiceResource target) in
      (* [let toConsume = consume.amount]: a [null] amount compares and
         subtracts as 0 *)
      let toConsume := default 0 (consume_amount (item_consume this)) in
      pushResourceUpdates (hitDiceUpdate <$> hitDiceDeltas toConsume resource) u
  | KCharges =>
      match actor_items actor !! target with
      | None => u
      | Some resource =>
          let uses := item_uses resource in
          let recharge := item_recharge resource in
          let update :=
            if Js.truthyStr (uses_per uses) && Js.truthyNum (uses_max uses)
            then {[ "system.uses.value" := VNum remaining ]}
            else if Js.truthyNum (recharge_value recharge)
            then {[ "system.recharge.charged" := VBool false ]}
            else ∅ in
          pushResourceUpdates [mkUpdate target update] u
      end
  | KOther => u
  end.

Definition _handleConsumeResource (u : Usage) : Result Usage :=
  let consume := item_consume this in
  if negb (Js.truthyStr (Some (consume_type consume))) then Continue u
  else if negb (Js.truthyStr (consume_target consume))
  then Refuse "DND5E.ConsumeWarningNoResource"
  else
    let target := default "" (consume_target consume) in
    let kind := consumeKind (consume_type consume) in
    let '(defined, quantity, amount) := identifyResource kind target in
    if negb defined then Refuse "DND5E.ConsumeWarningNoSource"
    else
      let remaining := quantity - amount in
      if remaining <? 0 then Refuse "DND5E.ConsumeWarningNoQuantity"
      else Continue (resourceUpdatesFor kind target remaining u).

(** Step 1 of [_getUsageUpdates]: recharge. *)
Definition consumeRechargeStep (u : Usage) : Result Usage :=
  match recharge_charged (item_recharge this) with
  | Some false => Refuse "DND5E.ItemNoUses"
  | _ => Continue (setItemUpdate "system.recharge.charged" (VBool false) u)
  end.

(** Truthiness of [consumeSpellLevel]. *)
Definition truthyLevel (l : option SpellLevel) : bool :=
  match l with
  | Some (LevelNumber n) => negb (n =? 0)
  | Some (LevelString s) => negb (String.eqb s "")
  | None => false
  end.

(** [consumeSpellLevel] after [`spell${consumeSpellLevel}`] replaced a
    numeric one. *)
Definition spellPoolKey (l : SpellLevel) : string :=
  match l with
  | LevelNumber n => "spell" +:+ pretty n
  | LevelString s => if isNumericString s then "spell" +:+ s else s
  end.

(** [Number(level?.value ?? 0)] for the pool under [key]. *)
Definition slotsAvailable (key : string) : Z :=
  default 0 (actor_system actor !! spellPoolPath key).

(** Step 3: spell slot. *)
Definition consumeSpellSlotStep (l : SpellLevel) (u : Usage) : Result Usage :=
  let key := spellPoolKey l in
  let spells := slotsAvailable key in
  if spells =? 0 then Refuse "DND5E.SpellCastNoSlots"
  else Continue
         (setActorUpdate ("system." +:+ spellPoolPath key)
            (Z.max (spells - 1) 0) u).

(** Step 4: limited uses, with the fall back on the quantity. *)
Definition consumeUsageStep (consumeQuantity : bool) (u : Usage)
  : Result Usage :=
  let uses := item_uses this in
  let available := default 0 (uses_value uses) in
  let remaining := Z.max (available - 1) 0 in
  let '(used, u) :=
    if 1 <=? available
    then (true, setItemUpdate "system.uses.value" (VNum remaining) u)
    else (false, u) in
  let '(used, u) :=
    if consumeQuantity && (negb used || (remaining =? 0)) then
      let q := default 1 (item_quantity this) in
      if 1 <=? q then
        (true,
         setItemUpdate "system.uses.value" (VNum (default 1 (uses_max uses)))
           (setItemUpdate "system.quantity" (VNum (Z.max (q - 1) 0)) u))
      else (used, u)
    else (used, u) in
  if used then Continue u else Refuse "DND5E.ItemNoUses".

Definition _getUsageUpdates (config : ItemUseConfiguration) : Result Usage :=
  u ← (if consumeRecharge config then consumeRechargeStep noUpdates
       else Continue noUpdates);
  u ← (if consumeResource config then _handleConsumeResource u
       else Continue u);
  u ← (if consumeSpellSlot config && truthyLevel (consumeSpellLevel config)
       then match consumeSpellLevel config with
            | Some l => consumeSpellSlotStep l u
            | None => Continue u
            end
       else Continue u);
  u ← (if consumeUsage config then consumeUsageStep (consumeQuantity config) u
       else Continue u);
  Continue u.

End UsageResolver.

(** ** The commit of [use]

    [use] asks [_getUsageUpdates] for the usage and returns at once when it
    is [false]; otherwise it hands the three buckets to the persistence
    calls of the host. *)

Class Persistence (World : Type) : Type := {
  currentItem : World → Item;
  currentActor : World → Actor;
  (** [item.update(itemUpdates)] *)
  itemUpdate : gmap string JsVal → World → World;
  (** [item.delete()] *)
  itemDelete : World → World;
  (** [actor.update(actorUpdates)] *)
  actorUpdate : gmap string Z → World → World;
  (** [actor.updateEmbeddedDocuments("Item", resourceUpdates)] *)
  updateEmbeddedDocuments : list ResourceUpdate → World → World
}.

Section Commit.

Context (isNumericString : string → bool).
Context (localeCompareNumeric : string → string → Z).
Context {World : Type} `{!Persistence World}.

(** [foundry.utils.isEmpty] on an object. *)
Definition isEmpty {V} (m : gmap string V) : bool :=
  match map_to_list m with [] => true | _ => false end.

Definition commitUsage (config : ItemUseConfiguration) (usage : Usage)
    (w : World) : World :=
  let w := if negb (isEmpty (itemUpdates usage))
           then itemUpdate (itemUpdates usage) w else w in
  let w := if consumeQuantity config &&
              bool_decide (item_quantity (currentItem w) = Some 0)
           then itemDelete w else w in
  let w := if negb (isEmpty (actorUpdates usage))
           then actorUpdate (actorUpdates usage) w else w in
  if negb (length (resourceUpdates usage) =? 0)%nat
  then updateEmbeddedDocuments (resourceUpdates usage) w else w.

(** [use], from the call of [_getUsageUpdates] to the end of the commit. *)
Definition useConsumption (config : ItemUseConfiguration) (w : World) : World :=
  match _getUsageUpdates isNumericString localeCompareNumeric
          (currentItem w) (currentActor w) config with
  | Refuse _ => w
  | Continue usage => commitUsage config usage w
  end.

End Commit.

(** A store that keeps the item, its actor and whether the item was deleted,
    and applies the flattened update keys the resolver writes. *)
Record Store : Type := mkStore {
  store_item : Item;
  store_actor : Actor;
  store_deleted : bool
}.

Definition applyItemFields (fields : gmap string JsVal) (it : Item) : Item :=
  let quantity :=
    match fields !! "system.quantity" with
    | Some (VNum q) => Some q
    | _ => item_quantity it
    end in
  let uses :=
    match fields !! "system.uses.value" with
    | Some (VNum v) =>
        mkUses (Some v) (uses_max (item_uses it)) (uses_per (item_uses it))
    | _ => item_uses it
    end in
  let recharge :=
    match fields !! "system.recharge.charged" with
    | Some (VBool c) =>
        mkRecharge (recharge_value (item_recharge it)) (Some c)
    | _ => item_recharge it
    end in
  mkItem (item_id it) (item_type it) (item_actionType it) (item_level it)
    quantity uses recharge (item_consume it) (item_criticalThreshold it).

Definition applyClassFields (fields : gmap string JsVal) (cls : ClassItem)
  : ClassItem :=
  match fields !! "system.hitDiceUsed" with
  | Some (VNum used) => mkClass (cls_id cls) (cls_hitDice cls) (cls_levels cls) used
  | _ => cls
  end.

Definition applyResourceUpdate (a : Actor) (upd : ResourceUpdate) : Actor :=
  mkActor (actor_system a)
    (alter (applyItemFields (upd_fields upd)) (upd_id upd) (actor_items a))
    ((λ cls, if String.eqb (cls_id cls) (upd_id upd)
             then applyClassFields (upd_fields upd) cls else cls)
       <$> actor_classes a)
    (actor_flags a).

(** An actor update key is ["system."] followed by the path of the leaf. *)
Definition stripSystem (key : string) : string :=
  if String.prefix "system." key
  then String.substring 7 (String.length key - 7) key else key.

Definition applyActorFields (fields : gmap string Z) (a : Actor) : Actor :=
  mkActor
    (map_fold (λ k v sys, <[stripSystem k := v]> sys) (actor_system a) fields)
    (actor_items a) (actor_classes a) (actor_flags a).

#[global] Instance store_persistence : Persistence Store := {|
  currentItem := store_item;
  currentActor := store_actor;
  itemUpdate fields w :=
    mkStore (applyItemFields fields (store_item w)) (store_actor w) (store_deleted w);
  itemDelete w := mkStore (store_item w) (store_actor w) true;
  actorUpdate fields w :=
    mkStore (store_item w) (applyActorFields fields (store_actor w)) (store_deleted w);
  updateEmbeddedDocuments upds w :=
    mkStore (store_item w) (foldl applyResourceUpdate (store_actor w) upds)
      (store_deleted w)
|}.

(** ** Critical threshold: [getCriticalThreshold] *)

(** A JavaScript number that may be [Infinity]. *)
Inductive ExtNum : Type :=
| Fin (n : Z)
| Infinity.

Definition extMin (a b : ExtNum) : ExtNum :=
  match a, b with
  | Fin x, Fin y => Fin (Z.min x y)
  | Fin x, Infinity => Fin x
  | Infinity, b => b
  end.

(** [Math.min(...args)]; it is [Infinity] for no argument. *)
Definition mathMin (args : list ExtNum) : ExtNum := foldr extMin Infinity args.

(** [x ?? Infinity] *)
Definition orInfinity (x : option Z) : ExtNum :=
  match x with Some n => Fin n | None => Infinity end.

Definition hasAttack (this : Item) : bool :=
  match item_actionType this with
  | Some actionType => Js.includes ["mwak"; "rwak"; "msak"; "rsak"] actionType
  | None => false
  end.

(** The result is [None] for [null]. *)
Definition getCriticalThreshold (this : Item) (actor : Actor) : option ExtNum :=
  let actorFlags := actor_flags actor in
  if negb (hasAttack this) then None
  else
    let itemThreshold := orInfinity (item_criticalThreshold this) in
    let actorThreshold :=
      if String.eqb (item_type this) "weapon"
      then weaponCriticalThreshold actorFlags
      else if String.eqb (item_type this) "spell"
      then spellCriticalThreshold actorFlags
      else None in
    let ammoThreshold :=
      if String.eqb (consume_type (item_consume this)) "ammo" then
        orInfinity
          (ammo ← (target ← consume_target (item_consume this);
                   actor_items actor !! target);
           item_criticalThreshold ammo)
      else Infinity in
    Some (mathMin [itemThreshold; ammoThreshold; Fin (default 20 actorThreshold)]).

(** ** Advancement index: [_prepareAdvancement] *)

(** An instance of the [Advancement] class, with what the index reads. *)
Record Advancement : Type := mkAdvancement {
  adv_id : string;
  adv_type : string;
  adv_levels : list Z;
  adv_sortingValueForLevel : Z → string
}.

(** An entry of [system.advancement]: an [Advancement], or stored data that
    is no instance of the class. *)
Inductive AdvancementEntry : Type :=
| IsAdvancement (advancement : Advancement)
| ForeignEntry.

Record AdvancementIndex : Type := mkIndex {
  byId : gmap string Advancement;
  byLevel : gmap Z (list Advancement);
  byType : gmap string (list Advancement);
  needingConfiguration : list Advancement
}.

Definition validAdvancements (entries : list AdvancementEntry)
  : list Advancement :=
  omap (λ e, match e with IsAdvancement a => Some a | ForeignEntry => None end)
    entries.

Section AdvancementIndexing.

(** [CONFIG.DND5E.maxLevel] and [String.prototype.localeCompare]. *)
Context (maxLevel : Z).
Context (localeCompare : string → string → Z).

Definition minAdvancementLevel (type : string) : Z :=
  if Js.includes ["class"; "subclass"] type then 1 else 0.

(** [Array.fromRange(maxLevel + 1).slice(min).map(l => [l, []])] as an
    object. *)
Definition emptyLevels (type : string) : gmap Z (list Advancement) :=
  list_to_map
    ((λ l, (l, [])) <$>
       seqZ (minAdvancementLevel type) (maxLevel + 1 - minAdvancementLevel type)).

(** [advancement.levels.forEach(l => byLevel[l].push(advancement))]; [None]
    is the [TypeError] of a level that has no bucket. *)
Fixpoint pushLevels (advancement : Advancement) (levels : list Z)
    (buckets : gmap Z (list Advancement)) : option (gmap Z (list Advancement)) :=
  match levels with
  | [] => Some buckets
  | l :: rest =>
      match buckets !! l with
      | None => None
      | Some data => pushLevels advancement rest (<[l := data ++ [advancement]]> buckets)
      end
  end.

(** The body of the [for] loop. *)
Definition indexEntry (index : AdvancementIndex) (entry : AdvancementEntry)
  : option AdvancementIndex :=
  match entry with
  | ForeignEntry => Some index
  | IsAdvancement advancement =>
      let ids := <[adv_id advancement := advancement]> (byId index) in
      let types :=
        <[adv_type advancement :=
            default [] (byType index !! adv_type advancement) ++ [advancement]]>
          (byType index) in
      buckets ← pushLevels advancement (adv_levels advancement) (byLevel index);
      Some (mkIndex ids buckets types
              (if (length (adv_levels advancement) =? 0)%nat
               then needingConfiguration index ++ [advancement]
               else needingConfiguration index))
  end.

Fixpoint indexEntries (index : AdvancementIndex) (entries : list AdvancementEntry)
  : option AdvancementIndex :=
  match entries with
  | [] => Some index
  | entry :: rest =>
      index' ← indexEntry index entry;
      indexEntries index' rest
  end.

Definition sortLevel (lvl : Z) (data : list Advancement) : list Advancement :=
  Js.sort
    (λ a b, localeCompare (adv_sortingValueForLevel a lvl)
              (adv_sortingValueForLevel b lvl))
    data.

Definition _prepareAdvancement (type : string) (entries : list AdvancementEntry)
  : option AdvancementIndex :=
  index ← indexEntries (mkIndex ∅ (emptyLevels type) ∅ []) entries;
  Some (mkIndex (byId index)
          (map_imap (λ lvl data, Some (sortLevel lvl data)) (byLevel index))
          (byType index) (needingConfiguration index)).

End AdvancementIndexing.

(** ** Damage scaling *)

(** A [Die] term of a roll. *)
Record Die : Type := mkDie {
  die_number : Z;
  die_faces : Z;
  die_modifiers : list string
}.

(** A term of a roll: a [Die], or a term of another class with its
    expression. *)
Inductive RollTerm : Type :=
| TDie (d : Die)
| TOther (expression : string).

(** The [Roll] class of the host. *)
Class RollHost (RollData : Type) : Type := {
  (** [new Roll(formula, data).terms]; [None] is an [undefined] formula *)
  rollTerms : option string → RollData → list RollTerm;
  (** [roll.formula] for a roll with the given terms *)
  rollFormula : list RollTerm → string;
  (** the terms after [roll.alter(multiply)] *)
  rollAlter : Z → list RollTerm → list RollTerm
}.

(** What a scaling function leaves in the array [parts] it was given, and
    the array it returns. *)
Record Scaled : Type := mkScaled {
  partsAfter : list string;
  returned : list string
}.

(** [parts[0] = value] *)
Definition setFirst (value : string) (parts : list string) : list string :=
  match parts with
  | [] => [value]
  | _ :: rest => value :: rest
  end.

(** The text of [parts[0]] in a template literal. *)
Definition firstText (parts : list string) : string :=
  match parts with
  | [] => "undefined"
  | p :: _ => p
  end.

Section DamageScaling.

Context {RollData : Type} `{!RollHost RollData}.

(** The array is changed in place and returned: one list stands for both. *)
Definition _scaleDamage (parts : list string) (scaling : option string)
    (times : Z) (rollData : RollData) : list string :=
  if times <=? 0 then parts
  else
    let p0 := rollTerms (head parts) rollData in
    let s := rollAlter times (rollTerms scaling rollData) in
    match s, p0 with
    | [TDie s0], TDie d0 :: p0rest =>
        if (die_faces d0 =? die_faces s0) &&
           bool_decide (die_modifiers d0 = die_modifiers s0)
        then
          let d0' := mkDie (die_number d0 + die_number s0) (die_faces d0)
                       (die_modifiers d0) in
          setFirst (rollFormula (TDie d0' :: p0rest)) parts
        else setFirst (firstText parts +:+ " + " +:+ rollFormula s) parts
    | _, _ => setFirst (firstText parts +:+ " + " +:+ rollFormula s) parts
    end.

(** [Math.floor((level + 1) / 6)] *)
Definition cantripAdd (level : Z) : Z := (level + 1) `div` 6.

Definition _scaleCantripDamage (parts : list string) (scale : option string)
    (level : Z) (rollData : RollData) : Scaled :=
  let add := cantripAdd level in
  if add =? 0 then mkScaled parts []
  else
    let scaling :=
      if Js.truthyStr scale then scale else Some (Js.join " + " parts) in
    let result := _scaleDamage parts scaling add rollData in
    mkScaled result result.

Definition upcastLevels (baseLevel spellLevel : Z) : Z :=
  Z.max (spellLevel - baseLevel) 0.

Definition _scaleSpellDamage (parts : list string) (baseLevel spellLevel : Z)
    (formula : option string) (rollData : RollData) : Scaled :=
  if upcastLevels baseLevel spellLevel =? 0 then mkScaled parts parts
  else
    let result :=
      _scaleDamage parts formula (upcastLevels baseLevel spellLevel) rollData in
    mkScaled result result.

End DamageScaling.

(** ** Vocabulary of the statements *)

#[global] Instance result_fmap : FMap Result := λ A B f r,
  match r with
  | Refuse w => Refuse w
  | Continue a => Continue (f a)
  end.

(** A configuration with one step switched off. *)
Definition withoutSpellSlot (config : ItemUseConfiguration)
  : ItemUseConfiguration :=
  mkConfig (consumeQuantity config) (consumeRecharge config)
    (consumeResource config) false (consumeSpellLevel config)
    (consumeUsage config).

Definition withoutUsage (config : ItemUseConfiguration) : ItemUseConfiguration :=
  mkConfig (consumeQuantity config) (consumeRecharge config)
    (consumeResource config) (consumeSpellSlot config)
    (consumeSpellLevel config) false.

(** The amount a linked resource is asked for: [consume.amount ?? 1]. *)
Definition requestedAmount (this : Item) : Z :=
  default 1 (consume_amount (item_consume this)).

(** Whether a sibling item counts limited uses ([uses.per && uses.max]) or,
    failing that, recharges ([recharge.value]). *)
Definition countsUses (resource : Item) : bool :=
  Js.truthyStr (uses_per (item_uses resource)) &&
  Js.truthyNum (uses_max (item_uses resource)).

Definition recharges (resource : Item) : bool :=
  Js.truthyNum (recharge_value (item_recharge resource)).

(** The hit dice left in the classes a target selects: the sum of
    [levels - hitDiceUsed] over all classes for ["smallest"] and
    ["largest"], over the classes with that die otherwise. *)
Definition selectsClass (target : string) (cls : ClassItem) : bool :=
  String.eqb target "smallest" || String.eqb target "largest" ||
  String.eqb (cls_hitDice cls) target.

Definition hitDiceLeft (cls : ClassItem) : Z :=
  cls_levels cls - cls_hitDiceUsed cls.

Fixpoint sumZ (l : list Z) : Z :=
  match l with
  | [] => 0
  | x :: rest => x + sumZ rest
  end.

Definition hitDiceAvailable (actor : Actor) (target : string) : Z :=
  sumZ (hitDiceLeft <$> List.filter (selectsClass target) (actor_classes actor)).

(** The cases in which a use lacks a resource it requires, kind by kind.
    The last case of a linked resource is a [consume.type] that is none of
    the kinds: nothing is there to consume from. *)
Inductive Unavailable (isNumericString : string → bool)
    (this : Item) (actor : Actor) (config : ItemUseConfiguration) : Prop :=
| RechargeSpent :
    consumeRecharge config = true →
    recharge_charged (item_recharge this) = Some false →
    Unavailable isNumericString this actor config
| ResourceWithoutTarget :
    consumeResource config = true →
    consume_type (item_consume this) ≠ "" →
    Js.truthyStr (consume_target (item_consume this)) = false →
    Unavailable isNumericString this actor config
| AttributeMissing target :
    consumeResource config = true →
    consume_type (item_consume this) = "attribute" →
    consume_target (item_consume this) = Some target → target ≠ "" →
    actor_system actor !! target = None →
    Unavailable isNumericString this actor config
| AttributeInsufficient target value :
    consumeResource config = true →
    consume_type (item_consume this) = "attribute" →
    consume_target (item_consume this) = Some target → target ≠ "" →
    actor_system actor !! target = Some value →
    value < requestedAmount this →
    Unavailable isNumericString this actor config
| SiblingMissing target :
    consumeResource config = true →
    consume_type (item_consume this) ∈ ["ammo"; "material"; "charges"] →
    consume_target (item_consume this) = Some target → target ≠ "" →
    actor_items actor !! target = None →
    Unavailable isNumericString this actor config
| QuantityInsufficient target resource :
    consumeResource config = true →
    consume_type (item_consume this) ∈ ["ammo"; "material"] →
    consume_target (item_consume this) = Some target → target ≠ "" →
    actor_items actor !! target = Some resource →
    default 0 (item_quantity resource) < requestedAmount this →
    Unavailable isNumericString this actor config
| HitDiceInsufficient target :
    consumeResource config = true →
    consume_type (item_consume this) = "hitDice" →
    consume_target (item_consume this) = Some target → target ≠ "" →
    hitDiceAvailable actor target < requestedAmount this →
    Unavailable isNumericString this actor config
| ChargesInsufficient target resource :
    consumeResource config = true →
    consume_type (item_consume this) = "charges" →
    consume_target (item_consume this) = Some target → target ≠ "" →
    actor_items actor !! target = Some resource →
    countsUses resource = true →
    default 0 (uses_value (item_uses resource)) < requestedAmount this →
    Unavailable isNumericString this actor config
| ChargesSpent target resource :
    consumeResource config = true →
    consume_type (item_consume this) = "charges" →
    consume_target (item_consume this) = Some target → target ≠ "" →
    actor_items actor !! target = Some resource →
    countsUses resource = false → recharges resource = true →
    Js.truthyBool (recharge_charged (item_recharge resource)) = false →
    Unavailable isNumericString this actor config
| ChargesAbsent target resource :
    consumeResource config = true →
    consume_type (item_consume this) = "charges" →
    consume_target (item_consume this) = Some target → target ≠ "" →
    actor_items actor !! target = Some resource →
    countsUses resource = false → recharges resource = false →
    0 < requestedAmount this →
    Unavailable isNumericString this actor config
| UnknownKind target :
    consumeResource config = true →
    consume_type (item_consume this) ≠ "" →
    consumeKind (consume_type (item_consume this)) = KOther →
    consume_target (item_consume this) = Some target → target ≠ "" →
    0 < requestedAmount this →
    Unavailable isNumericString this actor config
| SlotsSpent level :
    consumeSpellSlot config = true →
    consumeSpellLevel config = Some level →
    truthyLevel (Some level) = true →
    slotsAvailable actor (spellPoolKey isNumericString level) = 0 →
    Unavailable isNumericString this actor config
| UsesSpent :
    consumeUsage config = true →
    default 0 (uses_value (item_uses this)) < 1 →
    (consumeQuantity config = false ∨ default 1 (item_quantity this) < 1) →
    Unavailable isNumericString this actor config.

(** The order a comparator puts two elements in, and what makes the
    comparator of a collation: the two directions agree and ties and
    precedence compose. *)
Definition ordered {A : Type} (cmp : A → A → Z) (a b : A) : Prop := cmp a b ≤ 0.

Definition collates (cmp : string → string → Z) : Prop :=
  (∀ a b, 0 ≤ cmp a b ↔ cmp b a ≤ 0) ∧
  (∀ a b c, cmp a b ≤ 0 → cmp b c ≤ 0 → cmp a c ≤ 0).

(** What the advancement index holds once the advancements [seen] are
    entered. *)
Definition indexed (maxLevel : Z) (type : string) (seen : list Advancement)
    (index : AdvancementIndex) : Prop :=
  (∀ l, is_Some (byLevel index !! l) ↔ minAdvancementLevel type ≤ l ≤ maxLevel) ∧
  (∀ l data a, byLevel index !! l = Some data →
               a ∈ data ↔ a ∈ seen ∧ l ∈ adv_levels a) ∧
  (∀ a, a ∈ needingConfiguration index ↔ a ∈ seen ∧ adv_levels a = []).

(** The add-count of cantrip scaling in the words of the specification:
    the caster's level divided by 6, rounded down. *)
Definition specCantripAdd (level : Z) : Z := level `div` 6.

(** ** A host for the examples *)

Module TestHost.

Definition isDigit (c : ascii) : bool :=
  let n := nat_of_ascii c in ((48 <=? n) && (n <=? 57))%nat.

Definition digitValue (c : ascii) : Z := Z.of_nat (nat_of_ascii c) - 48.

(** Reads the digits at the head of a string: their value, if there is at
    least one, and the rest. *)
Fixpoint readDigits (acc : option Z) (s : string) : option Z * string :=
  match s with
  | String c rest =>
      if isDigit c
      then readDigits (Some (default 0 acc * 10 + digitValue c)) rest
      else (acc, s)
  | EmptyString => (acc, s)
  end.

(** A string of digits only. *)
Definition isNumericString (s : string) : bool :=
  match readDigits None s with
  | (Some _, EmptyString) => true
  | _ => false
  end.

(** The number that follows the first character, as in ["d10"]. *)
Definition dieSize (s : string) : Z :=
  match s with
  | String _ rest => default 0 (readDigits None rest).1
  | EmptyString => 0
  end.

(** Numeric collation on die names. *)
Definition localeCompareNumeric (a b : string) : Z :=
  match dieSize a ?= dieSize b with
  | Lt => -1
  | Eq => 0
  | Gt => 1
  end.

(** Collation by code units. *)
Definition localeCompare (a b : string) : Z :=
  match String.compare a b with
  | Lt => -1
  | Eq => 0
  | Gt => 1
  end.

(** A formula that is one die, [<number>d<faces>]. *)
Definition readDie (s : string) : option Die :=
  match readDigits None s with
  | (Some number, String "d"%char rest) =>
      match readDigits None rest with
      | (Some faces, EmptyString) => Some (mkDie number faces [])
      | _ => None
      end
  | _ => None
  end.

Definition termText (t : RollTerm) : string :=
  match t with
  | TDie d =>
      pretty (die_number d) +:+ "d" +:+ pretty (die_faces d) +:+
      Js.join "" (die_modifiers d)
  | TOther expression => expression
  end.

(** Rolls of a single term; [alter] multiplies the number of dice. *)
#[global] Instance simpleRolls : RollHost unit := {|
  rollTerms formula _ :=
    match formula with
    | None => []
    | Some "" => []
    | Some f =>
        match readDie f with
        | Some d => [TDie d]
        | None => [TOther f]
        end
    end;
  rollFormula terms := Js.join " + " (termText <$> terms);
  rollAlter multiply terms :=
    (λ t, match t with
          | TDie d => TDie (mkDie (die_number d * multiply) (die_faces d)
                              (die_modifiers d))
          | TOther e => TOther e
          end) <$> terms
|}.

End TestHost.

(** ** Data of the examples *)

Module Examples.

Definition noUses : Uses := mkUses None None None.
Definition noRecharge : Recharge := mkRecharge None None.
Definition noConsume : Consume := mkConsume "" None None.
Definition noFlags : ActorFlags := mkFlags None None.

(** A fighter 4 who spent one hit die and a rogue 2 who spent none. *)
Definition fighter : ClassItem := mkClass "fighter" "d10" 4 1.
Definition rogue : ClassItem := mkClass "rogue" "d6" 2 0.

(** A feature that spends three hit dice, smallest die first. *)
Definition secondWind : Item :=
  mkItem "wind" "feat" None 0 None noUses noRecharge
    (mkConsume "hitDice" (Some "smallest") (Some 3)) None.

(** A bow that crits on 19 and shoots arrows that crit on 20. *)
Definition arrows : Item :=
  mkItem "arrows" "consumable" (Some "rwak") 0 (Some 0) noUses noRecharge
    noConsume (Some 20).
Definition longbow : Item :=
  mkItem "bow" "weapon" (Some "rwak") 0 (Some 1) noUses noRecharge
    (mkConsume "ammo" (Some "arrows") (Some 1)) (Some 19).

(** An actor whose weapon attacks crit on 18, out of arrows and out of
    third-level slots. *)
Definition hero : Actor :=
  mkActor {[ "spells.spell3.value" := 0; "spells.spell1.value" := 2 ]}
    {[ "arrows" := arrows ]} [fighter; rogue] (mkFlags (Some 18) None).

(** A potion with no use left of three a day, in a stack of two. *)
Definition potion : Item :=
  mkItem "potion" "consumable" None 0 (Some 2)
    (mkUses (Some 0) (Some 3) (Some "day")) noRecharge noConsume None.

(** A first-level spell and a third-level spell. *)
Definition sleep : Item :=
  mkItem "sleep" "spell" None 1 None noUses noRecharge noConsume None.
Definition fireball : Item :=
  mkItem "fireball" "spell" None 3 None noUses noRecharge noConsume None.

(** Use the linked resource only; use a slot of a level only; use the
    limited uses and the quantity only. *)
Definition resourceOnly : ItemUseConfiguration :=
  mkConfig false false true false None false.
Definition slotOnly (level : option SpellLevel) : ItemUseConfiguration :=
  mkConfig false false false true level false.
Definition usageAndQuantity : ItemUseConfiguration :=
  mkConfig true false false false None true.

(** Use a slot though no level is given, and the limited uses. *)
Definition slotWithoutLevel : ItemUseConfiguration :=
  mkConfig true false false true None true.

(** An advancement granted at levels 3 and 5 and one with no level, in the
    stored list of a class, next to an entry that is no advancement. *)
Definition grant : Advancement :=
  mkAdvancement "grant" "ItemGrant" [3; 5] (λ _, "ItemGrant").
Definition scale : Advancement :=
  mkAdvancement "scale" "ScaleValue" [] (λ _, "ScaleValue").
Definition stored : list AdvancementEntry :=
  [IsAdvancement grant; ForeignEntry; IsAdvancement scale].

End Examples.

(** * Further embedded code *)

(** ** The steps of [_getUsageUpdates], each under its flag *)

Section ResolverSteps.

Context (isNumericString : string → bool).
Context (localeCompareNumeric : string → string → Z).
Context (this : Item) (actor : Actor) (config : ItemUseConfiguration).

Definition rechargeIf (u : Usage) : Result Usage :=
  if consumeRecharge config then consumeRechargeStep this u else Continue u.

Definition resourceIf (u : Usage) : Result Usage :=
  if consumeResource config
  then _handleConsumeResource localeCompareNumeric this actor u
  else Continue u.

Definition slotIf (u : Usage) : Result Usage :=
  if consumeSpellSlot config && truthyLevel (consumeSpellLevel config)
  then match consumeSpellLevel config with
       | Some l => consumeSpellSlotStep isNumericString actor l u
       | None => Continue u
       end
  else Continue u.

Definition usageIf (u : Usage) : Result Usage :=
  if consumeUsage config
  then consumeUsageStep this (consumeQuantity config) u
  else Continue u.

End ResolverSteps.

(** No update writes a quantity below zero: the values of the actor
    updates, the quantity and the uses of a sibling update and the quantity
    of the item update. *)
Definition neverOverdrawn (u : Usage) : Prop :=
  (∀ k n, actorUpdates u !! k = Some n → 0 ≤ n) ∧
  (∀ upd k n, upd ∈ resourceUpdates u →
     k = "system.quantity" ∨ k = "system.uses.value" →
     upd_fields upd !! k = Some (VNum n) → 0 ≤ n) ∧
  (∀ n, itemUpdates u !! "system.quantity" = Some (VNum n) → 0 ≤ n).

(** The item fields a use may write, with the flags that ask for them. *)
Definition writesItemFieldsOf (config : ItemUseConfiguration) (u : Usage) : Prop :=
  ∀ k v, itemUpdates u !! k = Some v →
    (k = "system.recharge.charged" ∧ v = VBool false ∧
     consumeRecharge config = true) ∨
    (k = "system.uses.value" ∧ (∃ n, v = VNum n) ∧ consumeUsage config = true) ∨
    (k = "system.quantity" ∧ (∃ n, v = VNum n) ∧
     consumeUsage config = true ∧ consumeQuantity config = true).

(** The documents a sibling update may address: the consume target of an
    ammunition, material or charges resource, or a class of the actor for
    hit dice. *)
Definition addressesResource (this : Item) (actor : Actor)
    (config : ItemUseConfiguration) (u : Usage) : Prop :=
  ∀ upd, upd ∈ resourceUpdates u →
    consumeResource config = true ∧
    ((consume_type (item_consume this) ∈ ["ammo"; "material"; "charges"] ∧
      consume_target (item_consume this) = Some (upd_id upd)) ∨
     (consume_type (item_consume this) = "hitDice" ∧
      ∃ cls, cls ∈ actor_classes actor ∧ cls_id cls = upd_id upd)).

(** ** The ammunition of [rollAttack]

    [rollAttack], from its test of [hasAttack] to the roll configuration:
    the ammunition kept in [this._ammo], the pending ammunition update and
    the critical threshold.  The attack formula and the roll itself are the
    host's. *)

Inductive AttackPreparation : Type :=
| AttackThrows                        (* "You may not place an Attack Roll" *)
| AttackBlocked (warning : string)    (* [return null] *)
| AttackReady (ammo : option Item) (ammoUpdate : list ResourceUpdate)
    (critical : option ExtNum).

Definition attackOnly : ItemUseConfiguration :=
  mkConfig false false true false None false.

Section RollAttack.

Context (isNumericString : string → bool).
Context (localeCompareNumeric : string → string → Z).

(** [this._ammo] after the ammunition block. *)
Definition attackAmmo (this : Item) (actor : Actor) : option Item :=
  let consume := item_consume this in
  if String.eqb (consume_type consume) "ammo" then
    match target ← consume_target consume; actor_items actor !! target with
    | Some ammo =>
        let q := item_quantity ammo in
        let consumeAmount := default 0 (consume_amount consume) in
        if Js.truthyNum q && (0 <=? default 0 q - consumeAmount)
        then Some ammo else None
    | None => None
    end
  else None.

Definition prepareAttack (this : Item) (actor : Actor) : AttackPreparation :=
  if negb (hasAttack this) then AttackThrows
  else
    let ready ammoUpdate :=
      AttackReady (attackAmmo this actor) ammoUpdate
        (getCriticalThreshold this actor) in
    if String.eqb (consume_type (item_consume this)) "ammo" then
      match _getUsageUpdates isNumericString localeCompareNumeric this actor
              attackOnly with
      | Refuse warning => AttackBlocked warning
      | Continue usage => ready (resourceUpdates usage)
      end
    else ready [].

End RollAttack.

(** ** What the advancement index holds, entry by entry *)

(** The advancements of a list with a given id, of a given type and without
    a level, in the order of the list. *)
Definition withId (i : string) (advancements : list Advancement)
  : list Advancement :=
  List.filter (λ a, String.eqb (adv_id a) i) advancements.

Definition ofType (t : string) (advancements : list Advancement)
  : list Advancement :=
  List.filter (λ a, String.eqb (adv_type a) t) advancements.

Definition withoutLevels (advancements : list Advancement) : list Advancement :=
  List.filter (λ a, (length (adv_levels a) =? 0)%nat) advancements.

(** What the pushes of [advancement.levels.forEach] leave in the bucket of
    a level, before the sort: each advancement once for every time the
    level stands in its levels, in the order of the list. *)
Definition pushedAt (l : Z) (advancements : list Advancement)
  : list Advancement :=
  a ← advancements; (λ _, a) <$> List.filter (Z.eqb l) (adv_levels a).

Definition indexedExactly (maxLevel : Z) (type : string)
    (seen : list Advancement) (index : AdvancementIndex) : Prop :=
  (∀ i, byId index !! i = last (withId i seen)) ∧
  (∀ t, byType index !! t =
        match ofType t seen with [] => None | group => Some group end) ∧
  (∀ l, byLevel index !! l =
        if decide (minAdvancementLevel type ≤ l ≤ maxLevel)
        then Some (pushedAt l seen) else None) ∧
  needingConfiguration index = withoutLevels seen.

(** The levels of the valid advancements all have a bucket. *)
Definition levelsInRange (maxLevel : Z) (type : string)
    (entries : list AdvancementEntry) : Prop :=
  Forall (λ a, Forall (λ l, minAdvancementLevel type ≤ l ≤ maxLevel)
                 (adv_levels a))
    (validAdvancements entries).

(** ** Further data of the examples *)

Module MoreExamples.

Import Examples.

Definition hardy : Item :=
  mkItem "hardy" "feat" None 0 None noUses noRecharge
    (mkConsume "hitDice" (Some "d6") None) None.

(** A breath that recharges on 5 and is charged, a bite that spends the
    charge of the breath and asks for three, and their owner. *)
Definition breath : Item :=
  mkItem "breath" "feat" None 0 None noUses (mkRecharge (Some 5) (Some true))
    noConsume None.
Definition dragon : Actor :=
  mkActor ∅ {[ "breath" := breath ]} [] noFlags.

(** A quiver of five arrows and the archer who carries it. *)
Definition quiver : Item :=
  mkItem "arrows" "consumable" (Some "rwak") 0 (Some 5) noUses noRecharge
    noConsume (Some 20).
Definition archer : Actor :=
  mkActor ∅ {[ "arrows" := quiver ]} [fighter; rogue] (mkFlags (Some 18) None).

(** The last potion of a stack, with one use left of three. *)
Definition lastPotion : Item :=
  mkItem "potion" "consumable" None 0 (Some 1)
    (mkUses (Some 1) (Some 3) (Some "day")) noRecharge noConsume None.

End MoreExamples.

(** ** Class levels on update: [_preUpdate]

    [type] and [levels] are [this.type] and [this.system.levels];
    [character] is [this.actor.system.details.level] when the item is
    embedded in an actor of type character; [changed] is
    [changed.system.levels] when the change has that key.  The result is
    [changed.system.levels] as the call leaves it, with the keys of the
    warnings it shows, in order. *)

Section PreUpdate.

(** [CONFIG.DND5E.maxLevel] *)
Context (maxLevel : Z).

Definition _preUpdate (type : string) (levels : Z) (character : option Z)
    (changed : option Z) : option Z * list string :=
  match changed with
  | Some requested =>
      if negb (String.eqb type "class") then (changed, [])
      else
        let '(l, w) :=
          if requested <=? 0
          then (1, ["DND5E.MaxClassLevelMinimumWarn"])
          else (requested, []) in
        let '(l, w) :=
          if maxLevel <? l
          then (maxLevel, w ++ ["DND5E.MaxClassLevelExceededWarn"])
          else (l, w) in
        match character with
        | Some level =>
            let newCharacterLevel := level + (l - levels) in
            if maxLevel <? newCharacterLevel
            then (Some (l - (newCharacterLevel - maxLevel)),
                  w ++ ["DND5E.MaxCharacterLevelExceededWarn"])
            else (Some l, w)
        | None => (Some l, w)
        end
  | None => (None, [])
  end.

End PreUpdate.

(** ** The ability of an item: [abilityMod] *)

(** The fields of [system] that [abilityMod] reads besides those of
    [Item]. *)
Record AbilityData : Type := mkAbilityData {
  system_ability : option string;
  system_consumableType : option string;
  system_fin : option bool;              (* system.properties.fin *)
  system_weaponType : option string
}.

(** What [abilityMod] reads of an actor whose system data has abilities:
    [attributes.spellcasting], [abilities.dex.mod], [abilities.str.mod]. *)
Record ActorAbilities : Type := mkActorAbilities {
  attributes_spellcasting : option string;
  dex_mod : Z;
  str_mod : Z
}.

(** [spellcasting || "int"] *)
Definition orInt (spellcasting : option string) : string :=
  if Js.truthyStr spellcasting then default "" spellcasting else "int".

(** The object literal indexed by [system.actionType], under [hasAttack]. *)
Definition attackAbility (this : Item) (spellcasting : option string)
  : option string :=
  if hasAttack this then
    match item_actionType this with
    | Some actionType =>
        if String.eqb actionType "mwak" then Some "str"
        else if String.eqb actionType "rwak" then Some "dex"
        else if String.eqb actionType "msak" then Some (orInt spellcasting)
        else if String.eqb actionType "rsak" then Some (orInt spellcasting)
        else None
    | None => None
    end
  else None.

(** [owner] is the system data of [this.actor] when there is an actor and
    its system data has abilities.  The result is [None] for [null]. *)
Definition abilityMod (this : Item) (data : AbilityData)
    (owner : option ActorAbilities) : option string :=
  if Js.truthyStr (system_ability data) then system_ability data
  else
    match owner with
    | Some actor =>
        let spellcasting := attributes_spellcasting actor in
        let type := item_type this in
        if String.eqb type "consumable" then
          if bool_decide (system_consumableType data = Some "scroll")
          then Some (orInt spellcasting)
          else attackAbility this spellcasting
        else if String.eqb type "spell" then Some (orInt spellcasting)
        else if String.eqb type "tool" then Some "int"
        else if String.eqb type "weapon" then
          if bool_decide (system_fin data = Some true) then
            Some (if str_mod actor <=? dex_mod actor then "dex" else "str")
          else if match system_weaponType data with
                  | Some weaponType =>
                      Js.includes ["simpleR"; "martialR"] weaponType
                  | None => false
                  end
          then Some "dex"
          else attackAbility this spellcasting
        else attackAbility this spellcasting
    | None => None
    end.

(** ** The default configuration of [use]

    [use] merges the configuration it is given over defaults read from the
    item; [defaultConfiguration] is the configuration of a call that gives
    none, before the dialog. *)

(** The fields of [system] that the defaults read besides those of
    [Item]. *)
Record UseData : Type := mkUseData {
  uses_autoDestroy : option bool;      (* system.uses?.autoDestroy *)
  preparation_mode : option string     (* system.preparation.mode *)
}.

(** [hasLimitedUses], as a truth value. *)
Definition hasLimitedUses (this : Item) : bool :=
  Js.truthyNum (recharge_value (item_recharge this)) ||
  (Js.truthyStr (uses_per (item_uses this)) &&
   (0 <? default 0 (uses_max (item_uses this)))).

Section UseDefaults.

(** [CONFIG.DND5E.spellUpcastModes] *)
Context (spellUpcastModes : list string).

Definition requireSpellSlot (this : Item) (data : UseData) : bool :=
  String.eqb (item_type this) "spell" && (0 <? item_level this) &&
  match preparation_mode data with
  | Some mode => Js.includes spellUpcastModes mode
  | None => false
  end.

Definition defaultConfiguration (this : Item) (data : UseData)
  : ItemUseConfiguration :=
  let resource := item_consume this in
  {| consumeQuantity := default false (uses_autoDestroy data);
     consumeRecharge := Js.truthyNum (recharge_value (item_recharge this));
     consumeResource :=
       Js.truthyStr (consume_target resource) &&
       (negb (hasAttack this) || negb (String.eqb (consume_type resource) "ammo"));
     consumeSpellLevel :=
       if requireSpellSlot this data then
         Some (if bool_decide (preparation_mode data = Some "pact")
               then LevelString "pact"
               else LevelNumber (item_level this))
       else None;
     consumeSpellSlot := requireSpellSlot this data;
     consumeUsage :=
       Js.truthyStr (uses_per (item_uses this)) &&
       (0 <? default 0 (uses_max (item_uses this))) |}.

End UseDefaults.

(** ** The recharge roll: [rollRecharge]

    [total] is the total of the [1d6] the host rolls; the result is the
    world after the call when no hook stops it. *)

Section Recharge.

Context {World : Type} `{!Persistence World}.

Definition rollRecharge (total : Z) (w : World) : World :=
  let recharge := item_recharge (currentItem w) in
  if negb (Js.truthyNum (recharge_value recharge)) then w
  else
    (* [parseInt(recharge.value)] *)
    let target := default 0 (recharge_value recharge) in
    let success := target <=? total in
    if success
    then itemUpdate {[ "system.recharge.charged" := VBool true ]} w
    else w.

End Recharge.

(** Consume the recharge only. *)
Definition rechargeOnly : ItemUseConfiguration :=
  mkConfig false true false false None false.

(** ** Spell data migration: [SpellData.migrateData]

    The two migrations of the spell data model, on the part of the source
    data they read.  The migrations inherited from the templates are not
    part of this file. *)

(** A stored value of the source data. *)
Inductive SourceValue : Type :=
| SBoolean (b : bool)
| SNumber (n : Z)
| SString (s : string)
| SNull.

(** A field that may be missing, [null] or set. *)
Inductive Nullable (A : Type) : Type :=
| Undefined
| Null
| Defined (a : A).
Arguments Undefined {A}.
Arguments Null {A}.
Arguments Defined {A} a.

(** [source.components], [None] when it is missing, and [source.scaling.mode],
    [None] when the source has no [scaling]. *)
Record SpellSource : Type := mkSpellSource {
  source_components : option (gmap string SourceValue);
  source_scaling_mode : option (Nullable string)
}.

(** [typeof value === "boolean"] *)
Definition isBoolean (v : SourceValue) : bool :=
  match v with SBoolean _ => true | _ => false end.

Definition migrateComponentData (source : SpellSource) : SpellSource :=
  mkSpellSource
    (filter (λ entry, isBoolean entry.2 = true) <$> source_components source)
    (source_scaling_mode source).

Definition migrateScaling (source : SpellSource) : SpellSource :=
  mkSpellSource (source_components source)
    (match source_scaling_mode source with
     | Some (Defined mode) =>
         Some (Defined (if String.eqb mode "" then "none" else mode))
     | Some Null => Some (Defined "none")
     | Some Undefined => Some Undefined
     | None => None
     end).

Definition migrateData (source : SpellSource) : SpellSource :=
  migrateScaling (migrateComponentData source).

(** ** Defaults of a created item: [_onCreateOwned...]

    The four functions return the updates to apply to the data of an item
    created on an actor. *)

(** A property of the creation data, as [getProperty] and [hasProperty]
    see it: missing, present with the value [undefined], or given. *)
Inductive Supplied : Type :=
| Missing
| GivenUndefined
| Given.

(** [getProperty(data, key) === undefined] and [!hasProperty(data, key)] *)
Definition isUndefined (p : Supplied) : bool :=
  match p with Given => false | _ => true end.
Definition lacksProperty (p : Supplied) : bool :=
  match p with Missing => true | _ => false end.

(** [system.equipped], [system.proficient] and
    [system.preparation.prepared] of the creation data. *)
Record CreationData : Type := mkCreationData {
  data_equipped : Supplied;
  data_proficient : Supplied;
  data_prepared : Supplied
}.

(** The property of the creation data under a key of the updates. *)
Definition dataProperty (data : CreationData) (key : string) : Supplied :=
  if String.eqb key "system.equipped" then data_equipped data
  else if String.eqb key "system.proficient" then data_proficient data
  else if String.eqb key "system.preparation.prepared" then data_prepared data
  else Missing.

(** An entry of [CONFIG.DND5E.armorProficienciesMap] or
    [weaponProficienciesMap]: [true], or the key of a proficiency. *)
Inductive ProficiencyEntry : Type :=
| AlwaysProficient
| ProficiencyKey (key : string).

(** What the functions read of the item and of its actor: the entry of
    the proficiency map for the item's armor or weapon type ([None] when
    there is none), [system.toolType], [system.baseItem], and the values of
    the actor's armor, tool and weapon proficiencies. *)
Record ProficiencyData : Type := mkProficiencyData {
  mapEntry : option ProficiencyEntry;
  system_toolType : option string;
  system_baseItem : option string;
  actorArmorProfs : gset string;
  actorToolProfs : gset string;
  actorWeaponProfs : gset string
}.

(** [set.has(x)] for a set of strings; it holds for no [x] that is not a
    string. *)
Definition hasEntry (profs : gset string) (entry : option ProficiencyEntry)
  : bool :=
  match entry with
  | Some (ProficiencyKey key) => bool_decide (key ∈ profs)
  | _ => false
  end.
Definition hasString (profs : gset string) (s : option string) : bool :=
  match s with
  | Some s => bool_decide (s ∈ profs)
  | None => false
  end.
Definition isAlways (entry : option ProficiencyEntry) : bool :=
  match entry with Some AlwaysProficient => true | _ => false end.

Definition _onCreateOwnedEquipment (this : ProficiencyData)
    (data : CreationData) (isNPC : bool) : gmap string JsVal :=
  let updates : gmap string JsVal := ∅ in
  let updates :=
    if isUndefined (data_equipped data)
    then <["system.equipped" := VBool isNPC]> updates else updates in
  if isUndefined (data_proficient data) then
    if isNPC then <["system.proficient" := VBool true]> updates
    else
      let armorProf := mapEntry this in
      <["system.proficient" :=
          VBool (isAlways armorProf || hasEntry (actorArmorProfs this) armorProf
                 || hasString (actorArmorProfs this) (system_baseItem this))]>
        updates
  else updates.

Definition _onCreateOwnedSpell (data : CreationData) (isNPC : bool)
  : gmap string JsVal :=
  if isUndefined (data_prepared data)
  then {[ "system.preparation.prepared" := VBool isNPC ]} else ∅.

Definition _onCreateOwnedTool (this : ProficiencyData) (data : CreationData)
    (isNPC : bool) : gmap string JsVal :=
  if isUndefined (data_proficient data) then
    if isNPC then {[ "system.proficient" := VNum 1 ]}
    else
      let proficient :=
        hasString (actorToolProfs this) (system_toolType this) ||
        hasString (actorToolProfs this) (system_baseItem this) in
      {[ "system.proficient" := VNum (if proficient then 1 else 0) ]}
  else ∅.

Definition _onCreateOwnedWeapon (this : ProficiencyData) (data : CreationData)
    (isNPC : bool) : gmap string JsVal :=
  if isNPC then
    let updates : gmap string JsVal := ∅ in
    let updates :=
      if lacksProperty (data_equipped data)
      then <["system.equipped" := VBool true]> updates else updates in
    if lacksProperty (data_proficient data)
    then <["system.proficient" := VBool true]> updates else updates
  else if negb (isUndefined (data_proficient data)) then ∅
  else
    let weaponProf := mapEntry this in
    if isAlways weaponProf then {[ "system.proficient" := VBool true ]}
    else
      {[ "system.proficient" :=
           VBool (hasEntry (actorWeaponProfs this) weaponProf ||
                  hasString (actorWeaponProfs this) (system_baseItem this)) ]}.

(** The updates [_preCreate] asks for, by the type of the creation data,
    for an item embedded in an actor that is no vehicle; [None] when it
    asks for none. *)
Definition ownedCreationUpdates (this : ProficiencyData) (type : string)
    (data : CreationData) (isNPC : bool) : option (gmap string JsVal) :=
  if String.eqb type "equipment" then Some (_onCreateOwnedEquipment this data isNPC)
  else if String.eqb type "spell" then Some (_onCreateOwnedSpell data isNPC)
  else if String.eqb type "tool" then Some (_onCreateOwnedTool this data isNPC)
  else if String.eqb type "weapon" then Some (_onCreateOwnedWeapon this data isNPC)
  else None.

(** ** Activation, target and range: [_prepareActivation]

    The function normalises [system.activation], [system.target] and
    [system.range] in place and writes four labels. *)

Record Activation : Type := mkActivation {
  activation_type : option string;
  activation_cost : option Z
}.

Record Target : Type := mkTarget {
  target_type : option string;
  target_value : option Z;
  target_units : option string
}.

Record Range : Type := mkRange {
  range_units : option string;
  range_value : option Z;
  range_long : option Z
}.

(** The four objects of [system] the function reads; one that is [null]
    is [None], and is then replaced by a fresh empty object that is not
    stored. *)
Record ActivationData : Type := mkActivationData {
  system_activation : option Activation;
  system_target : option Target;
  system_range : option Range;
  system_recharge : option Recharge
}.

Record ActivationLabels : Type := mkActivationLabels {
  labels_activation : string;
  labels_target : string;
  labels_range : string;
  labels_recharge : string
}.

(** [Array.prototype.filterJoin]: the truthy parts, joined. *)
Definition filterJoin (sep : string) (parts : list (option string)) : string :=
  Js.join sep (omap (λ part, if Js.truthyStr part then part else None) parts).

(** A number as a part of a label: [0] and [null] are falsy. *)
Definition numberPart (n : option Z) : option string :=
  if Js.truthyNum n then pretty <$> n else None.

(** [if ( ["none", ""].includes(x) ) x = null] *)
Definition backwardsCompatible (x : option string) : option string :=
  match x with
  | Some s => if Js.includes ["none"; ""] s then None else Some s
  | None => None
  end.

Section PrepareActivation.

(** [CONFIG.DND5E.abilityActivationTypes], [distanceUnits] and
    [targetTypes], and [game.i18n.localize]. *)
Context (abilityActivationTypes distanceUnits targetTypes : string → option string).
Context (localize : string → string).

Definition prepareActivationType (act : Activation) : Activation :=
  mkActivation (backwardsCompatible (activation_type act)) (activation_cost act).

Definition prepareTarget (tgt : Target) : Target :=
  let type := backwardsCompatible (target_type tgt) in
  if bool_decide (type = None ∨ type = Some "self") then mkTarget type None None
  else if bool_decide (target_units tgt = Some "touch")
  then mkTarget type None (target_units tgt)
  else mkTarget type (target_value tgt) (target_units tgt).

Definition prepareRange (rng : Range) : Range :=
  let units := backwardsCompatible (range_units rng) in
  if bool_decide (units = None ∨ units = Some "touch" ∨ units = Some "self")
  then mkRange units None None
  else mkRange units (range_value rng) (range_long rng).

Definition activationLabel (act : option Activation) : string :=
  match act with
  | Some act =>
      if Js.truthyStr (activation_type act)
      then filterJoin " " [numberPart (activation_cost act);
                           type ← activation_type act; abilityActivationTypes type]
      else ""
  | None => ""
  end.

Definition targetLabel (tgt : option Target) : string :=
  match tgt with
  | Some tgt =>
      if Js.truthyStr (target_type tgt)
      then filterJoin " " [numberPart (target_value tgt);
                           units ← target_units tgt; distanceUnits units;
                           type ← target_type tgt; targetTypes type]
      else ""
  | None => ""
  end.

Definition rangeLabel (rng : option Range) : string :=
  match rng with
  | Some rng =>
      if Js.truthyStr (range_units rng)
      then filterJoin " "
             [numberPart (range_value rng);
              if Js.truthyNum (range_long rng)
              then (λ long, "/ " +:+ pretty long) <$> range_long rng else None;
              units ← range_units rng; distanceUnits units]
      else ""
  | None => ""
  end.

(** [`${chg.value}${parseInt(chg.value) < 6 ? "+" : ""}`] *)
Definition rechargeSuffix (chg : option Recharge) : string :=
  match chg with
  | Some chg =>
      match recharge_value chg with
      | Some value => pretty value +:+ (if value <? 6 then "+" else "")
      | None => "null"
      end
  | None => "undefined"
  end.

(** The data as the function leaves it and the labels it writes, for an
    item that has [activation] in its system data. *)
Definition _prepareActivation (system : ActivationData)
  : ActivationData * ActivationLabels :=
  let act := prepareActivationType <$> system_activation system in
  let tgt := prepareTarget <$> system_target system in
  let rng := prepareRange <$> system_range system in
  (mkActivationData act tgt rng (system_recharge system),
   mkActivationLabels (activationLabel act) (targetLabel tgt) (rangeLabel rng)
     (localize "DND5E.Recharge" +:+ " [" +:+
      rechargeSuffix (system_recharge system) +:+ "]")).

End PrepareActivation.

(** ** The parts of a damage roll: [rollDamage]

    [rollDamage], from its test of [hasDamage] to the parts and the roll
    data it hands to the host's [damageRoll]. *)

(** The fields of [system] that [rollDamage] reads besides those of
    [Item]: the formulas of [damage.parts], [damage.versatile],
    [scaling.mode], [scaling.formula] and [preparation.mode]. *)
Record DamageData : Type := mkDamageData {
  damage_parts : list string;
  damage_versatile : option string;
  scaling_mode : option string;
  scaling_formula : option string;
  damage_preparation_mode : option string
}.

(** The actor as [rollDamage] reads it: its type, [details.level],
    [Math.ceil(details.cr)], [details.spellLevel] and the damage bonus of
    [bonuses] under the item's action type. *)
Record DamageActor : Type := mkDamageActor {
  damage_actor_type : string;
  details_level : Z;
  details_cr_ceil : Z;
  details_spellLevel : Z;
  bonuses_damage : option string
}.

(** [this._ammo], as an attack roll left it. *)
Record Ammunition : Type := mkAmmunition {
  ammo_type : string;
  ammo_consumableType : option string;
  ammo_damage_parts : list string
}.

(** The arguments: [spellLevel], [versatile] and [options.parts ?? []]. *)
Record DamageRollConfiguration : Type := mkDamageRollConfiguration {
  damage_spellLevel : option Z;
  damage_versatile_roll : bool;
  options_parts : list string
}.

Section RollDamage.

Context {RollData : Type} `{!RollHost RollData}.

(** [rollData.item.level = level], [rollData.ammo = formula] and
    [parseInt], with [None] for [NaN]. *)
Context (setItemLevel : Z → RollData → RollData).
Context (setAmmo : string → RollData → RollData).
Context (parseInt : string → option Z).

(** The level at which a cantrip is scaled. *)
Definition cantripLevel (dmg : DamageData) (actor : DamageActor) : Z :=
  if String.eqb (damage_actor_type actor) "character" then details_level actor
  else if bool_decide (damage_preparation_mode dmg = Some "innate")
  then details_cr_ceil actor
  else details_spellLevel actor.

(** [parts] after the scaling of a spell. *)
Definition scaleSpellParts (this : Item) (dmg : DamageData) (actor : DamageActor)
    (spellLevel : option Z) (parts : list string) (rollData : RollData)
  : list string :=
  if String.eqb (item_type this) "spell" then
    if bool_decide (scaling_mode dmg = Some "cantrip") then
      partsAfter (_scaleCantripDamage parts (scaling_formula dmg)
                    (cantripLevel dmg actor) rollData)
    else if Js.truthyNum spellLevel &&
            bool_decide (scaling_mode dmg = Some "level") &&
            Js.truthyStr (scaling_formula dmg)
    then partsAfter (_scaleSpellDamage parts (item_level this)
                       (default 0 spellLevel) (scaling_formula dmg) rollData)
    else parts
  else parts.

Definition hasBonusDamage (actor : DamageActor) : bool :=
  match bonuses_damage actor with
  | Some bonus =>
      negb (String.eqb bonus "") && negb (bool_decide (parseInt bonus = Some 0))
  | None => false
  end.

Definition addsAmmunition (ammo : option Ammunition) : bool :=
  match ammo with
  | Some ammo =>
      String.eqb (ammo_type ammo) "consumable" &&
      bool_decide (ammo_consumableType ammo = Some "ammo")
  | None => false
  end.

(** The result is [None] when the function throws, for an item without
    damage; otherwise the parts and the roll data of the roll. *)
Definition rollDamage (this : Item) (dmg : DamageData) (actor : DamageActor)
    (ammo : option Ammunition) (config : DamageRollConfiguration)
    (rollData : RollData) : option (list string * RollData) :=
  match damage_parts dmg with
  | [] => None
  | _ :: _ =>
      let parts := damage_parts dmg in
      let spellLevel := damage_spellLevel config in
      let rollData :=
        if Js.truthyNum spellLevel
        then setItemLevel (default 0 spellLevel) rollData else rollData in
      let parts :=
        if damage_versatile_roll config && Js.truthyStr (damage_versatile dmg)
        then setFirst (default "" (damage_versatile dmg)) parts else parts in
      let parts := scaleSpellParts this dmg actor spellLevel parts rollData in
      let parts :=
        if hasBonusDamage actor
        then parts ++ [default "" (bonuses_damage actor)] else parts in
      let '(parts, rollData) :=
        if addsAmmunition ammo
        then (parts ++ ["@ammo"],
              setAmmo (Js.join "+" (from_option ammo_damage_parts [] ammo))
                rollData)
        else (parts, rollData) in
      Some (parts ++ options_parts config, rollData)
  end.

End RollDamage.

(** ** References in a formula: [replaceFormulaData]

    The function replaces every match of [/@([a-z.0-9_-]+)/gi] in a
    formula by the value the data holds for the term, or by ["0"], and
    pushes one warning that lists the matches without a value. *)

(** A character of the class [[a-z.0-9_-]] under the flag [i]. *)
Definition isTermChar (c : ascii) : bool :=
  let n := nat_of_ascii c in
  ((97 <=? n) && (n <=? 122) || (65 <=? n) && (n <=? 90) ||
   (48 <=? n) && (n <=? 57) || (n =? 46) || (n =? 95) || (n =? 45))%nat.

(** The formula cut at the matches: a character outside every match, or
    the term of a match. *)
Inductive Piece : Type :=
| Literal (c : ascii)
| Reference (term : string).

(** What an ["@"] and the term characters read after it amount to when the
    run ends: a match if there is a character, else the ["@"] itself. *)
Definition flush (current : option string) : list Piece :=
  match current with
  | None => []
  | Some term => if String.eqb term "" then [Literal "@"] else [Reference term]
  end.

(** The scan from left to right; [current] holds the term characters read
    since an ["@"] that is not yet closed.  A match is as long as it can
    be, and the scan goes on behind it. *)
Fixpoint scan (current : option string) (formula : string) : list Piece :=
  match formula with
  | EmptyString => flush current
  | String c rest =>
      let outside :=
        if Ascii.eqb c "@" then scan (Some "") rest
        else Literal c :: scan None rest in
      match current with
      | Some term =>
          if isTermChar c then scan (Some (term +:+ String c "")) rest
          else flush current ++ outside
      | None => outside
      end
  end.

(** [missingReferences.add(match)]: a set keeps the first of equal
    entries. *)
Definition addOnce (seen : list string) (x : string) : list string :=
  if bool_decide (x ∈ seen) then seen else seen ++ [x].

Section ReplaceFormulaData.

(** [getProperty(data, term)] as the text [String(value).trim()], and
    [None] when the value is [null] or [undefined]. *)
Context (getProperty : string → option string).

Definition replacement (piece : Piece) : string :=
  match piece with
  | Literal c => String c ""
  | Reference term => default "0" (getProperty term)
  end.

Definition missingReference (piece : Piece) : option string :=
  match piece with
  | Literal _ => None
  | Reference term =>
      match getProperty term with
      | Some _ => None
      | None => Some ("@" +:+ term)
      end
  end.

(** The formula returned and the references of the warning pushed on the
    actor, if one is: [hasActor] is whether [this.actor] is set. *)
Definition replaceFormulaData (hasActor : bool) (formula : string)
  : string * option (list string) :=
  let pieces := scan None formula in
  let missingReferences := foldl addOnce [] (omap missingReference pieces) in
  (String.concat "" (replacement <$> pieces),
   if negb (length missingReferences =? 0)%nat && hasActor
   then Some missingReferences else None).

End ReplaceFormulaData.

(** Whether a character occurs in a string. *)
Fixpoint occurs (c : ascii) (s : string) : bool :=
  match s with
  | EmptyString => false
  | String c' rest => Ascii.eqb c' c || occurs c rest
  end.

(** ** The description of a spell scroll: [createScrollFromSpell] *)

(** [s.startsWith(needle)] *)
Fixpoint startsWith (needle s : string) : bool :=
  match needle, s with
  | EmptyString, _ => true
  | String a needle', String b s' => Ascii.eqb a b && startsWith needle' s'
  | String _ _, EmptyString => false
  end.

(** [s.indexOf(needle)], with [None] for [-1]. *)
Fixpoint indexOf (needle s : string) : option nat :=
  if startsWith needle s then Some 0%nat
  else
    match s with
    | EmptyString => None
    | String _ rest => S <$> indexOf needle rest
    end.

(** [s.slice(0, n)] and [s.slice(n)] for an index that is not negative. *)
Fixpoint sliceTo (n : nat) (s : string) : string :=
  match n, s with
  | S n', String c rest => String c (sliceTo n' rest)
  | _, _ => ""
  end.

Fixpoint sliceFrom (n : nat) (s : string) : string :=
  match n, s with
  | S n', String _ rest => sliceFrom n' rest
  | _, _ => s
  end.

(** [system.save] *)
Record Save : Type := mkSave {
  save_ability : option string;
  save_scaling : option string;
  save_dc : option Z
}.

(** What the function reads of the spell, and of the scroll item of the
    spell's level that it loads from the compendium. *)
Record SpellSheet : Type := mkSpellSheet {
  spell_name : string;
  spell_level : Z;
  spell_description : string;
  spell_actionType : option string;
  spell_attackBonus : option string;
  spell_save : Save
}.

Record ScrollSheet : Type := mkScrollSheet {
  scroll_description : string;
  scroll_attackBonus : string;
  scroll_save_dc : option Z
}.

(** The data merged over the scroll item. *)
Record SpellScroll : Type := mkSpellScroll {
  created_name : string;
  created_description : string;
  created_attackBonus : option string;
  created_save : Save
}.

(** The end of the intro paragraph: [scrollIntroEnd + pdel.length]. *)
Definition scrollIntroLength (scrollDescription : string) : nat :=
  match indexOf "</p>" scrollDescription with
  | Some scrollIntroEnd => scrollIntroEnd + 4
  | None => 3   (* -1 + 4 *)
  end.

Definition scrollIntro (scrollDescription : string) : string :=
  sliceTo (scrollIntroLength scrollDescription) scrollDescription.

Definition scrollDetails (scrollDescription : string) : string :=
  sliceFrom (scrollIntroLength scrollDescription) scrollDescription.

Section ScrollFromSpell.

(** [String.prototype.trim] and [game.i18n.localize]. *)
Context (trim : string → string).
Context (localize : string → string).

Definition createScrollFromSpell (spell : SpellSheet) (scroll : ScrollSheet)
  : SpellScroll :=
  let scrollDescription := scroll_description scroll in
  let desc :=
    scrollIntro scrollDescription +:+ "<hr/><h3>" +:+ spell_name spell +:+
    " (Level " +:+ pretty (spell_level spell) +:+ ")</h3><hr/>" +:+
    spell_description spell +:+ "<hr/><h3>Scroll Details</h3><hr/>" +:+
    scrollDetails scrollDescription in
  let attackBonus :=
    if match spell_actionType spell with
       | Some actionType => Js.includes ["mwak"; "rwak"; "msak"; "rsak"] actionType
       | None => false
       end
    then Some (scroll_attackBonus scroll +:+ " - @mod")
    else spell_attackBonus spell in
  let save :=
    if Js.truthyStr (save_ability (spell_save spell))
    then mkSave (save_ability (spell_save spell)) (Some "flat")
           (scroll_save_dc scroll)
    else spell_save spell in
  mkSpellScroll (localize "DND5E.SpellScroll" +:+ ": " +:+ spell_name spell)
    (trim desc) attackBonus save.

End ScrollFromSpell.

(** * Properties *)

(** ** The sort *)

Section SortFacts.

Context {A : Type} (cmp : A → A → Z).

Lemma insertBy_Permutation (x : A) (l : list A) :
  Js.insertBy cmp x l ≡ₚ x :: l.
Proof.
  induction l as [|y l IH]; simpl; [done|].
  destruct (cmp x y <=? 0); [done|].
  rewrite IH. apply Permutation_swap.
Qed.

Lemma sort_Permutation (l : list A) : Js.sort cmp l ≡ₚ l.
Proof.
  induction l as [|x l IH]; simpl; [done|].
  rewrite insertBy_Permutation. by rewrite IH.
Qed.

Lemma elem_of_sort (x : A) (l : list A) : x ∈ Js.sort cmp l ↔ x ∈ l.
Proof. by rewrite sort_Permutation. Qed.

(** With a comparator that is total and transitive the result is ordered. *)
Hypothesis cmp_total : ∀ a b, cmp a b ≤ 0 ∨ cmp b a ≤ 0.
Hypothesis cmp_trans : ∀ a b c, cmp a b ≤ 0 → cmp b c ≤ 0 → cmp a c ≤ 0.

Lemma insertBy_Sorted (x : A) (l : list A) :
  StronglySorted (ordered cmp) l → StronglySorted (ordered cmp) (Js.insertBy cmp x l).
Proof.
  induction 1 as [|y l Hl IH Hy]; simpl.
  - repeat constructor.
  - destruct (cmp x y <=? 0) eqn:Hxy.
    + apply Z.leb_le in Hxy. constructor; [by constructor|].
      constructor; [done|].
      eapply Forall_impl; [exact Hy|]. intros z Hz. by eapply cmp_trans.
    + apply Z.leb_gt in Hxy. constructor; [done|].
      rewrite insertBy_Permutation. constructor; [|done].
      destruct (cmp_total x y); [lia|done].
Qed.

Lemma sort_Sorted (l : list A) : StronglySorted (ordered cmp) (Js.sort cmp l).
Proof.
  induction l as [|x l IH]; simpl; [constructor|]. by apply insertBy_Sorted.
Qed.

End SortFacts.

(** ** Hit dice *)

Lemma sumZ_app (l k : list Z) : sumZ (l ++ k) = sumZ l + sumZ k.
Proof. induction l as [|x l IH]; simpl; lia. Qed.

Lemma sumZ_Permutation (l k : list Z) : l ≡ₚ k → sumZ l = sumZ k.
Proof. induction 1; simpl; lia. Qed.

Lemma hitDiceQuantity_sum (resource : list ClassItem) :
  hitDiceQuantity resource = sumZ (hitDiceLeft <$> resource).
Proof.
  unfold hitDiceQuantity.
  assert (∀ acc, foldl (λ count cls, count + cls_levels cls - cls_hitDiceUsed cls)
                   acc resource = acc + sumZ (hitDiceLeft <$> resource)) as H.
  { induction resource as [|cls rest IH]; intros acc; csimpl; [lia|].
    rewrite IH. unfold hitDiceLeft. lia. }
  rewrite H. lia.
Qed.

Lemma hitDiceResource_selects (actor : Actor) (target : string) :
  hitDiceResource actor target = List.filter (selectsClass target) (actor_classes actor).
Proof.
  unfold hitDiceResource. apply filter_ext. intros cls.
  unfold selectsClass, Js.includes. simpl.
  destruct (String.eqb target "smallest"), (String.eqb target "largest");
    simpl; try reflexivity.
Qed.

Lemma hitDiceOrder_Permutation cmp (target : string) (resource : list ClassItem) :
  hitDiceOrder cmp target resource ≡ₚ resource.
Proof.
  unfold hitDiceOrder. destruct (Js.includes _ target); [|done].
  apply sort_Permutation.
Qed.

Lemma StronglySorted_weaken {A} (R S : A → A → Prop) (l : list A) :
  (∀ a b, R a b → S a b) → StronglySorted R l → StronglySorted S l.
Proof.
  intros HRS. induction 1 as [|x l Hl IH Hx]; constructor; [done|].
  eapply Forall_impl; [exact Hx|]. intros y. apply HRS.
Qed.

(** For a collation, ["smallest"] puts the dice in ascending order and
    ["largest"] in descending order; any other target keeps the order of
    the classes. *)
Lemma hitDiceOrder_smallest cmp (resource : list ClassItem) :
  collates cmp →
  StronglySorted (λ a b, cmp (cls_hitDice a) (cls_hitDice b) ≤ 0)
    (hitDiceOrder cmp "smallest" resource).
Proof.
  intros [Hflip Htrans].
  apply (sort_Sorted (λ lhs rhs, cmp (cls_hitDice lhs) (cls_hitDice rhs))).
  - intros a b.
    destruct (Z.le_ge_cases (cmp (cls_hitDice a) (cls_hitDice b)) 0) as [?|Hge];
      [by left|right]. apply Hflip. lia.
  - intros a b c. apply Htrans.
Qed.

Lemma hitDiceOrder_largest cmp (resource : list ClassItem) :
  collates cmp →
  StronglySorted (λ a b, 0 ≤ cmp (cls_hitDice a) (cls_hitDice b))
    (hitDiceOrder cmp "largest" resource).
Proof.
  intros [Hflip Htrans].
  eapply StronglySorted_weaken;
    [|apply (sort_Sorted
               (λ lhs rhs, cmp (cls_hitDice lhs) (cls_hitDice rhs) * -1))].
  - unfold ordered. intros a b. lia.
  - intros a b.
    destruct (Z.le_ge_cases (cmp (cls_hitDice a) (cls_hitDice b)) 0) as [Hle|?];
      [right|left; lia].
    assert (0 ≤ cmp (cls_hitDice b) (cls_hitDice a)) by (apply Hflip; lia). lia.
  - intros a b c Hab Hbc.
    assert (cmp (cls_hitDice c) (cls_hitDice a) ≤ 0); [|apply Hflip in H; lia].
    apply (Htrans _ (cls_hitDice b)); apply Hflip; lia.
Qed.

Lemma hitDiceOrder_die cmp (target : string) (resource : list ClassItem) :
  target ≠ "smallest" → target ≠ "largest" →
  hitDiceOrder cmp target resource = resource.
Proof.
  intros Hs Hl. unfold hitDiceOrder, Js.includes. simpl.
  destruct (String.eqb_spec target "smallest"); [done|].
  by destruct (String.eqb_spec target "largest").
Qed.

(** The loop charges exactly the amount asked, in the order of the list, and
    no class for more than it has left. *)
Lemma hitDiceDeltas_exact (resource : list ClassItem) (toConsume : Z) :
  0 < toConsume →
  toConsume ≤ sumZ (hitDiceLeft <$> resource) →
  sumZ (snd <$> hitDiceDeltas toConsume resource) = toConsume ∧
  Forall (λ cd, snd cd ≤ hitDiceLeft (fst cd)) (hitDiceDeltas toConsume resource) ∧
  (fst <$> hitDiceDeltas toConsume resource) `sublist_of` resource.
Proof.
  revert toConsume.
  induction resource as [|cls rest IH]; intros t Ht Hsum; csimpl in *; [lia|].
  assert ((0 <? t) = true) as -> by lia.
  fold (hitDiceLeft cls).
  destruct (Z.min t (hitDiceLeft cls) =? 0) eqn:Hd.
  - apply Z.eqb_eq in Hd.
    destruct (IH t) as (? & ? & ?); [lia..|].
    split_and!; [done..|]. by apply sublist_cons.
  - apply Z.eqb_neq in Hd.
    destruct (t - Z.min t (hitDiceLeft cls) =? 0) eqn:Hr.
    + apply Z.eqb_eq in Hr. csimpl. split_and!.
      * lia.
      * repeat constructor. simpl. lia.
      * apply sublist_skip, sublist_nil_l.
    + apply Z.eqb_neq in Hr.
      destruct (IH (t - Z.min t (hitDiceLeft cls))) as (Hs & Hf & Hl); [lia..|].
      csimpl. split_and!.
      * rewrite Hs. lia.
      * constructor; [simpl; lia|done].
      * by apply sublist_skip.
Qed.

(** For a positive request over classes that have not used more dice than
    they have levels the loop is greedy: every class charged is charged at
    least one die, every class charged but the last is charged all it has
    left, and the classes charged are those with dice left in a first
    stretch of the list. *)
Lemma hitDiceDeltas_greedy (resource : list ClassItem) (toConsume : Z) :
  0 < toConsume →
  Forall (λ cls, cls_hitDiceUsed cls ≤ cls_levels cls) resource →
  Forall (λ cd, 0 < snd cd) (hitDiceDeltas toConsume resource) ∧
  (∀ i cls delta, (S i < length (hitDiceDeltas toConsume resource))%nat →
     hitDiceDeltas toConsume resource !! i = Some (cls, delta) →
     delta = hitDiceLeft cls) ∧
  ∃ k, fst <$> hitDiceDeltas toConsume resource =
       List.filter (λ cls, 0 <? hitDiceLeft cls) (take k resource).
Proof.
  intros Ht Hwf. revert toConsume Ht.
  induction Hwf as [|cls rest Hcls Hrest IH]; intros t Ht; simpl.
  { split_and!; [constructor|intros i ? ? Hi; simpl in Hi; lia|by exists 0%nat]. }
  assert ((0 <? t) = true) as -> by lia.
  fold (hitDiceLeft cls). assert (0 ≤ hitDiceLeft cls) by (unfold hitDiceLeft; lia).
  destruct (Z.min t (hitDiceLeft cls) =? 0) eqn:Hd.
  - apply Z.eqb_eq in Hd. destruct (IH t Ht) as (Hf & Hfull & k & Hk).
    split_and!; [done..|]. exists (S k). simpl.
    by assert ((0 <? hitDiceLeft cls) = false) as -> by lia.
  - apply Z.eqb_neq in Hd.
    assert ((0 <? hitDiceLeft cls) = true) as Hpos by lia.
    destruct (t - Z.min t (hitDiceLeft cls) =? 0) eqn:Hr.
    + apply Z.eqb_eq in Hr. split_and!.
      * repeat constructor; simpl; lia.
      * intros i ? ? Hi. simpl in Hi. lia.
      * exists 1%nat. simpl. by rewrite Hpos.
    + apply Z.eqb_neq in Hr.
      destruct (IH (t - Z.min t (hitDiceLeft cls))) as (Hf & Hfull & k & Hk);
        [lia|].
      split_and!.
      * constructor; [simpl; lia|done].
      * intros [|i] c d Hi; simpl.
        -- intros [= <- <-]. lia.
        -- apply Hfull. simpl in Hi. lia.
      * exists (S k). csimpl. rewrite Hpos. by rewrite Hk.
Qed.

(** ** The steps of the resolver *)

Section ResolverFacts.

Context (isNumericString : string → bool).
Context (localeCompareNumeric : string → string → Z).
Context (this : Item) (actor : Actor).

Local Abbreviation handleConsumeResource :=
  (_handleConsumeResource localeCompareNumeric this actor).
Local Abbreviation getUsageUpdates :=
  (_getUsageUpdates isNumericString localeCompareNumeric this actor).

(** Whether a step refuses does not depend on the buckets it is given. *)
Lemma handleConsumeResource_refuses (u u' : Usage) :
  isRefused (handleConsumeResource u) → isRefused (handleConsumeResource u').
Proof.
  unfold _handleConsumeResource.
  destruct (negb (Js.truthyStr (Some _))); [done|].
  destruct (negb (Js.truthyStr (consume_target _))); [done|].
  destruct (identifyResource _ _ _ _) as [[defined quantity] amount].
  destruct (negb defined); [done|].
  by destruct (quantity - amount <? 0).
Qed.

Lemma consumeRechargeStep_refuses (u u' : Usage) :
  isRefused (consumeRechargeStep this u) → isRefused (consumeRechargeStep this u').
Proof.
  unfold consumeRechargeStep.
  by destruct (recharge_charged _) as [[]|].
Qed.

Lemma consumeSpellSlotStep_refuses (l : SpellLevel) (u u' : Usage) :
  isRefused (consumeSpellSlotStep isNumericString actor l u) →
  isRefused (consumeSpellSlotStep isNumericString actor l u').
Proof.
  unfold consumeSpellSlotStep. by destruct (slotsAvailable _ _ =? 0).
Qed.

Lemma consumeUsageStep_refuses (q : bool) (u u' : Usage) :
  isRefused (consumeUsageStep this q u) → isRefused (consumeUsageStep this q u').
Proof.
  unfold consumeUsageStep.
  destruct (1 <=? default 0 _); simpl;
    destruct q; simpl; try done;
    try destruct (Z.max _ 0 =? 0); simpl; try done;
    by destruct (1 <=? default 1 _).
Qed.

(** The resolver refuses as soon as one enabled step would. *)
Lemma getUsageUpdates_recharge config :
  consumeRecharge config = true →
  isRefused (consumeRechargeStep this noUpdates) →
  isRefused (getUsageUpdates config).
Proof.
  intros Hc Hr. unfold _getUsageUpdates. rewrite Hc.
  by destruct (consumeRechargeStep this noUpdates).
Qed.

Lemma getUsageUpdates_resource config :
  consumeResource config = true →
  isRefused (handleConsumeResource noUpdates) →
  isRefused (getUsageUpdates config).
Proof.
  intros Hc Hr. unfold _getUsageUpdates. rewrite Hc.
  destruct (if consumeRecharge config then _ else _) as [|u1]; [done|]. simpl.
  apply (handleConsumeResource_refuses _ u1) in Hr.
  by destruct (handleConsumeResource u1).
Qed.

Lemma getUsageUpdates_slot config level :
  consumeSpellSlot config = true →
  consumeSpellLevel config = Some level →
  truthyLevel (Some level) = true →
  isRefused (consumeSpellSlotStep isNumericString actor level noUpdates) →
  isRefused (getUsageUpdates config).
Proof.
  intros Hc Hl Ht Hr. unfold _getUsageUpdates. rewrite Hc, Hl, Ht.
  destruct (if consumeRecharge config then _ else _) as [|u1]; [done|]. simpl.
  destruct (if consumeResource config then _ else _) as [|u2]; [done|]. simpl.
  apply (consumeSpellSlotStep_refuses _ _ u2) in Hr.
  by destruct (consumeSpellSlotStep isNumericString actor level u2).
Qed.

Lemma getUsageUpdates_usage config :
  consumeUsage config = true →
  isRefused (consumeUsageStep this (consumeQuantity config) noUpdates) →
  isRefused (getUsageUpdates config).
Proof.
  intros Hc Hr. unfold _getUsageUpdates. rewrite Hc.
  destruct (if consumeRecharge config then _ else _) as [|u1]; [done|]. simpl.
  destruct (if consumeResource config then _ else _) as [|u2]; [done|]. simpl.
  destruct (if consumeSpellSlot config && _ then _ else _) as [|u3]; [done|].
  simpl.
  apply (consumeUsageStep_refuses _ _ u3) in Hr.
  by destruct (consumeUsageStep this (consumeQuantity config) u3).
Qed.

End ResolverFacts.

Lemma truthyStr_Some (s : string) : s ≠ "" → Js.truthyStr (Some s) = true.
Proof.
  intros Hs. unfold Js.truthyStr.
  destruct (String.eqb_spec s ""); [done|reflexivity].
Qed.

(** Decides the test [remaining < 0] of the resource step from the
    arithmetic hypotheses. *)
Ltac remaining_negative :=
  match goal with
  | |- context [?quantity - ?amount <? 0] =>
      let E := fresh in
      assert ((quantity - amount <? 0) = true) as E by lia; rewrite E; clear E
  end.

Ltac remaining_enough :=
  match goal with
  | |- context [?quantity - ?amount <? 0] =>
      let E := fresh in
      assert ((quantity - amount <? 0) = false) as E by lia; rewrite E; clear E
  end.

(** ** Claims on the resolver *)

Section ResolverClaims.

Context (isNumericString : string → bool).
Context (localeCompareNumeric : string → string → Z).

(** C6. Hit-dice consumption takes the dice left, [levels - hitDiceUsed],
    of the classes the target selects: all classes, rearranged with the
    dice ascending for ["smallest"] and descending for ["largest"] (as the
    collation orders their names), or the classes of the die the target
    names, in their order.  For a request of a positive [amount]: when
    fewer dice are left in total the resource step refuses, and with it
    the resolution.  Otherwise the step leaves the item and actor updates
    as they were and appends one update for each class it charges, which
    sets [system.hitDiceUsed] of that class to what it had used plus what
    it is charged; the classes charged come in that order, the dice
    charged add up to exactly [amount], and no class is charged more than
    it has left.  When no class has used more dice than it has levels,
    the classes charged are those with dice left in a first stretch of
    the order, each for at least one die and each but the last for all it
    has left. *)
Theorem C6_hit_dice_across_classes (this : Item) (actor : Actor) (u : Usage)
    (target : string) (amount : Z) :
  consume_type (item_consume this) = "hitDice" →
  consume_target (item_consume this) = Some target →
  target ≠ "" →
  consume_amount (item_consume this) = Some amount →
  0 < amount →
  let selected := List.filter (selectsClass target) (actor_classes actor) in
  let order := hitDiceOrder localeCompareNumeric target selected in
  order ≡ₚ selected ∧
  (collates localeCompareNumeric →
   (target = "smallest" →
    StronglySorted
      (λ a b, localeCompareNumeric (cls_hitDice a) (cls_hitDice b) ≤ 0) order) ∧
   (target = "largest" →
    StronglySorted
      (λ a b, 0 ≤ localeCompareNumeric (cls_hitDice a) (cls_hitDice b)) order)) ∧
  (target ≠ "smallest" → target ≠ "largest" →
   order = selected ∧ Forall (λ cls, cls_hitDice cls = target) selected) ∧
  (hitDiceAvailable actor target < amount →
   isRefused (_handleConsumeResource localeCompareNumeric this actor u) ∧
   ∀ config, consumeResource config = true →
     isRefused (_getUsageUpdates isNumericString localeCompareNumeric
                  this actor config)) ∧
  (amount ≤ hitDiceAvailable actor target →
   ∃ charged : list (ClassItem * Z),
     _handleConsumeResource localeCompareNumeric this actor u =
       Continue
         (mkUsage (itemUpdates u) (actorUpdates u)
            (resourceUpdates u ++
             ((λ cd, mkUpdate (cls_id (fst cd))
                       {[ "system.hitDiceUsed" :=
                            VNum (cls_hitDiceUsed (fst cd) + snd cd) ]})
                <$> charged))) ∧
     (fst <$> charged) `sublist_of` order ∧
     sumZ (snd <$> charged) = amount ∧
     Forall (λ cd, snd cd ≤ hitDiceLeft (fst cd)) charged ∧
     (Forall (λ cls, cls_hitDiceUsed cls ≤ cls_levels cls) selected →
      Forall (λ cd, 0 < snd cd) charged ∧
      (∀ i cls delta, (S i < length charged)%nat →
         charged !! i = Some (cls, delta) → delta = hitDiceLeft cls) ∧
      ∃ k, fst <$> charged =
           List.filter (λ cls, 0 <? hitDiceLeft cls) (take k order))).
Proof.
  intros Htype Htarget Hne Hamount Hpos selected order.
  assert (order ≡ₚ selected) as Hperm by apply hitDiceOrder_Permutation.
  split; [done|]. split.
  { intros Hcol. split; intros ->.
    - by apply hitDiceOrder_smallest.
    - by apply hitDiceOrder_largest. }
  split.
  { intros Hs Hl. split; [by apply hitDiceOrder_die|].
    apply Forall_forall. intros cls Hin.
    apply list_elem_of_In, filter_In in Hin as [_ Hsel].
    unfold selectsClass in Hsel.
    destruct (String.eqb_spec target "smallest"); [done|].
    destruct (String.eqb_spec target "largest"); [done|].
    by apply String.eqb_eq in Hsel. }
  assert (∀ u', _handleConsumeResource localeCompareNumeric this actor u' =
                if hitDiceAvailable actor target - amount <? 0
                then Refuse "DND5E.ConsumeWarningNoQuantity"
                else Continue
                       (pushResourceUpdates
                          (hitDiceUpdate <$> hitDiceDeltas amount order) u'))
    as Hstep.
  { intros u'. unfold _handleConsumeResource. rewrite Htype, Htarget.
    rewrite (truthyStr_Some target Hne). simpl.
    by rewrite Hamount, hitDiceQuantity_sum, hitDiceResource_selects. }
  split.
  - intros Hlt.
    assert (∀ u', isRefused (_handleConsumeResource localeCompareNumeric this actor u'))
      as Hrefused by (intros u'; rewrite Hstep; by remaining_negative).
    split; [done|]. intros config Hc. by apply getUsageUpdates_resource.
  - intros Hle. rewrite Hstep. remaining_enough.
    destruct (hitDiceDeltas_exact order amount) as (Hs & Hf & Hl); [done| |].
    { rewrite (sumZ_Permutation _ (hitDiceLeft <$> selected));
        [done|by apply fmap_Permutation]. }
    exists (hitDiceDeltas amount order). split_and!; [done..|].
    intros Hwf. apply hitDiceDeltas_greedy; [done|]. by rewrite Hperm.
Qed.

(** The resource step on a configured type and target. *)
Lemma handleConsumeResource_identified (this : Item) (actor : Actor)
    (u : Usage) (target : string) :
  consume_type (item_consume this) ≠ "" →
  consume_target (item_consume this) = Some target →
  target ≠ "" →
  _handleConsumeResource localeCompareNumeric this actor u =
    let kind := consumeKind (consume_type (item_consume this)) in
    let '(defined, quantity, amount) := identifyResource this actor kind target in
    if negb defined then Refuse "DND5E.ConsumeWarningNoSource"
    else if quantity - amount <? 0 then Refuse "DND5E.ConsumeWarningNoQuantity"
    else Continue (resourceUpdatesFor localeCompareNumeric this actor kind target
                     (quantity - amount) u).
Proof.
  intros Htype Htarget Hne. unfold _handleConsumeResource.
  rewrite (truthyStr_Some _ Htype), Htarget, (truthyStr_Some _ Hne). simpl.
  by destruct (identifyResource _ _ _ _) as [[? ?] ?].
Qed.

(** The limited-uses step refuses only without a use and without a
    quantity to take. *)
Lemma consumeUsageStep_refused_iff (this : Item) (q : bool) (u : Usage) :
  isRefused (consumeUsageStep this q u) ↔
  default 0 (uses_value (item_uses this)) < 1 ∧
  (q = false ∨ default 1 (item_quantity this) < 1).
Proof.
  unfold consumeUsageStep.
  destruct (1 <=? default 0 (uses_value (item_uses this))) eqn:Ha; simpl.
  - destruct q; simpl.
    + destruct (Z.max _ 0 =? 0); simpl;
        [destruct (1 <=? default 1 (item_quantity this))|]; simpl;
        (split; [done|lia]).
    + split; [done|lia].
  - destruct q; simpl.
    + destruct (1 <=? default 1 (item_quantity this)) eqn:Hq; simpl.
      * split; [done|]. intros [_ [?|?]]; [done|lia].
      * split; [|done]. intros _. split; [lia|right; lia].
    + split; [|done]. intros _. split; [lia|by left].
Qed.

Lemma resource_unavailable_refuses (this : Item) (actor : Actor)
    (config : ItemUseConfiguration) :
  Unavailable isNumericString this actor config →
  isRefused (_getUsageUpdates isNumericString localeCompareNumeric this actor config).
Proof.
  destruct 1 as [Hc Hr|Hc Hty Htg|t Hc Hty Htg Hne Hm|t v Hc Hty Htg Hne Hm Hlt
                |t Hc Hty Htg Hne Hm|t r Hc Hty Htg Hne Hm Hlt|t Hc Hty Htg Hne Hlt
                |t r Hc Hty Htg Hne Hm Hu Hlt|t r Hc Hty Htg Hne Hm Hu Hr Hch
                |t r Hc Hty Htg Hne Hm Hu Hr Hlt|t Hc Hty Hk Htg Hne Hlt
                |l Hc Hl Ht Hz|Hc Hu Hq];
    unfold requestedAmount, hitDiceAvailable, countsUses, recharges in *;
    try (apply getUsageUpdates_resource; [done|]).
  - apply getUsageUpdates_recharge; [done|].
    unfold consumeRechargeStep. by rewrite Hr.
  - unfold _handleConsumeResource.
    by rewrite (truthyStr_Some _ Hty), Htg.
  - rewrite (handleConsumeResource_identified _ _ _ t); [|by rewrite Hty|done..].
    rewrite Hty. simpl. by rewrite Hm.
  - rewrite (handleConsumeResource_identified _ _ _ t); [|by rewrite Hty|done..].
    rewrite Hty. simpl. rewrite Hm. simpl. by remaining_negative.
  - apply list_elem_of_In in Hty. simpl in Hty.
    destruct Hty as [Hty|[Hty|[Hty|[]]]]; symmetry in Hty;
      (rewrite (handleConsumeResource_identified _ _ _ t);
         [|by rewrite Hty|done..]);
      rewrite Hty; simpl; by rewrite Hm.
  - apply list_elem_of_In in Hty. simpl in Hty.
    destruct Hty as [Hty|[Hty|[]]]; symmetry in Hty;
      (rewrite (handleConsumeResource_identified _ _ _ t);
         [|by rewrite Hty|done..]);
      rewrite Hty; simpl; rewrite Hm; simpl; by remaining_negative.
  - rewrite (handleConsumeResource_identified _ _ _ t); [|by rewrite Hty|done..].
    rewrite Hty. simpl.
    rewrite hitDiceQuantity_sum, hitDiceResource_selects. by remaining_negative.
  - rewrite (handleConsumeResource_identified _ _ _ t); [|by rewrite Hty|done..].
    rewrite Hty. simpl. rewrite Hm, Hu. simpl. by remaining_negative.
  - rewrite (handleConsumeResource_identified _ _ _ t); [|by rewrite Hty|done..].
    rewrite Hty. simpl. by rewrite Hm, Hu, Hr, Hch.
  - rewrite (handleConsumeResource_identified _ _ _ t); [|by rewrite Hty|done..].
    rewrite Hty. simpl. rewrite Hm, Hu, Hr. simpl. by remaining_negative.
  - rewrite (handleConsumeResource_identified _ _ _ t); [|done..].
    rewrite Hk. simpl. by remaining_negative.
  - apply (getUsageUpdates_slot _ _ _ _ _ l); [done..|].
    unfold consumeSpellSlotStep. by rewrite Hz.
  - apply getUsageUpdates_usage; [done|].
    apply consumeUsageStep_refused_iff. split; [done|].
    destruct Hq as [->|Hq]; [by left|by right].
Qed.

Lemma consumeKind_inv (type : string) :
  match consumeKind type with
  | KAttribute => type = "attribute"
  | KAmmo => type = "ammo"
  | KMaterial => type = "material"
  | KHitDice => type = "hitDice"
  | KCharges => type = "charges"
  | KOther => True
  end.
Proof.
  unfold consumeKind.
  repeat (match goal with
          | |- context [String.eqb ?a ?b] => destruct (String.eqb_spec a b)
          end; [done|]).
  done.
Qed.

Lemma truthyStr_inv (s : option string) :
  Js.truthyStr s = true → ∃ t, s = Some t ∧ t ≠ "".
Proof.
  destruct s as [t|]; simpl; [|done].
  destruct (String.eqb_spec t ""); [done|]. by exists t.
Qed.

(** A refusal comes from one of the enabled steps. *)
Lemma isRefused_bind {A B} (r : Result A) (f : A → Result B) :
  isRefused (r ≫= f) ↔ isRefused r ∨ ∃ a, r = Continue a ∧ isRefused (f a).
Proof.
  destruct r as [w|a]; simpl.
  - split; [by left|done].
  - split; [right; by exists a|]. by intros [[]|(? & [= <-] & ?)].
Qed.

Lemma getUsageUpdates_refused_inv (this : Item) (actor : Actor)
    (config : ItemUseConfiguration) :
  isRefused (_getUsageUpdates isNumericString localeCompareNumeric this actor config) →
  (consumeRecharge config = true ∧ ∃ u, isRefused (consumeRechargeStep this u)) ∨
  (consumeResource config = true ∧
   ∃ u, isRefused (_handleConsumeResource localeCompareNumeric this actor u)) ∨
  (consumeSpellSlot config = true ∧
   ∃ level u, consumeSpellLevel config = Some level ∧
              truthyLevel (Some level) = true ∧
              isRefused (consumeSpellSlotStep isNumericString actor level u)) ∨
  (consumeUsage config = true ∧
   ∃ u, isRefused (consumeUsageStep this (consumeQuantity config) u)).
Proof.
  unfold _getUsageUpdates. intros H.
  apply isRefused_bind in H as [H|(u1 & _ & H)].
  { left. destruct (consumeRecharge config); [eauto|done]. }
  apply isRefused_bind in H as [H|(u2 & _ & H)].
  { right; left. destruct (consumeResource config); [eauto|done]. }
  apply isRefused_bind in H as [H|(u3 & _ & H)].
  { right; right; left. destruct (consumeSpellSlot config); [|done].
    split; [done|]. simpl in H.
    destruct (consumeSpellLevel config) as [level|]; [|done].
    destruct (truthyLevel (Some level)) eqn:Ht; [|done]. eauto. }
  apply isRefused_bind in H as [H|(u4 & _ & H)]; [|done].
  do 3 right. destruct (consumeUsage config); [eauto|done].
Qed.

(** The resolver refuses in the cases of [Unavailable] only. *)
Lemma refused_only_when_unavailable (this : Item) (actor : Actor)
    (config : ItemUseConfiguration) :
  isRefused (_getUsageUpdates isNumericString localeCompareNumeric this actor config) →
  Unavailable isNumericString this actor config.
Proof.
  intros H.
  apply getUsageUpdates_refused_inv in H
    as [[Hc [u H]]|[[Hc [u H]]|[[Hc (l & u & Hl & Ht & H)]|[Hc [u H]]]]].
  - apply RechargeSpent; [done|]. unfold consumeRechargeStep in H.
    by destruct (recharge_charged _) as [[]|].
  - unfold _handleConsumeResource in H.
    destruct (Js.truthyStr (Some (consume_type (item_consume this)))) eqn:Hty;
      [|done].
    apply truthyStr_inv in Hty as (ty & [= <-] & Hty). simpl in H.
    destruct (Js.truthyStr (consume_target (item_consume this))) eqn:Htg;
      [|by apply ResourceWithoutTarget].
    apply truthyStr_inv in Htg as (t & Htg & Hne). rewrite Htg in H.
    simpl in H. unfold requestedAmount.
    pose proof (consumeKind_inv (consume_type (item_consume this))) as Hk.
    destruct (consumeKind (consume_type (item_consume this))) eqn:Hkind;
      simpl in H.
    + destruct (actor_system actor !! t) as [v|] eqn:Hm; simpl in H;
        [|by eapply AttributeMissing].
      destruct (v - _ <? 0) eqn:Hlt; [|done].
      eapply AttributeInsufficient; [done..|]. unfold requestedAmount. lia.
    + destruct (actor_items actor !! t) as [r|] eqn:Hm; simpl in H;
        [|eapply SiblingMissing; [done|rewrite Hk; set_solver|done..]].
      destruct (_ - _ <? 0) eqn:Hlt; [|done].
      eapply QuantityInsufficient; [done|rewrite Hk; set_solver|done..|].
      unfold requestedAmount. lia.
    + destruct (actor_items actor !! t) as [r|] eqn:Hm; simpl in H;
        [|eapply SiblingMissing; [done|rewrite Hk; set_solver|done..]].
      destruct (_ - _ <? 0) eqn:Hlt; [|done].
      eapply QuantityInsufficient; [done|rewrite Hk; set_solver|done..|].
      unfold requestedAmount. lia.
    + rewrite hitDiceQuantity_sum, hitDiceResource_selects in H.
      destruct (_ - _ <? 0) eqn:Hlt; [|done].
      eapply HitDiceInsufficient; [done..|].
      unfold requestedAmount, hitDiceAvailable. lia.
    + destruct (actor_items actor !! t) as [r|] eqn:Hm; simpl in H;
        [|eapply SiblingMissing; [done|rewrite Hk; set_solver|done..]].
      destruct (Js.truthyStr (uses_per (item_uses r)) &&
                Js.truthyNum (uses_max (item_uses r))) eqn:Hu; simpl in H.
      * destruct (_ - _ <? 0) eqn:Hlt; [|done].
        eapply ChargesInsufficient; [done..|]. unfold requestedAmount. lia.
      * destruct (Js.truthyNum (recharge_value (item_recharge r))) eqn:Hr;
          simpl in H.
        -- destruct (Js.truthyBool (recharge_charged (item_recharge r)))
             eqn:Hch; [done|].
           by eapply ChargesSpent.
        -- destruct (_ - _ <? 0) eqn:Hlt; [|done].
           eapply ChargesAbsent; [done..|]. unfold requestedAmount. lia.
    + destruct (_ - _ <? 0) eqn:Hlt; [|done].
      eapply UnknownKind; [done..|]. unfold requestedAmount. lia.
  - eapply SlotsSpent; [done..|]. unfold consumeSpellSlotStep in H.
    destruct (slotsAvailable _ _ =? 0) eqn:Hz; [lia|done].
  - apply consumeUsageStep_refused_iff in H as [Ha Hq].
    by apply UsesSpent.
Qed.

(** C1. Whatever the resource kind (recharge, attribute, ammunition or
    material, hit dice, charges, spell slot, limited uses and quantity) and
    whatever the configuration: when a required resource is spent, has no
    target, is not found or is insufficient, [_getUsageUpdates] returns
    [false], which carries no update bucket, and [use] then returns before
    any persistence call, so that the item, the actor and the sibling items
    are what they were. *)
Theorem C1_unavailable_resource_refuses (this : Item) (actor : Actor)
    (config : ItemUseConfiguration) :
  Unavailable isNumericString this actor config →
  isRefused (_getUsageUpdates isNumericString localeCompareNumeric this actor config) ∧
  ∀ (World : Type) (P : Persistence World) (w : World),
    currentItem w = this → currentActor w = actor →
    useConsumption isNumericString localeCompareNumeric config w = w.
Proof.
  intros H. apply resource_unavailable_refuses in H. split; [done|].
  intros World P w <- <-. unfold useConsumption.
  by destruct (_getUsageUpdates _ _ _ _ _).
Qed.




(** Which steps write actor updates: the attribute case alone, apart from
    the slot step. *)
Lemma handleConsumeResource_actorUpdates (this : Item) (actor : Actor)
    (u u' : Usage) (k : string) :
  _handleConsumeResource localeCompareNumeric this actor u = Continue u' →
  actorUpdates u' !! k ≠ actorUpdates u !! k →
  consume_type (item_consume this) = "attribute" ∧
  Some k = (λ target, "system." +:+ target) <$> consume_target (item_consume this).
Proof.
  unfold _handleConsumeResource.
  destruct (negb (Js.truthyStr (Some _))); [by intros [= <-]|].
  destruct (consume_target (item_consume this)) as [target|] eqn:Htarget;
    [|done].
  destruct (negb (Js.truthyStr (Some target))); [done|]. simpl.
  destruct (identifyResource _ _ _ _) as [[defined quantity] amount].
  destruct (negb defined); [done|].
  destruct (quantity - amount <? 0); [done|].
  intros [= <-]. unfold consumeKind.
  destruct (String.eqb_spec (consume_type (item_consume this)) "attribute")
    as [->|_].
  - simpl. intros Hk. split; [done|].
    destruct (decide ("system." +:+ target = k)) as [->|Hne]; [done|].
    by rewrite lookup_insert_ne in Hk.
  - repeat (destruct (String.eqb _ _); simpl; try done).
    by destruct (actor_items actor !! target).
Qed.

Lemma consumeRechargeStep_actorUpdates (this : Item) (u u' : Usage) :
  consumeRechargeStep this u = Continue u' → actorUpdates u' = actorUpdates u.
Proof.
  unfold consumeRechargeStep.
  destruct (recharge_charged _) as [[]|]; by intros [= <-].
Qed.

Lemma consumeUsageStep_actorUpdates (this : Item) (q : bool) (u u' : Usage) :
  consumeUsageStep this q u = Continue u' → actorUpdates u' = actorUpdates u.
Proof.
  unfold consumeUsageStep.
  destruct (1 <=? default 0 _); simpl;
    destruct q; simpl;
    try destruct (Z.max _ 0 =? 0); simpl;
    try destruct (1 <=? default 1 _); simpl; try done; by intros [= <-].
Qed.

(** C10. With [consumeSpellSlot] set but [consumeSpellLevel] null or falsy
    (zero, the empty string) the slot step is skipped: the resolver gives
    what it gives with [consumeSpellSlot] unset, so it does not refuse for
    want of a slot, whatever the pools hold, and the only actor update a
    successful result can carry is the one of an attribute resource. *)
Theorem C10_slot_step_skipped_without_level (this : Item) (actor : Actor)
    (config : ItemUseConfiguration) :
  consumeSpellSlot config = true →
  truthyLevel (consumeSpellLevel config) = false →
  let resolve := _getUsageUpdates isNumericString localeCompareNumeric this actor in
  resolve config = resolve (withoutSpellSlot config) ∧
  ∀ usage k, resolve config = Continue usage →
    is_Some (actorUpdates usage !! k) →
    consumeResource config = true ∧
    consume_type (item_consume this) = "attribute" ∧
    Some k = (λ target, "system." +:+ target) <$> consume_target (item_consume this).
Proof.
  intros Hc Hl resolve. split.
  { unfold resolve, _getUsageUpdates. rewrite Hc, Hl. reflexivity. }
  intros usage k. unfold resolve, _getUsageUpdates. rewrite Hc, Hl. simpl.
  destruct (consumeRecharge config).
  - destruct (consumeRechargeStep this noUpdates) as [|u1] eqn:H1; [done|].
    apply consumeRechargeStep_actorUpdates in H1. simpl.
    destruct (consumeResource config).
    + destruct (_handleConsumeResource _ _ _ u1) as [|u2] eqn:H2; [done|]. simpl.
      intros Hr Hk.
      assert (actorUpdates usage = actorUpdates u2) as Hu.
      { destruct (consumeUsage config); simpl in Hr.
        - destruct (consumeUsageStep _ _ u2) as [|u4] eqn:H4; [done|].
          injection Hr as <-. by apply consumeUsageStep_actorUpdates in H4.
        - by injection Hr as <-. }
      split; [done|]. apply (handleConsumeResource_actorUpdates _ _ _ _ k H2).
      rewrite <- Hu, H1. simpl. rewrite lookup_empty.
      destruct Hk as [? ->]. done.
    + simpl. intros Hr Hk.
      assert (actorUpdates usage = actorUpdates u1) as Hu.
      { destruct (consumeUsage config); simpl in Hr.
        - destruct (consumeUsageStep _ _ u1) as [|u4] eqn:H4; [done|].
          injection Hr as <-. by apply consumeUsageStep_actorUpdates in H4.
        - by injection Hr as <-. }
      rewrite Hu, H1 in Hk. simpl in Hk. rewrite lookup_empty in Hk.
      by destruct Hk.
  - simpl. destruct (consumeResource config).
    + destruct (_handleConsumeResource _ _ _ noUpdates) as [|u2] eqn:H2; [done|].
      simpl. intros Hr Hk.
      assert (actorUpdates usage = actorUpdates u2) as Hu.
      { destruct (consumeUsage config); simpl in Hr.
        - destruct (consumeUsageStep _ _ u2) as [|u4] eqn:H4; [done|].
          injection Hr as <-. by apply consumeUsageStep_actorUpdates in H4.
        - by injection Hr as <-. }
      split; [done|]. apply (handleConsumeResource_actorUpdates _ _ _ _ k H2).
      rewrite <- Hu. simpl. rewrite lookup_empty.
      destruct Hk as [? ->]. done.
    + simpl. intros Hr Hk.
      assert (actorUpdates usage = actorUpdates noUpdates) as Hu.
      { destruct (consumeUsage config); simpl in Hr.
        - destruct (consumeUsageStep _ _ noUpdates) as [|u4] eqn:H4; [done|].
          injection Hr as <-. by apply consumeUsageStep_actorUpdates in H4.
        - by injection Hr as <-. }
      rewrite Hu in Hk. simpl in Hk. rewrite lookup_empty in Hk.
      by destruct Hk.
Qed.

(** The resolver is the steps before the limited uses, then that step. *)
Lemma getUsageUpdates_last_step (this : Item) (actor : Actor)
    (config : ItemUseConfiguration) :
  _getUsageUpdates isNumericString localeCompareNumeric this actor config =
  u ← _getUsageUpdates isNumericString localeCompareNumeric this actor
        (withoutUsage config);
  if consumeUsage config then consumeUsageStep this (consumeQuantity config) u
  else Continue u.
Proof.
  unfold _getUsageUpdates. simpl.
  destruct (if consumeRecharge config then _ else _) as [|u1]; [done|]. simpl.
  destruct (if consumeResource config then _ else _) as [|u2]; [done|]. simpl.
  destruct (if consumeSpellSlot config && _ then _ else _) as [|u3]; [done|].
  simpl. destruct (consumeUsage config); [|done].
  by destruct (consumeUsageStep this (consumeQuantity config) u3).
Qed.

(** C2. The limited-uses step, for the uses [available] and the quantity
    [q] of the item.  With a use available it decrements the uses, and that
    is all unless this was the last use of an item whose quantity can be
    consumed.  With the quantity to be consumed and at least one in stock,
    when no use is available or the last one is being spent, it decrements
    the quantity and resets the uses to their maximum.  It refuses only
    when no use is available and the quantity cannot be decremented.  For
    uses 0 of 3 and quantity 2, with [consumeUsage] and [consumeQuantity]
    set, the step succeeds on every bucket state, and the resolution whose
    earlier steps pass succeeds with quantity 1 and uses 3. *)
Theorem C2_limited_uses_fallback (this : Item) (actor : Actor)
    (config : ItemUseConfiguration) :
  let available := default 0 (uses_value (item_uses this)) in
  let q := default 1 (item_quantity this) in
  let max := default 1 (uses_max (item_uses this)) in
  let step := consumeUsageStep this (consumeQuantity config) in
  let resolve := _getUsageUpdates isNumericString localeCompareNumeric this actor in
  (∀ u, 1 ≤ available →
        ¬ (consumeQuantity config = true ∧ available = 1 ∧ 1 ≤ q) →
        step u = Continue (setItemUpdate "system.uses.value" (VNum (available - 1)) u)) ∧
  (∀ u, consumeQuantity config = true → available ≤ 1 → 1 ≤ q →
        step u =
          Continue (setItemUpdate "system.uses.value" (VNum max)
                      (setItemUpdate "system.quantity" (VNum (q - 1)) u))) ∧
  (∀ u, isRefused (step u) ↔
        available < 1 ∧ (consumeQuantity config = false ∨ q < 1)) ∧
  (uses_value (item_uses this) = Some 0 →
   uses_max (item_uses this) = Some 3 →
   item_quantity this = Some 2 →
   consumeUsage config = true →
   consumeQuantity config = true →
   ∀ u0, resolve (withoutUsage config) = Continue u0 →
     ∃ u, resolve config = Continue u ∧
          itemUpdates u !! "system.quantity" = Some (VNum 1) ∧
          itemUpdates u !! "system.uses.value" = Some (VNum 3)).
Proof.
  intros available q max step resolve.
  assert (∀ u, consumeQuantity config = true → available ≤ 1 → 1 ≤ q →
            step u =
              Continue (setItemUpdate "system.uses.value" (VNum max)
                          (setItemUpdate "system.quantity" (VNum (q - 1)) u)))
    as Hfall.
  { intros u Hq Ha Hs. unfold step, consumeUsageStep. rewrite Hq.
    fold available. fold q. fold max.
    assert ((1 <=? q) = true) as -> by lia.
    assert (Z.max (q - 1) 0 = q - 1) as -> by lia.
    destruct (1 <=? available) eqn:Hav; simpl.
    - assert (available = 1) as -> by lia. simpl.
      unfold setItemUpdate. simpl. do 2 f_equal.
      rewrite (insert_insert_ne _ "system.quantity" "system.uses.value"); [|done].
      by rewrite insert_insert_eq.
    - done. }
  split_and!; [|done| |].
  - intros u Ha Hn. unfold step, consumeUsageStep. fold available. fold q.
    assert ((1 <=? available) = true) as -> by lia.
    assert (Z.max (available - 1) 0 = available - 1) as -> by lia. simpl.
    destruct (consumeQuantity config); simpl; [|done].
    destruct (available - 1 =? 0) eqn:Hz; [|done].
    destruct (1 <=? q) eqn:Hq; [|done].
    exfalso. apply Hn. split_and!; [done|lia..].
  - intros u. apply consumeUsageStep_refused_iff.
  - intros Hv Hm Hq Hcu Hcq u0 Hu0.
    unfold resolve. rewrite getUsageUpdates_last_step. fold resolve.
    rewrite Hu0, Hcu. simpl. fold step.
    rewrite Hfall; [|done|unfold available; rewrite Hv; simpl; lia
                    |unfold q; rewrite Hq; simpl; lia].
    eexists. split; [done|]. unfold max, q. rewrite Hm, Hq. simpl.
    split.
    + rewrite lookup_insert_ne; [|done]. by rewrite lookup_insert_eq.
    + by rewrite lookup_insert_eq.
Qed.

End ResolverClaims.

(** ** Claim on the critical threshold *)

Lemma mathMin_three (a b : option Z) (c : Z) :
  ∃ r, mathMin [orInfinity a; orInfinity b; Fin c] = Fin r ∧
       (r = c ∨ a = Some r ∨ b = Some r) ∧
       r ≤ c ∧ (∀ t, a = Some t → r ≤ t) ∧ (∀ t, b = Some t → r ≤ t).
Proof.
  destruct a as [x|], b as [y|]; simpl; eexists; (split; [reflexivity|]).
  - split_and!; [|lia|intros ? [= <-]; lia..].
    destruct (Z.min_spec y c) as [[? E]|[? E]], (Z.min_spec x (Z.min y c))
      as [[? E']|[? E']]; rewrite ?E', ?E; auto.
  - split_and!; [|lia|intros ? [= <-]; lia|done].
    destruct (Z.min_spec x c) as [[? E]|[? E]]; rewrite E; auto.
  - split_and!; [|lia|done|intros ? [= <-]; lia].
    destruct (Z.min_spec y c) as [[? E]|[? E]]; rewrite E; auto.
  - split_and!; [auto|lia|done..].
Qed.

(** C7. For an item that can attack, the critical threshold is the least
    of: the item's own threshold, when it has one; the threshold in the
    actor flag of the item's kind (the weapon flag for a weapon, the spell
    flag for a spell), or 20 when the flag is absent or the item is of
    another kind; and, when the item consumes ammunition, the threshold of
    the ammunition item, when it is found and has one. *)
Theorem C7_critical_threshold_is_minimum (this : Item) (actor : Actor) :
  hasAttack this = true →
  let itemThreshold := item_criticalThreshold this in
  let flagThreshold :=
    if decide (item_type this = "weapon")
    then weaponCriticalThreshold (actor_flags actor)
    else if decide (item_type this = "spell")
    then spellCriticalThreshold (actor_flags actor)
    else None in
  let ammoThreshold :=
    if decide (consume_type (item_consume this) = "ammo") then
      target ← consume_target (item_consume this);
      ammo ← actor_items actor !! target;
      item_criticalThreshold ammo
    else None in
  ∃ r, getCriticalThreshold this actor = Some (Fin r) ∧
       (r = default 20 flagThreshold ∨ itemThreshold = Some r ∨
        ammoThreshold = Some r) ∧
       r ≤ default 20 flagThreshold ∧
       (∀ t, itemThreshold = Some t → r ≤ t) ∧
       (∀ t, ammoThreshold = Some t → r ≤ t).
Proof.
  intros Hattack itemThreshold flagThreshold ammoThreshold.
  destruct (mathMin_three itemThreshold ammoThreshold (default 20 flagThreshold))
    as (r & Hr & Hone & Hflag & Hitem & Hammo).
  exists r. split; [|done].
  unfold getCriticalThreshold. rewrite Hattack. simpl negb. cbv iota.
  rewrite <- Hr.
  assert ((if String.eqb (consume_type (item_consume this)) "ammo"
           then orInfinity
                  (ammo ← (target ← consume_target (item_consume this);
                           actor_items actor !! target);
                   item_criticalThreshold ammo)
           else Infinity) = orInfinity ammoThreshold) as ->.
  { unfold ammoThreshold.
    destruct (String.eqb_spec (consume_type (item_consume this)) "ammo");
      case_decide; try done.
    f_equal. by destruct (consume_target (item_consume this)). }
  assert ((if String.eqb (item_type this) "weapon"
           then weaponCriticalThreshold (actor_flags actor)
           else if String.eqb (item_type this) "spell"
                then spellCriticalThreshold (actor_flags actor)
                else None) = flagThreshold) as ->; [|done].
  unfold flagThreshold.
  destruct (String.eqb_spec (item_type this) "weapon"); case_decide; try done.
  destruct (String.eqb_spec (item_type this) "spell"); case_decide; done.
Qed.

(** ** Claim on the advancement index *)

Section AdvancementFacts.

Context (maxLevel : Z).
Context (localeCompare : string → string → Z).

Lemma lookup_emptyLevels (type : string) (l : Z) :
  emptyLevels maxLevel type !! l =
  if decide (minAdvancementLevel type ≤ l ≤ maxLevel) then Some [] else None.
Proof.
  unfold emptyLevels. set (lo := minAdvancementLevel type).
  set (pairs := (λ l : Z, (l, @nil Advancement)) <$> seqZ lo (maxLevel + 1 - lo)).
  assert (pairs.*1 = seqZ lo (maxLevel + 1 - lo)) as Hfst.
  { unfold pairs. rewrite <- list_fmap_compose. apply list_fmap_id. }
  case_decide as Hl.
  - apply elem_of_list_to_map; [rewrite Hfst; apply NoDup_seqZ|].
    unfold pairs. apply list_elem_of_fmap. exists l. split; [done|].
    apply elem_of_seqZ. lia.
  - apply not_elem_of_list_to_map. rewrite Hfst, elem_of_seqZ. lia.
Qed.

Lemma pushLevels_spec (a : Advancement) (levels : list Z)
    (buckets : gmap Z (list Advancement)) :
  (∀ l, l ∈ levels → is_Some (buckets !! l)) →
  ∃ buckets', pushLevels a levels buckets = Some buckets' ∧
    (∀ l, is_Some (buckets' !! l) ↔ is_Some (buckets !! l)) ∧
    (∀ l data', buckets' !! l = Some data' →
       ∃ data, buckets !! l = Some data ∧
               ∀ x, x ∈ data' ↔ x ∈ data ∨ (x = a ∧ l ∈ levels)).
Proof.
  revert buckets.
  induction levels as [|l0 levels IH]; intros buckets Hin; simpl.
  - exists buckets. split_and!; [done..|].
    intros l data' Hl. exists data'. split; [done|]. set_solver.
  - destruct (Hin l0) as [data0 Hdata0]; [set_solver|]. rewrite Hdata0.
    destruct (IH (<[l0 := data0 ++ [a]]> buckets)) as (b' & Hb' & Hdom & Hel).
    { intros l Hl. destruct (decide (l = l0)) as [->|Hne].
      - rewrite lookup_insert_eq. by eexists.
      - rewrite lookup_insert_ne; [|done]. apply Hin. set_solver. }
    exists b'. split_and!; [done| |].
    + intros l. rewrite Hdom. destruct (decide (l = l0)) as [->|Hne].
      * rewrite lookup_insert_eq, Hdata0. split; intros _; by eexists.
      * by rewrite lookup_insert_ne.
    + intros l data' Hl. destruct (Hel l data' Hl) as (data & Hdata & Hx).
      destruct (decide (l = l0)) as [->|Hne].
      * rewrite lookup_insert_eq in Hdata. injection Hdata as <-.
        exists data0. split; [done|]. intros x. rewrite Hx. set_solver.
      * rewrite lookup_insert_ne in Hdata; [|done].
        exists data. split; [done|]. intros x. rewrite Hx. set_solver.
Qed.

Lemma indexEntry_spec (type : string) (seen : list Advancement)
    (index : AdvancementIndex) (a : Advancement) :
  indexed maxLevel type seen index →
  (∀ l, l ∈ adv_levels a → minAdvancementLevel type ≤ l ≤ maxLevel) →
  ∃ index', indexEntry index (IsAdvancement a) = Some index' ∧
            indexed maxLevel type (seen ++ [a]) index'.
Proof.
  intros (Hdom & Hlev & Hneed) Hrange. simpl.
  destruct (pushLevels_spec a (adv_levels a) (byLevel index))
    as (b' & -> & Hdom' & Hel).
  { intros l Hl. apply Hdom. by apply Hrange. }
  simpl. eexists. split; [done|]. split_and!; simpl.
  - intros l. by rewrite Hdom'.
  - intros l data' x Hl. destruct (Hel l data' Hl) as (data & Hdata & Hx).
    rewrite Hx, (Hlev l data x Hdata). set_solver.
  - intros x. destruct (adv_levels a) as [|l0 ls] eqn:Hlevels; simpl.
    + rewrite elem_of_app, Hneed. set_solver.
    + rewrite Hneed. split; [set_solver|].
      intros [Hx Hnil]. split; [|done].
      apply elem_of_app in Hx as [?|Hx]; [done|].
      apply list_elem_of_singleton in Hx. congruence.
Qed.

Lemma indexEntries_spec (type : string) (entries : list AdvancementEntry) :
  ∀ (seen : list Advancement) (index : AdvancementIndex),
  indexed maxLevel type seen index →
  (∀ a l, IsAdvancement a ∈ entries → l ∈ adv_levels a →
          minAdvancementLevel type ≤ l ≤ maxLevel) →
  ∃ index', indexEntries index entries = Some index' ∧
            indexed maxLevel type (seen ++ validAdvancements entries) index'.
Proof.
  induction entries as [|entry rest IH]; intros seen index Hind Hrange; simpl.
  - exists index. by rewrite app_nil_r.
  - destruct entry as [a|].
    + destruct (indexEntry_spec type seen index a Hind) as (index1 & -> & Hind1).
      { intros l. apply Hrange. set_solver. }
      simpl. destruct (IH (seen ++ [a]) index1 Hind1) as (index' & -> & Hind').
      { intros a' l Ha'. apply Hrange. set_solver. }
      exists index'. split; [done|].
      unfold validAdvancements in *. simpl. by rewrite <- app_assoc in Hind'.
    + simpl. destruct (IH seen index Hind) as (index' & -> & Hind').
      { intros a' l Ha'. apply Hrange. set_solver. }
      by exists index'.
Qed.

Lemma elem_of_validAdvancements (a : Advancement)
    (entries : list AdvancementEntry) :
  a ∈ validAdvancements entries ↔ IsAdvancement a ∈ entries.
Proof.
  unfold validAdvancements. rewrite list_elem_of_omap. split.
  - intros ([a'|] & Hin & Heq); [|done]. by injection Heq as ->.
  - intros Hin. by exists (IsAdvancement a).
Qed.

(** The finished index: a valid advancement is in the bucket of a level
    exactly when the level is one of its levels, and in
    [needingConfiguration] exactly when it has no level. *)
Lemma prepareAdvancement_spec (type : string) (entries : list AdvancementEntry) :
  (∀ a l, IsAdvancement a ∈ entries → l ∈ adv_levels a →
          minAdvancementLevel type ≤ l ≤ maxLevel) →
  ∃ index, _prepareAdvancement maxLevel localeCompare type entries = Some index ∧
    (∀ l, is_Some (byLevel index !! l) ↔ minAdvancementLevel type ≤ l ≤ maxLevel) ∧
    (∀ l data a, byLevel index !! l = Some data →
       a ∈ data ↔ IsAdvancement a ∈ entries ∧ l ∈ adv_levels a) ∧
    (∀ a, a ∈ needingConfiguration index ↔
          IsAdvancement a ∈ entries ∧ adv_levels a = []).
Proof.
  intros Hrange. unfold _prepareAdvancement.
  destruct (indexEntries_spec type entries []
              (mkIndex ∅ (emptyLevels maxLevel type) ∅ []))
    as (index & -> & Hdom & Hlev & Hneed); [|done|].
  { split_and!; simpl.
    - intros l. rewrite lookup_emptyLevels. case_decide; [|by split; [intros []|]].
      split; [done|]. by eexists.
    - intros l data a. rewrite lookup_emptyLevels. case_decide; [|done].
      intros [= <-]. set_solver.
    - set_solver. }
  simpl in *. eexists. split; [done|]. simpl. split_and!.
  - intros l. rewrite map_lookup_imap, <- Hdom.
    destruct (byLevel index !! l); simpl; split; intros []; by eexists.
  - intros l data a. rewrite map_lookup_imap.
    destruct (byLevel index !! l) as [data0|] eqn:Hl; simpl; [|done].
    intros [= <-]. unfold sortLevel.
    by rewrite elem_of_sort, (Hlev l data0 a Hl), elem_of_validAdvancements.
  - intros a. by rewrite Hneed, elem_of_validAdvancements.
Qed.

(** C8. When every level of every valid advancement has a bucket, the index
    is built, and in it: a valid advancement whose levels are 3 and 5 is in
    [byLevel[3]] and in [byLevel[5]] and in no other bucket of [byLevel];
    a valid advancement without levels is in [needingConfiguration] and in
    no bucket of [byLevel]. *)
Theorem C8_advancement_level_buckets (type : string)
    (entries : list AdvancementEntry) :
  (∀ a l, IsAdvancement a ∈ entries → l ∈ adv_levels a →
          minAdvancementLevel type ≤ l ≤ maxLevel) →
  ∃ index, _prepareAdvancement maxLevel localeCompare type entries = Some index ∧
    ∀ a, IsAdvancement a ∈ entries →
      ((∀ l, l ∈ adv_levels a ↔ l = 3 ∨ l = 5) →
       (∃ data, byLevel index !! 3 = Some data ∧ a ∈ data) ∧
       (∃ data, byLevel index !! 5 = Some data ∧ a ∈ data) ∧
       (∀ l data, l ≠ 3 → l ≠ 5 → byLevel index !! l = Some data → a ∉ data)) ∧
      (adv_levels a = [] →
       a ∈ needingConfiguration index ∧
       ∀ l data, byLevel index !! l = Some data → a ∉ data).
Proof.
  intros Hrange.
  destruct (prepareAdvancement_spec type entries Hrange)
    as (index & Hindex & Hdom & Hlev & Hneed).
  exists index. split; [done|]. intros a Ha. split.
  - intros Hlevels.
    assert (∀ l, l ∈ adv_levels a → ∃ data, byLevel index !! l = Some data ∧ a ∈ data)
      as Hbucket.
    { intros l Hl. destruct (proj2 (Hdom l)) as [data Hdata]; [by eapply Hrange|].
      exists data. split; [done|]. by apply (Hlev l data a Hdata). }
    split_and!.
    + apply Hbucket, Hlevels. by left.
    + apply Hbucket, Hlevels. by right.
    + intros l data H3 H5 Hdata Hin.
      apply (Hlev l data a Hdata) in Hin as [_ Hl].
      apply Hlevels in Hl as [?|?]; done.
  - intros Hnil. split; [by apply Hneed|].
    intros l data Hdata Hin. apply (Hlev l data a Hdata) in Hin as [_ Hl].
    rewrite Hnil in Hl. by apply elem_of_nil in Hl.
Qed.

End AdvancementFacts.

(** ** Claims on damage scaling *)

Section ScalingClaims.

Context {RollData : Type} `{!RollHost RollData}.

(** C5. [_scaleDamage] returns the parts as they are when [times] is zero
    or negative.  For a positive [times] it alters the roll of the scaling
    formula by [times].  When the altered roll is a single die and the
    first term of the first part is a die with the same faces and the same
    modifiers, the first part becomes the formula of its own roll with the
    number of that die raised by the number of the scaling die.  In every
    other case the first part [first] becomes [first], then [" + "], then
    the formula of the altered roll (for an empty array the text of the
    missing part is ["undefined"]).  The parts after the first stay as they
    are, in number and in content. *)
Theorem C5_scale_damage (parts : list string) (scaling : option string)
    (times : Z) (rollData : RollData) :
  let s := rollAlter times (rollTerms scaling rollData) in
  let p0 := rollTerms (head parts) rollData in
  let result := _scaleDamage parts scaling times rollData in
  let alike :=
    ∃ s0 d0 terms,
      s = [TDie s0] ∧ p0 = TDie d0 :: terms ∧
      die_faces d0 = die_faces s0 ∧ die_modifiers d0 = die_modifiers s0 in
  (times ≤ 0 → result = parts) ∧
  (0 < times →
   ∀ s0 d0 terms,
     s = [TDie s0] → p0 = TDie d0 :: terms →
     die_faces d0 = die_faces s0 → die_modifiers d0 = die_modifiers s0 →
     result =
       rollFormula
         (TDie (mkDie (die_number d0 + die_number s0) (die_faces d0)
                  (die_modifiers d0)) :: terms)
       :: tail parts) ∧
  (0 < times → ¬ alike →
   ∀ first rest, parts = first :: rest →
     result = (first +:+ " + " +:+ rollFormula s) :: rest) ∧
  (0 < times → ¬ alike → parts = [] →
   result = ["undefined + " +:+ rollFormula s]) ∧
  tail result = tail parts ∧
  (parts ≠ [] → length result = length parts).
Proof.
  intros s p0 result alike.
  assert (0 < times → ¬ alike →
          result = setFirst (firstText parts +:+ " + " +:+ rollFormula s) parts)
    as Happend.
  { intros Ht Hno. unfold result, _scaleDamage. fold s. fold p0.
    assert ((times <=? 0) = false) as -> by lia.
    destruct s as [|[s0|] [|]]; try done.
    destruct p0 as [|[d0|] terms]; try done.
    destruct (die_faces d0 =? die_faces s0) eqn:Hf; [|done].
    destruct (bool_decide (die_modifiers d0 = die_modifiers s0)) eqn:Hm; [|done].
    exfalso. apply Hno. exists s0, d0, terms.
    apply Z.eqb_eq in Hf. by apply bool_decide_eq_true in Hm. }
  split_and!.
  - intros Ht. unfold result, _scaleDamage.
    by assert ((times <=? 0) = true) as -> by lia.
  - intros Ht s0 d0 terms Hs Hp Hf Hm. unfold result, _scaleDamage.
    fold s. fold p0. rewrite Hs, Hp.
    assert ((times <=? 0) = false) as -> by lia.
    rewrite Hf, Z.eqb_refl, bool_decide_eq_true_2 by done. simpl.
    by destruct parts.
  - intros Ht Hno first rest ->. by rewrite (Happend Ht Hno).
  - intros Ht Hno ->. by rewrite (Happend Ht Hno).
  - unfold result, _scaleDamage. fold s. fold p0.
    destruct (times <=? 0); [done|].
    destruct s as [|[s0|] [|]], p0 as [|[d0|] terms]; try by destruct parts.
    destruct (_ && _); by destruct parts.
  - intros Hne. unfold result, _scaleDamage. fold s. fold p0.
    destruct (times <=? 0); [done|].
    destruct s as [|[s0|] [|]], p0 as [|[d0|] terms]; try by destruct parts.
    destruct (_ && _); by destruct parts.
Qed.

(** C4. Spell upcast scaling takes [upcastLevels], the cast level less the
    base level and zero when that is negative.  When it is zero the parts
    are returned as they are; otherwise [_scaleDamage] is applied to the
    formula with [upcastLevels] for its [times].  For base level 3: cast at
    level 3 it is zero and the parts are unchanged; cast at level 5 it is
    two and the formula is scaled by two. *)
Theorem C4_spell_upcast_scaling (parts : list string) (baseLevel spellLevel : Z)
    (formula : option string) (rollData : RollData) :
  let scaled base cast := _scaleSpellDamage parts base cast formula rollData in
  ((spellLevel ≤ baseLevel → upcastLevels baseLevel spellLevel = 0) ∧
   (baseLevel ≤ spellLevel →
    upcastLevels baseLevel spellLevel = spellLevel - baseLevel)) ∧
  (upcastLevels baseLevel spellLevel = 0 →
   scaled baseLevel spellLevel = mkScaled parts parts) ∧
  (upcastLevels baseLevel spellLevel ≠ 0 →
   partsAfter (scaled baseLevel spellLevel) =
     _scaleDamage parts formula (upcastLevels baseLevel spellLevel) rollData ∧
   returned (scaled baseLevel spellLevel) =
     partsAfter (scaled baseLevel spellLevel)) ∧
  (upcastLevels 3 3 = 0 ∧ scaled 3 3 = mkScaled parts parts) ∧
  (upcastLevels 3 5 = 2 ∧
   partsAfter (scaled 3 5) = _scaleDamage parts formula 2 rollData).
Proof.
  intros scaled. unfold scaled, _scaleSpellDamage, upcastLevels.
  split_and!; try done; try lia.
  - by intros ->.
  - intros Hne. apply Z.eqb_neq in Hne. by rewrite Hne.
Qed.

(** C3, amended. The add-count of cantrip scaling is the caster's level
    plus one, divided by 6 and rounded down: 1 at level 5 and 0 at level 0,
    and 0 exactly for the levels from -1 to 4.  When it is 0 no scaling is
    applied and the array of parts is left as it was; otherwise the parts
    are scaled by [_scaleDamage] with the add-count for its [times], by the
    scaling formula or, failing one, by the parts joined with [" + "]. *)
Theorem C3_cantrip_add_count (parts : list string) (scale : option string)
    (level : Z) (rollData : RollData) :
  let add := cantripAdd level in
  6 * add ≤ level + 1 < 6 * add + 6 ∧
  cantripAdd 5 = 1 ∧ cantripAdd 0 = 0 ∧
  (add = 0 ↔ -1 ≤ level ≤ 4) ∧
  (add = 0 →
   partsAfter (_scaleCantripDamage parts scale level rollData) = parts) ∧
  (add ≠ 0 →
   partsAfter (_scaleCantripDamage parts scale level rollData) =
     _scaleDamage parts
       (if Js.truthyStr scale then scale else Some (Js.join " + " parts))
       add rollData).
Proof.
  intros add. unfold add, _scaleCantripDamage, cantripAdd.
  pose proof (Z.div_mod (level + 1) 6 ltac:(lia)) as Hdiv.
  pose proof (Z.mod_pos_bound (level + 1) 6 ltac:(lia)) as Hmod.
  split_and!; try done; try lia.
  - by intros ->.
  - intros Hne. apply Z.eqb_neq in Hne. by rewrite Hne.
Qed.

End ScalingClaims.

(** ** The host of the examples *)

Lemma TestHost_collates : collates TestHost.localeCompareNumeric.
Proof.
  unfold collates, TestHost.localeCompareNumeric. split.
  - intros a b.
    destruct (Z.compare_spec (TestHost.dieSize a) (TestHost.dieSize b)),
             (Z.compare_spec (TestHost.dieSize b) (TestHost.dieSize a)); lia.
  - intros a b c.
    destruct (Z.compare_spec (TestHost.dieSize a) (TestHost.dieSize b)),
             (Z.compare_spec (TestHost.dieSize b) (TestHost.dieSize c)),
             (Z.compare_spec (TestHost.dieSize a) (TestHost.dieSize c)); lia.
Qed.

Module Checks.

Import Examples.

Example hit_dice_smallest_first :
  hitDiceDeltas 3
    (hitDiceOrder TestHost.localeCompareNumeric "smallest" [fighter; rogue]) =
  [(rogue, 2); (fighter, 1)].
Proof. vm_compute. reflexivity. Qed.

Example hit_dice_largest_first :
  hitDiceDeltas 3
    (hitDiceOrder TestHost.localeCompareNumeric "largest" [fighter; rogue]) =
  [(fighter, 3)].
Proof. vm_compute. reflexivity. Qed.

Example hit_dice_too_few :
  _handleConsumeResource TestHost.localeCompareNumeric
    (mkItem "wind" "feat" None 0 None noUses noRecharge
       (mkConsume "hitDice" (Some "d6") (Some 3)) None)
    hero noUpdates =
  Refuse "DND5E.ConsumeWarningNoQuantity".
Proof. vm_compute. reflexivity. Qed.

Example no_third_level_slot :
  _getUsageUpdates TestHost.isNumericString TestHost.localeCompareNumeric
    fireball hero (slotOnly (Some (LevelNumber 3))) =
  Refuse "DND5E.SpellCastNoSlots".
Proof. vm_compute. reflexivity. Qed.

Example slot_level_from_the_dialog :
  _getUsageUpdates TestHost.isNumericString TestHost.localeCompareNumeric
    sleep hero (slotOnly (Some (LevelString "1"))) =
  Continue (mkUsage ∅ {[ "system.spells.spell1.value" := 1 ]} []).
Proof. vm_compute. reflexivity. Qed.

Example pact_pool :
  spellPoolKey TestHost.isNumericString (LevelString "pact") = "pact".
Proof. reflexivity. Qed.

Example potion_committed :
  let w := useConsumption TestHost.isNumericString TestHost.localeCompareNumeric
             usageAndQuantity (mkStore potion hero false) in
  item_quantity (store_item w) = Some 1 ∧
  uses_value (item_uses (store_item w)) = Some 3 ∧
  store_actor w = hero ∧ store_deleted w = false.
Proof. vm_compute. done. Qed.

Example bow_without_arrows :
  useConsumption TestHost.isNumericString TestHost.localeCompareNumeric
    resourceOnly (mkStore longbow hero false) = mkStore longbow hero false.
Proof. vm_compute. reflexivity. Qed.

Example cantrip_at_level_17 :
  _scaleCantripDamage ["1d10"] None 17 tt = mkScaled ["4d10"] ["4d10"].
Proof. vm_compute. reflexivity. Qed.

Example unlike_dice_are_appended :
  _scaleSpellDamage ["8d6"; "2"] 3 5 (Some "1d8") tt =
  mkScaled ["8d6 + 2d8"; "2"] ["8d6 + 2d8"; "2"].
Proof. vm_compute. reflexivity. Qed.

Example threshold_without_attack :
  getCriticalThreshold potion hero = None.
Proof. reflexivity. Qed.

End Checks.

(** * The claims at concrete inputs *)

Module Witness.

Import Examples.

Abbreviation resolve :=
  (_getUsageUpdates TestHost.isNumericString TestHost.localeCompareNumeric).

(** A bow whose arrows ran out cannot be used, and nothing is written. *)
Lemma C1_witness :
  Unavailable TestHost.isNumericString longbow hero resourceOnly ∧
  (isRefused (resolve longbow hero resourceOnly) ∧
   ∀ (World : Type) (P : Persistence World) (w : World),
     currentItem w = longbow → currentActor w = hero →
     useConsumption TestHost.isNumericString TestHost.localeCompareNumeric
       resourceOnly w = w).
Proof.
  assert (Unavailable TestHost.isNumericString longbow hero resourceOnly) as H.
  { apply (QuantityInsufficient _ _ _ _ "arrows" arrows).
    - reflexivity.
    - apply list_elem_of_In. simpl. by left.
    - reflexivity.
    - discriminate.
    - vm_compute. reflexivity.
    - vm_compute. reflexivity. }
  split; [exact H|].
  exact (C1_unavailable_resource_refuses TestHost.isNumericString
           TestHost.localeCompareNumeric longbow hero resourceOnly H).
Defined.

(** The potion of the specification: uses 0 of 3, quantity 2. *)
Lemma C2_witness :
  ∃ u, resolve potion hero usageAndQuantity = Continue u ∧
       itemUpdates u !! "system.quantity" = Some (VNum 1) ∧
       itemUpdates u !! "system.uses.value" = Some (VNum 3).
Proof.
  destruct (C2_limited_uses_fallback TestHost.isNumericString
              TestHost.localeCompareNumeric potion hero usageAndQuantity)
    as (_ & _ & _ & H).
  apply (H eq_refl eq_refl eq_refl eq_refl eq_refl noUpdates).
  vm_compute. reflexivity.
Defined.

(** A cantrip at level 0 is not scaled. *)
Lemma C3_witness :
  cantripAdd 0 = 0 ∧
  partsAfter (_scaleCantripDamage ["1d10"] None 0 tt) = ["1d10"].
Proof.
  destruct (C3_cantrip_add_count ["1d10"] None 0 tt) as (_ & _ & H0 & _ & H & _).
  split; [exact H0|]. apply H. exact H0.
Defined.

(** At level 5 the add-count is 1 where the level divided by 6 gives 0, and
    an unscaled cantrip returns an empty array, not the parts. *)
Lemma C3_counterexample :
  cantripAdd 5 ≠ specCantripAdd 5 ∧
  returned (_scaleCantripDamage ["1d10"] None 0 tt) ≠ ["1d10"].
Proof. split; discriminate. Qed.

(** Fireball cast with a slot of level 5: 8d6 and twice 1d6. *)
Lemma C4_witness :
  upcastLevels 3 5 ≠ 0 ∧
  partsAfter (_scaleSpellDamage ["8d6"] 3 5 (Some "1d6") tt) = ["10d6"].
Proof.
  destruct (C4_spell_upcast_scaling ["8d6"] 3 5 (Some "1d6") tt)
    as (_ & _ & H & _).
  split; [discriminate|].
  destruct (H ltac:(discriminate)) as [-> _]. vm_compute. reflexivity.
Defined.

(** Like dice are merged; unlike dice are appended to the first part. *)
Lemma C5_witness :
  0 < 2 ∧
  _scaleDamage ["8d6"; "2"] (Some "1d6") 2 tt = ["10d6"; "2"] ∧
  _scaleDamage ["8d6"; "2"] (Some "1d8") 2 tt = ["8d6 + 2d8"; "2"].
Proof.
  split; [lia|]. split.
  - destruct (C5_scale_damage ["8d6"; "2"] (Some "1d6") 2 tt) as (_ & H & _).
    rewrite (H ltac:(lia) (mkDie 2 6 []) (mkDie 8 6 []) [] eq_refl eq_refl
               eq_refl eq_refl).
    vm_compute. reflexivity.
  - destruct (C5_scale_damage ["8d6"; "2"] (Some "1d8") 2 tt)
      as (_ & _ & H & _).
    rewrite (H ltac:(lia)) with (first := "8d6") (rest := ["2"]);
      [vm_compute; reflexivity| |reflexivity].
    intros (s0 & d0 & terms & Hs & Hp & Hf & _).
    vm_compute in Hs. vm_compute in Hp.
    injection Hs as <-. injection Hp as <- _. discriminate Hf.
Defined.

(** The classes of the specification, levels 4 with 1 used and levels 2
    with none used, smallest die first, for three dice: the rogue pays
    its two dice and the fighter the third. *)
Lemma C6_witness :
  (consume_type (item_consume secondWind) = "hitDice" ∧
   consume_target (item_consume secondWind) = Some "smallest" ∧
   consume_amount (item_consume secondWind) = Some 3 ∧
   3 ≤ hitDiceAvailable hero "smallest") ∧
  _handleConsumeResource TestHost.localeCompareNumeric secondWind hero noUpdates =
    Continue
      (mkUsage ∅ ∅
         [mkUpdate "rogue" {[ "system.hitDiceUsed" := VNum 2 ]};
          mkUpdate "fighter" {[ "system.hitDiceUsed" := VNum 2 ]}]).
Proof.
  split; [split_and!; [reflexivity..|vm_compute; discriminate]|].
  destruct (C6_hit_dice_across_classes TestHost.isNumericString
              TestHost.localeCompareNumeric secondWind hero noUpdates "smallest" 3
              eq_refl eq_refl ltac:(discriminate) eq_refl ltac:(lia))
    as (_ & _ & _ & _ & H).
  destruct H as (charged & Hc & _ & Hsum & Hbound & Hgreedy);
    [vm_compute; discriminate|].
  destruct Hgreedy as (Hpos & Hfull & k & Hk).
  { repeat constructor; simpl; lia. }
  change (hitDiceOrder TestHost.localeCompareNumeric "smallest"
            (List.filter (selectsClass "smallest") (actor_classes hero)))
    with [rogue; fighter] in Hk.
  rewrite Hc. clear Hc. do 2 f_equal.
  assert (charged = [(rogue, 2); (fighter, 1)]) as ->; [|reflexivity].
  destruct k as [|[|k]]; simpl in Hk.
  - destruct charged; [simpl in Hsum; lia|discriminate Hk].
  - destruct charged as [|[c1 d1] [|? ?]]; [discriminate Hk| |discriminate Hk].
    injection Hk as ->. apply Forall_inv in Hbound. simpl in *.
    unfold hitDiceLeft in Hbound. simpl in Hbound. lia.
  - rewrite take_nil in Hk. simpl in Hk.
    destruct charged as [|[c1 d1] [|[c2 d2] [|? ?]]]; try discriminate Hk.
    injection Hk as -> ->.
    pose proof (Hfull 0%nat rogue d1 ltac:(simpl; lia) eq_refl) as ->.
    simpl in Hsum. unfold hitDiceLeft in *. simpl in *.
    do 2 f_equal. f_equal. lia.
Defined.

(** The thresholds of the specification: item 19, flag 18, ammunition 20. *)
Lemma C7_witness :
  hasAttack longbow = true ∧ getCriticalThreshold longbow hero = Some (Fin 18).
Proof.
  split; [reflexivity|].
  destruct (C7_critical_threshold_is_minimum longbow hero eq_refl)
    as (r & -> & Hone & Hflag & _).
  simpl in Hflag. do 2 f_equal.
  destruct Hone as [Hr|[Hr|Hr]]; [exact Hr|..];
    vm_compute in Hr; injection Hr as <-; lia.
Defined.

(** A class with an advancement at levels 3 and 5, one without a level and
    a stored entry that is no advancement. *)
Lemma C8_witness :
  ∃ index,
    _prepareAdvancement 20 TestHost.localeCompare "class" stored = Some index ∧
    (∃ data, byLevel index !! 3 = Some data ∧ grant ∈ data) ∧
    (∃ data, byLevel index !! 5 = Some data ∧ grant ∈ data) ∧
    (∀ l data, l ≠ 3 → l ≠ 5 → byLevel index !! l = Some data → grant ∉ data) ∧
    scale ∈ needingConfiguration index ∧
    (∀ l data, byLevel index !! l = Some data → scale ∉ data).
Proof.
  destruct (C8_advancement_level_buckets 20 TestHost.localeCompare "class" stored)
    as (index & Hindex & H).
  { intros a l Ha Hl. apply list_elem_of_In in Ha. simpl in Ha.
    destruct Ha as [[= <-]|[?|[[= <-]|[]]]]; [|done|];
      apply list_elem_of_In in Hl; simpl in Hl; [|done].
    destruct Hl as [<-|[<-|[]]]; vm_compute; split; discriminate. }
  exists index. split; [exact Hindex|].
  destruct (H grant) as [Hgrant _]; [apply list_elem_of_In; simpl; by left|].
  destruct (H scale) as [_ Hscale];
    [apply list_elem_of_In; simpl; right; right; by left|].
  destruct Hgrant as (H3 & H5 & Hother).
  { intros l. rewrite list_elem_of_In. simpl. split.
    - intros [<- | [<- | []]]; [by left|by right].
    - intros [-> | ->]; [by left|right; by left]. }
  destruct (Hscale eq_refl) as [Hneed Hnone].
  split_and!; [exact H3|exact H5|exact Hother|exact Hneed|exact Hnone].
Defined.


(** The slot flag without a level: the potion is used, no pool is read. *)
Lemma C10_witness :
  (consumeSpellSlot slotWithoutLevel = true ∧
   truthyLevel (consumeSpellLevel slotWithoutLevel) = false) ∧
  resolve potion hero slotWithoutLevel = resolve potion hero usageAndQuantity ∧
  ∃ usage, resolve potion hero slotWithoutLevel = Continue usage ∧
           actorUpdates usage = ∅.
Proof.
  split; [split; reflexivity|].
  destruct (C10_slot_step_skipped_without_level TestHost.isNumericString
              TestHost.localeCompareNumeric potion hero slotWithoutLevel
              eq_refl eq_refl) as [H _].
  split; [exact H|]. rewrite H. eexists. split; vm_compute; reflexivity.
Defined.

End Witness.

(** * Further properties *)

(** ** What a successful resolution writes *)

Section ResolverWrites.

Context (isNumericString : string → bool).
Context (localeCompareNumeric : string → string → Z).
Context (this : Item) (actor : Actor) (config : ItemUseConfiguration).

Local Abbreviation resolve :=
  (_getUsageUpdates isNumericString localeCompareNumeric this actor).
Local Abbreviation step1 := (rechargeIf this config).
Local Abbreviation step2 := (resourceIf localeCompareNumeric this actor config).
Local Abbreviation step3 := (slotIf isNumericString actor config).
Local Abbreviation step4 := (usageIf this config).

Lemma getUsageUpdates_steps :
  resolve config = ((step1 noUpdates ≫= step2) ≫= step3) ≫= step4.
Proof.
  unfold _getUsageUpdates, rechargeIf, resourceIf, slotIf, usageIf.
  destruct (if consumeRecharge config then _ else _) as [|u1]; [done|]. simpl.
  destruct (if consumeResource config then _ else _) as [|u2]; [done|]. simpl.
  destruct (if consumeSpellSlot config && _ then _ else _) as [|u3]; [done|].
  simpl. by destruct (if consumeUsage config then _ else _).
Qed.

(** A property of the empty buckets that every step keeps holds of the
    buckets of a successful resolution. *)
Lemma resolve_invariant (P : Usage → Prop) (usage : Usage) :
  P noUpdates →
  (∀ u u', P u → step1 u = Continue u' → P u') →
  (∀ u u', P u → step2 u = Continue u' → P u') →
  (∀ u u', P u → step3 u = Continue u' → P u') →
  (∀ u u', P u → step4 u = Continue u' → P u') →
  resolve config = Continue usage → P usage.
Proof.
  intros H0 H1 H2 H3 H4. rewrite getUsageUpdates_steps.
  destruct (step1 noUpdates) as [|u1] eqn:E1; [done|]. simpl.
  destruct (step2 u1) as [|u2] eqn:E2; [done|]. simpl.
  destruct (step3 u2) as [|u3] eqn:E3; [done|]. simpl.
  destruct (step4 u3) as [|u4] eqn:E4; [done|]. simpl.
  intros [= <-]. eauto.
Qed.

Lemma resolve_chain (usage : Usage) :
  resolve config = Continue usage →
  ∃ u1 u2 u3, step1 noUpdates = Continue u1 ∧ step2 u1 = Continue u2 ∧
              step3 u2 = Continue u3 ∧ step4 u3 = Continue usage.
Proof.
  rewrite getUsageUpdates_steps.
  destruct (step1 noUpdates) as [|u1] eqn:E1; [done|]. simpl.
  destruct (step2 u1) as [|u2] eqn:E2; [done|]. simpl.
  destruct (step3 u2) as [|u3] eqn:E3; [done|]. simpl.
  intros E4. by exists u1, u2, u3.
Qed.

(** The effect of each step on the buckets. *)
Lemma rechargeIf_effect (u u' : Usage) :
  step1 u = Continue u' →
  (consumeRecharge config = false ∧ u' = u) ∨
  (consumeRecharge config = true ∧
   u' = setItemUpdate "system.recharge.charged" (VBool false) u).
Proof.
  unfold rechargeIf, consumeRechargeStep.
  destruct (consumeRecharge config); [|intros [= <-]; by left].
  destruct (recharge_charged _) as [[]|]; intros [= <-]; by right.
Qed.

Lemma slotIf_effect (u u' : Usage) :
  step3 u = Continue u' →
  u' = u ∨ ∃ k n, 0 ≤ n ∧ u' = setActorUpdate k n u.
Proof.
  unfold slotIf, consumeSpellSlotStep.
  destruct (consumeSpellSlot config && _); [|intros [= <-]; by left].
  destruct (consumeSpellLevel config) as [l|]; [|intros [= <-]; by left].
  destruct (slotsAvailable _ _ =? 0); [done|].
  intros [= <-]. right. do 2 eexists. split; [|done]. lia.
Qed.

Lemma usageIf_effect (u u' : Usage) :
  step4 u = Continue u' →
  actorUpdates u' = actorUpdates u ∧ resourceUpdates u' = resourceUpdates u ∧
  ((consumeUsage config = false ∧ u' = u) ∨
   (consumeUsage config = true ∧
    ∃ n, 0 ≤ n ∧ u' = setItemUpdate "system.uses.value" (VNum n) u) ∨
   (consumeUsage config = true ∧ consumeQuantity config = true ∧
    ∃ u0 n m, 0 ≤ m ∧ itemUpdates u0 !! "system.quantity" =
                itemUpdates u !! "system.quantity" ∧
      (∀ k, k ≠ "system.uses.value" → itemUpdates u0 !! k = itemUpdates u !! k) ∧
      u' = setItemUpdate "system.uses.value" (VNum n)
             (setItemUpdate "system.quantity" (VNum m) u0))).
Proof.
  unfold usageIf, consumeUsageStep.
  destruct (consumeUsage config); [|intros [= <-]; auto].
  destruct (1 <=? default 0 _) eqn:Ha; simpl.
  - destruct (consumeQuantity config); simpl.
    + destruct (Z.max _ 0 =? 0) eqn:Hz; simpl.
      * destruct (1 <=? default 1 _) eqn:Hq; intros [= <-]; simpl.
        -- split_and!; [done..|]. right; right. split_and!; [done..|].
           eexists (setItemUpdate "system.uses.value" _ u), _, _.
           split_and!; [|by simpl; rewrite lookup_insert_ne| |done]; [lia|].
           intros k Hk. simpl. by rewrite lookup_insert_ne.
        -- split_and!; [done..|]. right; left. split; [done|].
           eexists. split; [|done]. lia.
      * intros [= <-]. simpl. split_and!; [done..|]. right; left.
        split; [done|]. eexists. split; [|done]. lia.
    + intros [= <-]. simpl. split_and!; [done..|]. right; left.
      split; [done|]. eexists. split; [|done]. lia.
  - destruct (consumeQuantity config); simpl; [|done].
    destruct (1 <=? default 1 _) eqn:Hq; [|done]. intros [= <-]. simpl.
    split_and!; [done..|]. right; right. split_and!; [done..|].
    exists u. do 2 eexists. split_and!; [|done..]. lia.
Qed.

End ResolverWrites.

Section ResolverBuckets.

Context (localeCompareNumeric : string → string → Z).
Context (this : Item) (actor : Actor) (config : ItemUseConfiguration).

(** The resource step leaves the item updates alone and writes at most one
    of: an actor update, one sibling update for the target, the updates of
    the hit dice. *)
Lemma resourceIf_effect (u u' : Usage) :
  resourceIf localeCompareNumeric this actor config u = Continue u' →
  u' = u ∨
  (consumeResource config = true ∧
   ∃ target, consume_target (item_consume this) = Some target ∧
     ((∃ n, 0 ≤ n ∧ u' = setActorUpdate ("system." +:+ target) n u) ∨
      (consume_type (item_consume this) ∈ ["ammo"; "material"] ∧
       ∃ n, 0 ≤ n ∧
         u' = pushResourceUpdates
                [mkUpdate target {[ "system.quantity" := VNum n ]}] u) ∨
      (consume_type (item_consume this) = "charges" ∧
       ∃ fields,
         (fields = ∅ ∨ fields = {[ "system.recharge.charged" := VBool false ]} ∨
          ∃ n, 0 ≤ n ∧ fields = {[ "system.uses.value" := VNum n ]}) ∧
         u' = pushResourceUpdates [mkUpdate target fields] u) ∨
      (consume_type (item_consume this) = "hitDice" ∧
       u' = pushResourceUpdates
              (hitDiceUpdate <$>
                 hitDiceDeltas (default 0 (consume_amount (item_consume this)))
                   (hitDiceOrder localeCompareNumeric target
                      (hitDiceResource actor target))) u))).
Proof.
  unfold resourceIf.
  destruct (consumeResource config); [|intros [= <-]; by left].
  unfold _handleConsumeResource.
  destruct (Js.truthyStr (Some _)); simpl; [|intros [= <-]; by left].
  destruct (consume_target (item_consume this)) as [target|]; [|done].
  destruct (Js.truthyStr (Some target)); simpl; [|done].
  pose proof (consumeKind_inv (consume_type (item_consume this))) as Hk.
  destruct (consumeKind (consume_type (item_consume this))); simpl.
  - destruct (actor_system actor !! target) as [v|]; simpl; [|done].
    destruct (_ - _ <? 0) eqn:Hr; [done|]. intros [= <-].
    right. split; [done|]. exists target. split; [done|]. left.
    eexists. split; [|done]. lia.
  - destruct (actor_items actor !! target) as [r|]; simpl; [|done].
    destruct (_ - _ <? 0) eqn:Hr; [done|]. intros [= <-].
    right. split; [done|]. exists target. split; [done|]. right; left.
    split; [rewrite Hk; set_solver|]. eexists. split; [|done]. lia.
  - destruct (actor_items actor !! target) as [r|]; simpl; [|done].
    destruct (_ - _ <? 0) eqn:Hr; [done|]. intros [= <-].
    right. split; [done|]. exists target. split; [done|]. right; left.
    split; [rewrite Hk; set_solver|]. eexists. split; [|done]. lia.
  - destruct (_ - _ <? 0) eqn:Hr; [done|]. intros [= <-].
    right. split; [done|]. exists target. split; [done|]. do 3 right. done.
  - destruct (actor_items actor !! target) as [r|] eqn:Hm; simpl; [|done].
    destruct (Js.truthyStr (uses_per (item_uses r)) &&
              Js.truthyNum (uses_max (item_uses r))) eqn:Hu; simpl.
    + destruct (_ - _ <? 0) eqn:Hr; [done|]. intros [= <-].
      right. split; [done|]. exists target. split; [done|]. right; right; left.
      split; [done|]. eexists. split; [|done]. right; right.
      eexists. split; [|done]. lia.
    + destruct (Js.truthyNum (recharge_value (item_recharge r))) eqn:Hv; simpl.
      * destruct (_ - _ <? 0) eqn:Hr; [done|]. intros [= <-].
        right. split; [done|]. exists target. split; [done|].
        right; right; left. split; [done|]. eexists. split; [|done]. auto.
      * destruct (_ - _ <? 0) eqn:Hr; [done|]. intros [= <-].
        right. split; [done|]. exists target. split; [done|].
        right; right; left. split; [done|]. eexists. split; [|done]. auto.
  - destruct (_ - _ <? 0) eqn:Hr; [done|]. intros [= <-]. by left.
Qed.

Lemma resourceIf_itemUpdates (u u' : Usage) :
  resourceIf localeCompareNumeric this actor config u = Continue u' →
  itemUpdates u' = itemUpdates u.
Proof.
  intros H. apply resourceIf_effect in H
    as [->|(_ & t & _ & [(n & _ & ->)|[(_ & n & _ & ->)|[(_ & f & _ & ->)|[_ ->]]]])];
    done.
Qed.

End ResolverBuckets.

Lemma NoDup_submseteq_inv {A} (l k : list A) : l ⊆+ k → NoDup k → NoDup l.
Proof.
  intros (k' & Hperm & Hsub)%submseteq_sublist_r Hk.
  rewrite Hperm. by eapply sublist_NoDup.
Qed.

Lemma List_filter_sublist {A} (f : A → bool) (l : list A) :
  List.filter f l `sublist_of` l.
Proof.
  induction l as [|x l IH]; simpl; [done|].
  destruct (f x); [by apply sublist_skip|by apply sublist_cons].
Qed.

Lemma hitDiceDeltas_sublist (resource : list ClassItem) (toConsume : Z) :
  (fst <$> hitDiceDeltas toConsume resource) `sublist_of` resource.
Proof.
  revert toConsume. induction resource as [|cls rest IH]; intros t; simpl; [done|].
  match goal with |- context [if ?b then hitDiceDeltas t rest else _] =>
    destruct b end.
  - by apply sublist_cons.
  - csimpl. apply sublist_skip.
    match goal with |- context [if ?b then [] else _] => destruct b end;
      [apply sublist_nil_l|apply IH].
Qed.

Section ResolverExtras.

Context (isNumericString : string → bool).
Context (localeCompareNumeric : string → string → Z).

Local Abbreviation resolve :=
  (_getUsageUpdates isNumericString localeCompareNumeric).

(** X1. [_getUsageUpdates] returns [false] in the cases of [Unavailable] and
    in no other.  Those are: a recharge is consumed and the item is not
    charged; a resource is consumed, of a type that is not empty, and its
    target is empty, or the attribute or item of the target is not found,
    or what is found is less than the amount asked, [consume.amount ?? 1]
    (the value of the attribute, the quantity of the ammunition or
    material, the hit dice left, the uses of a charges target that counts
    uses; a charges target that recharges is asked to be charged, whatever
    the amount; a charges target that does neither and a type that is none
    of the five kinds count as nothing found, so they refuse exactly when
    the amount asked is positive); a spell slot is consumed for a level
    that counts and the pool holds none; a usage is consumed, no use is
    left and the quantity is not consumed or below 1. *)
Theorem X1_refused_exactly_when_unavailable (this : Item) (actor : Actor)
    (config : ItemUseConfiguration) :
  isRefused (resolve this actor config) ↔
  Unavailable isNumericString this actor config.
Proof.
  split.
  - apply refused_only_when_unavailable.
  - apply resource_unavailable_refuses.
Qed.

(** X2. A successful resolution overdraws nothing: every actor update (the
    attribute left, the slots left) is zero or more, and so are the
    quantity or the uses written to a sibling item and the quantity
    written to the item itself. *)
Theorem X2_updates_never_negative (this : Item) (actor : Actor)
    (config : ItemUseConfiguration) (usage : Usage) :
  resolve this actor config = Continue usage →
  (∀ k n, actorUpdates usage !! k = Some n → 0 ≤ n) ∧
  (∀ upd k n, upd ∈ resourceUpdates usage →
     k = "system.quantity" ∨ k = "system.uses.value" →
     upd_fields upd !! k = Some (VNum n) → 0 ≤ n) ∧
  (∀ n, itemUpdates usage !! "system.quantity" = Some (VNum n) → 0 ≤ n).
Proof.
  apply (resolve_invariant _ _ _ _ _ neverOverdrawn).
  - split_and!; [intros k n|intros upd k n Hin|intros n]; simpl;
      [by rewrite lookup_empty|by apply elem_of_nil in Hin|by rewrite lookup_empty].
  - intros u u' (Ha & Hr & Hi) H.
    apply rechargeIf_effect in H as [[_ ->]|[_ ->]]; [done|].
    split_and!; [done..|]. intros n. simpl. rewrite lookup_insert_ne; [|done].
    apply Hi.
  - intros u u' (Ha & Hr & Hi) H.
    apply resourceIf_effect in H
      as [->|(_ & t & _ & [(n & Hn & ->)|[(_ & n & Hn & ->)
                          |[(_ & f & Hf & ->)|[_ ->]]]])]; [done|..].
    + split_and!; [|done..]. intros k m. simpl.
      destruct (decide ("system." +:+ t = k)) as [->|Hne].
      * rewrite lookup_insert_eq. by intros [= <-].
      * rewrite lookup_insert_ne; [|done]. apply Ha.
    + split_and!; [done| |done]. intros upd k m. simpl.
      rewrite elem_of_app, list_elem_of_singleton. intros [Hin| ->]; [by eapply Hr|].
      simpl. intros [-> | ->].
      * rewrite lookup_singleton_eq. by intros [= <-].
      * by rewrite lookup_singleton_ne.
    + split_and!; [done| |done]. intros upd k m. simpl.
      rewrite elem_of_app, list_elem_of_singleton. intros [Hin| ->]; [by eapply Hr|].
      simpl. destruct Hf as [-> | [-> | (n & Hn & ->)]]; intros [-> | ->];
        rewrite ?lookup_empty, ?lookup_singleton_eq; try done;
        try (by rewrite lookup_singleton_ne).
      by intros [= <-].
    + split_and!; [done| |done]. intros upd k m. simpl.
      rewrite elem_of_app, list_elem_of_fmap. intros [Hin|(cd & -> & _)];
        [by eapply Hr|].
      simpl. intros [-> | ->]; by rewrite lookup_singleton_ne.
  - intros u u' (Ha & Hr & Hi) H.
    apply slotIf_effect in H as [->|(k & n & Hn & ->)]; [done|].
    split_and!; [|done..]. intros k' m. simpl.
    destruct (decide (k = k')) as [->|Hne].
    + rewrite lookup_insert_eq. by intros [= <-].
    + rewrite lookup_insert_ne; [|done]. apply Ha.
  - intros u u' (Ha & Hr & Hi) H.
    apply usageIf_effect in H as (Ea & Er & H).
    split_and!; [by rewrite Ea|by rewrite Er|].
    destruct H as [[_ ->]|[(_ & n & _ & ->)|(_ & _ & u0 & n & m & Hm & _ & _ & ->)]];
      [done|..]; intros q; simpl.
    + rewrite lookup_insert_ne; [|done]. apply Hi.
    + rewrite lookup_insert_ne; [|done]. rewrite lookup_insert_eq.
      by intros [= <-].
Qed.

End ResolverExtras.

Section ResolverExtras2.

Context (isNumericString : string → bool).
Context (localeCompareNumeric : string → string → Z).

Local Abbreviation resolve :=
  (_getUsageUpdates isNumericString localeCompareNumeric).

(** X4. The sibling updates of a successful resolution address the consume
    target, for ammunition, a material or charges, or classes of the actor,
    for hit dice, and nothing else; without [consumeResource] there is
    none.  When the classes have distinct ids no document is addressed
    twice. *)
Theorem X4_sibling_updates_addressed (this : Item) (actor : Actor)
    (config : ItemUseConfiguration) (usage : Usage) :
  resolve this actor config = Continue usage →
  (∀ upd, upd ∈ resourceUpdates usage →
     consumeResource config = true ∧
     ((consume_type (item_consume this) ∈ ["ammo"; "material"; "charges"] ∧
       consume_target (item_consume this) = Some (upd_id upd)) ∨
      (consume_type (item_consume this) = "hitDice" ∧
       ∃ cls, cls ∈ actor_classes actor ∧ cls_id cls = upd_id upd))) ∧
  (NoDup (cls_id <$> actor_classes actor) →
   NoDup (upd_id <$> resourceUpdates usage)).
Proof.
  intros H. apply resolve_chain in H as (u1 & u2 & u3 & H1 & H2 & H3 & H4).
  assert (resourceUpdates u1 = []) as E1.
  { by apply rechargeIf_effect in H1 as [[_ ->]|[_ ->]]. }
  assert (resourceUpdates usage = resourceUpdates u2) as ->.
  { apply usageIf_effect in H4 as (_ & -> & _).
    by apply slotIf_effect in H3 as [->|(k & n & _ & ->)]. }
  clear H1 H3 H4.
  apply resourceIf_effect in H2
    as [->|(Hc & t & Ht & [(n & _ & ->)|[(Hty & n & _ & ->)
                           |[(Hty & f & _ & ->)|[Hty ->]]]])];
    simpl; rewrite E1; simpl.
  - split; [intros upd Hin; by apply elem_of_nil in Hin|constructor].
  - split; [intros upd Hin; by apply elem_of_nil in Hin|constructor].
  - split; [|intros _; apply NoDup_singleton].
    intros upd ->%list_elem_of_singleton. split; [done|]. left. simpl.
    split; [set_solver|done].
  - split; [|intros _; apply NoDup_singleton].
    intros upd ->%list_elem_of_singleton. split; [done|]. left. simpl.
    split; [rewrite Hty; set_solver|done].
  - set (charged := hitDiceDeltas _ _).
    assert ((fst <$> charged) ⊆+ actor_classes actor) as Hsub.
    { etrans; [apply sublist_submseteq, hitDiceDeltas_sublist|].
      etrans; [apply Permutation_submseteq, hitDiceOrder_Permutation|].
      apply sublist_submseteq. rewrite hitDiceResource_selects.
      apply List_filter_sublist. }
    split.
    + intros upd (cd & -> & Hin)%list_elem_of_fmap. split; [done|]. right.
      split; [done|]. exists (fst cd). split; [|done].
      eapply elem_of_submseteq; [|exact Hsub]. apply list_elem_of_fmap. eauto.
    + intros Hnd. rewrite <- list_fmap_compose.
      assert ((upd_id ∘ hitDiceUpdate) <$> charged = cls_id <$> (fst <$> charged))
        as -> by (by rewrite <- list_fmap_compose).
      eapply NoDup_submseteq_inv; [|exact Hnd]. by apply fmap_submseteq.
Qed.

End ResolverExtras2.

(** ** The hit-dice loop *)

(** X5. Spending hit dice is greedy.  For a positive request over classes
    that have not used more dice than they have levels, every update of
    the loop raises [hitDiceUsed], to at most the levels of the class; a
    class is charged all it has left unless it is the last one charged;
    and the classes charged are those with dice left in a first stretch of
    the order, so that no class is charged while one before it has dice
    left. *)
Theorem X5_hit_dice_spent_greedily (resource : list ClassItem) (toConsume : Z) :
  0 < toConsume →
  Forall (λ cls, cls_hitDiceUsed cls ≤ cls_levels cls) resource →
  let charged := hitDiceDeltas toConsume resource in
  Forall (λ cd, cls_hitDiceUsed (fst cd) < cls_hitDiceUsed (fst cd) + snd cd
                ≤ cls_levels (fst cd)) charged ∧
  (∀ i cls delta, (S i < length charged)%nat →
     charged !! i = Some (cls, delta) → delta = hitDiceLeft cls) ∧
  ∃ k, fst <$> charged =
       List.filter (λ cls, 0 <? hitDiceLeft cls) (take k resource).
Proof.
  intros Ht Hwf. revert toConsume Ht.
  induction Hwf as [|cls rest Hcls Hrest IH]; intros t Ht; simpl.
  { split_and!; [constructor|intros i ? ? Hi; simpl in Hi; lia|by exists 0%nat]. }
  assert ((0 <? t) = true) as -> by lia.
  fold (hitDiceLeft cls). assert (0 ≤ hitDiceLeft cls) by (unfold hitDiceLeft; lia).
  destruct (Z.min t (hitDiceLeft cls) =? 0) eqn:Hd.
  - apply Z.eqb_eq in Hd. destruct (IH t Ht) as (Hf & Hfull & k & Hk).
    split_and!; [done..|]. exists (S k). simpl.
    by assert ((0 <? hitDiceLeft cls) = false) as -> by lia.
  - apply Z.eqb_neq in Hd.
    assert ((0 <? hitDiceLeft cls) = true) as Hpos by lia.
    destruct (t - Z.min t (hitDiceLeft cls) =? 0) eqn:Hr.
    + apply Z.eqb_eq in Hr. split_and!.
      * repeat constructor; simpl; unfold hitDiceLeft in *; lia.
      * intros i ? ? Hi. simpl in Hi. lia.
      * exists 1%nat. simpl. by rewrite Hpos.
    + apply Z.eqb_neq in Hr.
      destruct (IH (t - Z.min t (hitDiceLeft cls))) as (Hf & Hfull & k & Hk);
        [lia|].
      split_and!.
      * constructor; [simpl; unfold hitDiceLeft in *; lia|done].
      * intros [|i] c d Hi; simpl.
        -- intros [= <- <-]. lia.
        -- apply Hfull. simpl in Hi. lia.
      * exists (S k). csimpl. rewrite Hpos. by rewrite Hk.
Qed.



Section HitDiceExtras.

Context (localeCompareNumeric : string → string → Z).

Lemma handleConsumeResource_hitDice (this : Item) (actor : Actor) (u : Usage)
    (target : string) :
  consume_type (item_consume this) = "hitDice" →
  consume_target (item_consume this) = Some target →
  target ≠ "" →
  let selected := List.filter (selectsClass target) (actor_classes actor) in
  _handleConsumeResource localeCompareNumeric this actor u =
    if hitDiceAvailable actor target - requestedAmount this <? 0
    then Refuse "DND5E.ConsumeWarningNoQuantity"
    else Continue
           (pushResourceUpdates
              (hitDiceUpdate <$>
                 hitDiceDeltas (default 0 (consume_amount (item_consume this)))
                   (hitDiceOrder localeCompareNumeric target selected)) u).
Proof.
  intros Htype Htarget Hne selected. unfold _handleConsumeResource.
  rewrite Htype, Htarget, (truthyStr_Some target Hne). simpl.
  by rewrite hitDiceQuantity_sum, hitDiceResource_selects.
Qed.


(** X7. A hit-dice resource without an amount asks for one die and spends
    none: the step refuses when no die is left in the selected classes,
    and otherwise continues with the buckets as they were. *)
Theorem X7_hit_dice_without_amount (this : Item) (actor : Actor) (u : Usage)
    (target : string) :
  consume_type (item_consume this) = "hitDice" →
  consume_target (item_consume this) = Some target →
  target ≠ "" →
  consume_amount (item_consume this) = None →
  Forall (λ cls, 0 ≤ cls_hitDiceUsed cls)
    (List.filter (selectsClass target) (actor_classes actor)) →
  _handleConsumeResource localeCompareNumeric this actor u =
    if hitDiceAvailable actor target <? 1
    then Refuse "DND5E.ConsumeWarningNoQuantity"
    else Continue u.
Proof.
  intros Htype Htarget Hne Hamount Hwf.
  rewrite (handleConsumeResource_hitDice _ _ _ target); [|done..].
  unfold requestedAmount. rewrite Hamount. simpl.
  set (selected := List.filter _ _) in *.
  set (order := hitDiceOrder localeCompareNumeric target selected).
  assert (Forall (λ cls, 0 ≤ cls_hitDiceUsed cls) order) as Horder.
  { unfold order. by rewrite hitDiceOrder_Permutation. }
  assert (hitDiceDeltas 0 order = []) as ->.
  { clearbody order. induction Horder as [|cls rest Hcls _ IH]; simpl; [done|].
    by assert ((Z.max 0 (0 - cls_hitDiceUsed cls) =? 0) = true) as -> by lia. }
  destruct (Z.ltb_spec (hitDiceAvailable actor target) 1).
  - by remaining_negative.
  - remaining_enough. f_equal. destruct u. unfold pushResourceUpdates. simpl.
    by rewrite app_nil_r.
Qed.


End HitDiceExtras.

(** ** The ammunition of an attack *)

Section AttackExtras.

Context (isNumericString : string → bool).
Context (localeCompareNumeric : string → string → Z).

Lemma getUsageUpdates_attackOnly (this : Item) (actor : Actor) :
  _getUsageUpdates isNumericString localeCompareNumeric this actor attackOnly =
  _handleConsumeResource localeCompareNumeric this actor noUpdates.
Proof.
  unfold _getUsageUpdates. simpl.
  by destruct (_handleConsumeResource _ _ _ _).
Qed.

(** X9. An attack with an item that consumes ammunition, for an amount of
    one or more (or none given, which asks for one).  The attack is blocked
    exactly when the ammunition has no target, is not among the actor's
    items or is short of the amount.  Otherwise the ammunition item is the
    one kept for the damage roll, the pending update is the one update
    that takes the amount from its quantity, and the critical threshold is
    the item's.  An item that consumes no ammunition is never blocked and
    has no pending update. *)
Theorem X9_attack_ammunition (this : Item) (actor : Actor) :
  hasAttack this = true →
  (consume_type (item_consume this) = "ammo" →
   (∀ amount, consume_amount (item_consume this) = Some amount → 1 ≤ amount) →
   match prepareAttack isNumericString localeCompareNumeric this actor with
   | AttackThrows => False
   | AttackBlocked _ =>
       Js.truthyStr (consume_target (item_consume this)) = false ∨
       ∃ target, consume_target (item_consume this) = Some target ∧
         match actor_items actor !! target with
         | None => True
         | Some ammo => default 0 (item_quantity ammo) < requestedAmount this
         end
   | AttackReady ammo ammoUpdate critical =>
       ∃ target item,
         consume_target (item_consume this) = Some target ∧
         actor_items actor !! target = Some item ∧
         ammo = Some item ∧
         requestedAmount this ≤ default 0 (item_quantity item) ∧
         ammoUpdate =
           [mkUpdate target
              {[ "system.quantity" :=
                   VNum (default 0 (item_quantity item) - requestedAmount this) ]}] ∧
         critical = getCriticalThreshold this actor
   end) ∧
  (consume_type (item_consume this) ≠ "ammo" →
   prepareAttack isNumericString localeCompareNumeric this actor =
     AttackReady None [] (getCriticalThreshold this actor)).
Proof.
  intros Hattack. unfold prepareAttack, attackAmmo. rewrite Hattack. simpl.
  split.
  - intros Htype Hamount. rewrite Htype. simpl.
    rewrite getUsageUpdates_attackOnly. unfold _handleConsumeResource.
    rewrite Htype. simpl.
    destruct (Js.truthyStr (consume_target (item_consume this))) eqn:Htg;
      simpl; [|by left].
    apply truthyStr_inv in Htg as (target & Htg & Hne). rewrite Htg. simpl.
    unfold requestedAmount.
    destruct (actor_items actor !! target) as [item|] eqn:Hitem; simpl;
      [|right; exists target; by rewrite Hitem].
    destruct (_ - _ <? 0) eqn:Hr.
    + right. exists target. rewrite Hitem. split; [done|]. lia.
    + simpl. exists target, item. split_and!; try done; [|lia].
      destruct (consume_amount (item_consume this)) as [amount|] eqn:Ha; simpl in *.
      * specialize (Hamount amount eq_refl).
        destruct (item_quantity item) as [q|]; simpl in *; [|lia].
        assert ((q =? 0) = false) as -> by lia.
        by assert ((0 <=? q - amount) = true) as -> by lia.
      * destruct (item_quantity item) as [q|]; simpl in *; [|lia].
        assert ((q =? 0) = false) as -> by lia.
        by assert ((0 <=? q - 0) = true) as -> by lia.
  - intros Htype. by destruct (String.eqb_spec (consume_type (item_consume this)) "ammo").
Qed.

End AttackExtras.

(** ** The advancement index, exactly *)

Section AdvancementExact.

Context (maxLevel : Z).
Context (localeCompare : string → string → Z).

Lemma List_filter_snoc {A} (f : A → bool) (l : list A) (x : A) :
  List.filter f (l ++ [x]) = List.filter f l ++ (if f x then [x] else []).
Proof. by rewrite List.filter_app. Qed.

Lemma pushLevels_exact (a : Advancement) (levels : list Z)
    (buckets : gmap Z (list Advancement)) :
  Forall (λ l, is_Some (buckets !! l)) levels →
  ∃ buckets', pushLevels a levels buckets = Some buckets' ∧
    ∀ l, buckets' !! l =
         (λ data, data ++ ((λ _, a) <$> List.filter (Z.eqb l) levels))
           <$> buckets !! l.
Proof.
  revert buckets.
  induction levels as [|l0 levels IH]; intros buckets Hin; simpl.
  - exists buckets. split; [done|]. intros l.
    destruct (buckets !! l); simpl; [|done]. by rewrite app_nil_r.
  - apply Forall_cons in Hin as [[data0 Hdata0] Hin]. rewrite Hdata0.
    destruct (IH (<[l0 := data0 ++ [a]]> buckets)) as (b' & Hb' & Hl).
    { eapply Forall_impl; [exact Hin|]. intros l Hsome. simpl in *.
      destruct (decide (l0 = l)) as [->|Hne].
      - rewrite lookup_insert_eq. by eexists.
      - by rewrite lookup_insert_ne. }
    exists b'. split; [done|]. intros l. rewrite Hl.
    destruct (Z.eqb_spec l l0) as [->|Hne].
    + rewrite lookup_insert_eq, Hdata0. csimpl. by rewrite <- app_assoc.
    + by rewrite lookup_insert_ne.
Qed.

Lemma pushLevels_throws (a : Advancement) (levels : list Z)
    (buckets : gmap Z (list Advancement)) (l : Z) :
  l ∈ levels → buckets !! l = None → pushLevels a levels buckets = None.
Proof.
  revert buckets.
  induction levels as [|l0 levels IH]; intros buckets Hin Hl; simpl.
  - by apply elem_of_nil in Hin.
  - destruct (buckets !! l0) as [data0|] eqn:Hdata0; [|done].
    apply elem_of_cons in Hin as [->|Hin]; [congruence|].
    apply IH; [done|]. rewrite lookup_insert_ne; [done|]. congruence.
Qed.

Lemma indexEntry_exact (type : string) (seen : list Advancement)
    (index : AdvancementIndex) (a : Advancement) :
  indexedExactly maxLevel type seen index →
  Forall (λ l, minAdvancementLevel type ≤ l ≤ maxLevel) (adv_levels a) →
  ∃ index', indexEntry index (IsAdvancement a) = Some index' ∧
            indexedExactly maxLevel type (seen ++ [a]) index'.
Proof.
  intros (Hid & Hty & Hlev & Hneed) Hrange. simpl.
  destruct (pushLevels_exact a (adv_levels a) (byLevel index)) as (b' & -> & Hb').
  { eapply Forall_impl; [exact Hrange|]. intros l Hl. simpl.
    rewrite Hlev. by rewrite decide_True. }
  simpl. eexists. split; [done|]. split_and!; simpl.
  - intros i. unfold withId. rewrite List_filter_snoc.
    destruct (String.eqb_spec (adv_id a) i) as [->|Hne].
    + rewrite lookup_insert_eq. by rewrite last_snoc.
    + rewrite lookup_insert_ne; [|done]. rewrite app_nil_r. apply Hid.
  - intros t. unfold ofType. rewrite List_filter_snoc.
    destruct (String.eqb_spec (adv_type a) t) as [->|Hne].
    + rewrite lookup_insert_eq, Hty. unfold ofType.
      destruct (List.filter _ seen) as [|x group]; simpl; [done|].
      by destruct (group ++ [a]) eqn:E; [destruct group|].
    + rewrite lookup_insert_ne; [|done]. rewrite app_nil_r. apply Hty.
  - intros l. rewrite Hb', Hlev. case_decide; [|done]. simpl.
    unfold pushedAt. rewrite bind_app. simpl. by rewrite app_nil_r.
  - unfold withoutLevels. rewrite List_filter_snoc, Hneed.
    destruct (length (adv_levels a) =? 0)%nat; [done|by rewrite app_nil_r].
Qed.

Lemma indexEntries_exact (type : string) (entries : list AdvancementEntry) :
  ∀ (seen : list Advancement) (index : AdvancementIndex),
  indexedExactly maxLevel type seen index →
  levelsInRange maxLevel type entries →
  ∃ index', indexEntries index entries = Some index' ∧
            indexedExactly maxLevel type (seen ++ validAdvancements entries) index'.
Proof.
  unfold levelsInRange, validAdvancements.
  induction entries as [|[a|] rest IH]; intros seen index Hind Hrange; simpl.
  - exists index. by rewrite app_nil_r.
  - simpl in Hrange. apply Forall_cons in Hrange as [Ha Hrange].
    destruct (indexEntry_exact type seen index a Hind Ha) as (index1 & E & Hind1).
    simpl in E. rewrite E. simpl.
    destruct (IH (seen ++ [a]) index1 Hind1 Hrange) as (index' & -> & Hind').
    exists index'. split; [done|]. by rewrite <- app_assoc in Hind'.
  - simpl in *. destruct (IH seen index Hind Hrange) as (index' & -> & Hind').
    by exists index'.
Qed.

Lemma indexEntries_throws (type : string) (entries : list AdvancementEntry) :
  ∀ (seen : list Advancement) (index : AdvancementIndex),
  indexedExactly maxLevel type seen index →
  ¬ levelsInRange maxLevel type entries →
  indexEntries index entries = None.
Proof.
  unfold levelsInRange, validAdvancements.
  induction entries as [|[a|] rest IH]; intros seen index Hind Hrange; simpl.
  - destruct Hrange. constructor.
  - simpl in Hrange.
    destruct (decide (Forall (λ l, minAdvancementLevel type ≤ l ≤ maxLevel)
                        (adv_levels a))) as [Ha|Ha].
    + destruct (indexEntry_exact type seen index a Hind Ha) as (index1 & E & Hind1).
      simpl in E. rewrite E. simpl. apply (IH (seen ++ [a])); [done|].
      intros Hrest. apply Hrange. by constructor.
    + apply not_Forall_Exists in Ha; [|apply _].
      apply Exists_exists in Ha as (l & Hl & Hout).
      destruct Hind as (_ & _ & Hlev & _).
      rewrite (pushLevels_throws a _ _ l); [done..|].
      rewrite Hlev. by rewrite decide_False.
  - simpl in *. by apply (IH seen).
Qed.

Lemma indexedExactly_empty (type : string) :
  indexedExactly maxLevel type [] (mkIndex ∅ (emptyLevels maxLevel type) ∅ []).
Proof.
  split_and!; simpl; [intros i|intros t|intros l|done];
    rewrite ?lookup_empty; [done..|].
  rewrite lookup_emptyLevels. by case_decide.
Qed.

(** The index that is built holds exactly this. *)
Lemma prepareAdvancement_exact (type : string) (entries : list AdvancementEntry) :
  levelsInRange maxLevel type entries →
  ∃ index, _prepareAdvancement maxLevel localeCompare type entries = Some index ∧
    (∀ i, byId index !! i = last (withId i (validAdvancements entries))) ∧
    (∀ t, byType index !! t =
          match ofType t (validAdvancements entries) with
          | [] => None
          | group => Some group
          end) ∧
    (∀ l, byLevel index !! l =
          if decide (minAdvancementLevel type ≤ l ≤ maxLevel)
          then Some (sortLevel localeCompare l
                       (pushedAt l (validAdvancements entries)))
          else None) ∧
    needingConfiguration index = withoutLevels (validAdvancements entries).
Proof.
  intros Hrange. unfold _prepareAdvancement.
  destruct (indexEntries_exact type entries [] _ (indexedExactly_empty type) Hrange)
    as (index & -> & Hid & Hty & Hlev & Hneed).
  simpl in *. eexists. split; [done|]. simpl. split_and!; [done..| |done].
  intros l. rewrite map_lookup_imap, Hlev. by case_decide.
Qed.

(** X10. Building the index throws exactly when a valid advancement has a
    level without a bucket: a level below 0, or below 1 on a class or a
    subclass, or above the maximum level.  Entries that are no advancement
    never make it throw. *)
Theorem X10_index_throws_on_level_out_of_range (type : string)
    (entries : list AdvancementEntry) :
  _prepareAdvancement maxLevel localeCompare type entries = None ↔
  ∃ a l, IsAdvancement a ∈ entries ∧ l ∈ adv_levels a ∧
         ¬ (minAdvancementLevel type ≤ l ≤ maxLevel).
Proof.
  destruct (decide (levelsInRange maxLevel type entries)) as [Hin|Hout].
  - destruct (prepareAdvancement_exact type entries Hin) as (index & -> & _).
    split; [done|]. intros (a & l & Ha & Hl & Hno). exfalso. apply Hno.
    unfold levelsInRange in Hin. rewrite Forall_forall in Hin.
    apply elem_of_validAdvancements in Ha. specialize (Hin a Ha).
    rewrite Forall_forall in Hin. by apply Hin.
  - split.
    + intros _. unfold levelsInRange in Hout.
      apply not_Forall_Exists in Hout; [|apply _].
      apply Exists_exists in Hout as (a & Ha & Hlevels).
      apply not_Forall_Exists in Hlevels; [|apply _].
      apply Exists_exists in Hlevels as (l & Hl & Hno).
      exists a, l. by rewrite <- elem_of_validAdvancements.
    + intros _. unfold _prepareAdvancement.
      by rewrite (indexEntries_throws type entries [] _ (indexedExactly_empty type)).
Qed.

End AdvancementExact.

Section AdvancementExtras.

Context (maxLevel : Z).
Context (localeCompare : string → string → Z).

Lemma prepareAdvancement_built (type : string) (entries : list AdvancementEntry)
    (index : AdvancementIndex) :
  _prepareAdvancement maxLevel localeCompare type entries = Some index →
  (∀ i, byId index !! i = last (withId i (validAdvancements entries))) ∧
  (∀ t, byType index !! t =
        match ofType t (validAdvancements entries) with
        | [] => None
        | group => Some group
        end) ∧
  (∀ l, byLevel index !! l =
        if decide (minAdvancementLevel type ≤ l ≤ maxLevel)
        then Some (sortLevel localeCompare l
                     (pushedAt l (validAdvancements entries)))
        else None) ∧
  needingConfiguration index = withoutLevels (validAdvancements entries).
Proof.
  intros Hbuilt.
  destruct (decide (levelsInRange maxLevel type entries)) as [Hin|Hout].
  - destruct (prepareAdvancement_exact maxLevel localeCompare type entries Hin)
      as (index' & E & H).
    rewrite E in Hbuilt. by injection Hbuilt as <-.
  - unfold _prepareAdvancement in Hbuilt.
    by rewrite (indexEntries_throws maxLevel type entries [] _
                  (indexedExactly_empty maxLevel type)) in Hbuilt.
Qed.

Lemma last_filter_Some {A} (f : A → bool) (l : list A) (x : A) :
  last (List.filter f l) = Some x → x ∈ l ∧ f x = true.
Proof.
  intros Hlast. apply last_Some in Hlast as [l' Hl'].
  assert (In x (List.filter f l)) as Hin by (rewrite Hl'; apply in_elt).
  apply filter_In in Hin as [Hin Hf]. by rewrite list_elem_of_In.
Qed.

(** X11. In the index that is built, [byId] maps an id to the last valid
    advancement stored with it: an advancement stored later with the same
    id replaces the earlier one.  So every value of [byId] is a stored
    advancement with the id of its key, every valid advancement has its id
    among the keys, and an advancement whose id is stored once is the
    value of its id. *)
Theorem X11_byId_last_stored_wins (type : string)
    (entries : list AdvancementEntry) (index : AdvancementIndex) :
  _prepareAdvancement maxLevel localeCompare type entries = Some index →
  (∀ i, byId index !! i = last (withId i (validAdvancements entries))) ∧
  (∀ i a, byId index !! i = Some a →
          IsAdvancement a ∈ entries ∧ adv_id a = i) ∧
  (∀ a, IsAdvancement a ∈ entries → is_Some (byId index !! adv_id a)) ∧
  (∀ a, withId (adv_id a) (validAdvancements entries) = [a] →
        byId index !! adv_id a = Some a).
Proof.
  intros (Hid & _)%prepareAdvancement_built. split_and!; [done|..].
  - intros i a. rewrite Hid. intros [Hin Heq]%last_filter_Some.
    apply elem_of_validAdvancements in Hin. by apply String.eqb_eq in Heq.
  - intros a Ha%elem_of_validAdvancements. rewrite Hid.
    assert (a ∈ withId (adv_id a) (validAdvancements entries)) as Hin.
    { apply list_elem_of_In, filter_In. split; [by apply list_elem_of_In|].
      apply String.eqb_refl. }
    destruct (withId _ _) as [|x l] using rev_ind; [by apply elem_of_nil in Hin|].
    rewrite last_snoc. by eexists.
  - intros a Ha. by rewrite Hid, Ha.
Qed.

(** X12. In the index that is built, [byType] groups the valid
    advancements by type and [needingConfiguration] lists those without a
    level, both in the order in which they are stored; a type of which
    there is no valid advancement is no key of [byType]. *)
Theorem X12_byType_keeps_stored_order (type : string)
    (entries : list AdvancementEntry) (index : AdvancementIndex) :
  _prepareAdvancement maxLevel localeCompare type entries = Some index →
  (∀ t group, byType index !! t = Some group ↔
              group = ofType t (validAdvancements entries) ∧ group ≠ []) ∧
  needingConfiguration index = withoutLevels (validAdvancements entries).
Proof.
  intros (_ & Hty & _ & Hneed)%prepareAdvancement_built. split; [|done].
  intros t group. rewrite Hty.
  destruct (ofType t (validAdvancements entries)) as [|a l].
  - split; [done|]. by intros [-> ?].
  - split; [by intros [= <-]|]. by intros [-> _].
Qed.

(** X13. In the index that is built, the buckets of [byLevel] are the
    levels from the least level of the item's type (1 for a class or a
    subclass, else 0) to the maximum level, and no other.  The bucket of a
    level holds, sorted, each valid advancement once for every time the
    level stands among its levels, so it is a rearrangement of those; and
    when the comparator is a collation the bucket is in the order of the
    sorting values for its level. *)
Theorem X13_byLevel_buckets_sorted (type : string)
    (entries : list AdvancementEntry) (index : AdvancementIndex) :
  _prepareAdvancement maxLevel localeCompare type entries = Some index →
  (∀ l, is_Some (byLevel index !! l) ↔
        minAdvancementLevel type ≤ l ≤ maxLevel) ∧
  (∀ l data, byLevel index !! l = Some data →
     data ≡ₚ pushedAt l (validAdvancements entries) ∧
     (collates localeCompare →
      StronglySorted
        (λ a b, localeCompare (adv_sortingValueForLevel a l)
                  (adv_sortingValueForLevel b l) ≤ 0) data)).
Proof.
  intros (_ & _ & Hlev & _)%prepareAdvancement_built. split.
  - intros l. rewrite Hlev. case_decide as Hl.
    + split; [done|]. by eexists.
    + split; [by intros [? ?]|done].
  - intros l data. rewrite Hlev. case_decide; [|done]. intros [= <-].
    split; [apply sort_Permutation|].
    intros [Hflip Htrans].
    apply (sort_Sorted (λ a b, localeCompare (adv_sortingValueForLevel a l)
                                 (adv_sortingValueForLevel b l))).
    + intros a b.
      destruct (Z.le_ge_cases (localeCompare (adv_sortingValueForLevel a l)
                                 (adv_sortingValueForLevel b l)) 0) as [?|Hge];
        [by left|right]. apply Hflip. lia.
    + intros a b c. apply Htrans.
Qed.

End AdvancementExtras.


(** ** The class level of an update *)

Section PreUpdateExtras.

Context (maxLevel : Z).

(** The three checks, one after the other. *)
Lemma preUpdate_class (levels : Z) (character : option Z) (requested : Z) :
  let clamped := Z.min maxLevel (Z.max 1 requested) in
  _preUpdate maxLevel "class" levels character (Some requested) =
    (Some match character with
          | Some level => Z.min clamped (maxLevel - (level - levels))
          | None => clamped
          end,
     (if requested <=? 0 then ["DND5E.MaxClassLevelMinimumWarn"] else []) ++
     (if maxLevel <? Z.max 1 requested
      then ["DND5E.MaxClassLevelExceededWarn"] else []) ++
     match character with
     | Some level =>
         if maxLevel <? level + (clamped - levels)
         then ["DND5E.MaxCharacterLevelExceededWarn"] else []
     | None => []
     end).
Proof.
  intros clamped. unfold _preUpdate, clamped. simpl.
  destruct (Z.leb_spec requested 0) as [Hr|Hr].
  - assert (Z.max 1 requested = 1) as -> by lia.
    destruct (Z.ltb_spec maxLevel 1) as [Hm|Hm].
    + assert (Z.min maxLevel 1 = maxLevel) as -> by lia.
      destruct character as [level|]; simpl; [|done].
      destruct (Z.ltb_spec maxLevel (level + (maxLevel - levels))); simpl;
        do 2 f_equal; lia.
    + assert (Z.min maxLevel 1 = 1) as -> by lia.
      destruct character as [level|]; simpl; [|done].
      destruct (Z.ltb_spec maxLevel (level + (1 - levels))); simpl;
        do 2 f_equal; lia.
  - assert (Z.max 1 requested = requested) as -> by lia.
    destruct (Z.ltb_spec maxLevel requested) as [Hm|Hm].
    + assert (Z.min maxLevel requested = maxLevel) as -> by lia.
      destruct character as [level|]; simpl; [|done].
      destruct (Z.ltb_spec maxLevel (level + (maxLevel - levels))); simpl;
        do 2 f_equal; lia.
    + assert (Z.min maxLevel requested = requested) as -> by lia.
      destruct character as [level|]; simpl; [|done].
      destruct (Z.ltb_spec maxLevel (level + (requested - levels))); simpl;
        do 2 f_equal; lia.
Qed.

(** X14. The level [_preUpdate] leaves for a class.  Without a character
    it is the requested level brought into the range from 1 to the maximum
    level.  On a character it is the lesser of that and of what the levels
    of the character's other classes leave below the maximum, so that the
    character never passes the maximum level; it is 1 or more when the
    other classes leave a level, and not otherwise.  Any other item, and a
    change without levels, is left as it is without a warning. *)
Theorem X14_class_level_clamped (type : string) (levels : Z)
    (character : option Z) (requested : Z) :
  let clamped := Z.min maxLevel (Z.max 1 requested) in
  (type = "class" →
   fst (_preUpdate maxLevel type levels character (Some requested)) =
     Some match character with
          | Some level => Z.min clamped (maxLevel - (level - levels))
          | None => clamped
          end) ∧
  (type = "class" → 1 ≤ maxLevel →
   ∀ l, fst (_preUpdate maxLevel type levels character (Some requested)) = Some l →
     l ≤ maxLevel ∧
     (character = None → 1 ≤ l) ∧
     (∀ level, character = Some level →
        level + (l - levels) ≤ maxLevel ∧
        (1 ≤ l ↔ level - levels < maxLevel))) ∧
  (type ≠ "class" →
   _preUpdate maxLevel type levels character (Some requested) =
     (Some requested, [])) ∧
  _preUpdate maxLevel type levels character None = (None, []).
Proof.
  intros clamped. split_and!; [| | |done].
  - intros ->. by rewrite preUpdate_class.
  - intros -> Hmax l. rewrite preUpdate_class. simpl. intros [= <-].
    unfold clamped. destruct character as [level|].
    + split_and!; [lia|done|]. intros ? [= <-]. lia.
    + split_and!; [lia|lia|done].
  - intros Hne. unfold _preUpdate.
    by destruct (String.eqb_spec type "class").
Qed.

(** X15. [_preUpdate] warns exactly when it changes the level of a class:
    with a maximum level of 1 or more it shows no warning if and only if
    the requested level lies between 1 and the maximum and the character,
    if there is one, does not pass the maximum level with it.  The level is
    then left as requested; after a warning it differs from the requested
    level, unless that was zero or less. *)
Theorem X15_class_level_warnings (levels : Z) (character : option Z)
    (requested : Z) :
  1 ≤ maxLevel →
  let result := _preUpdate maxLevel "class" levels character (Some requested) in
  (snd result = [] ↔
   1 ≤ requested ≤ maxLevel ∧
   ∀ level, character = Some level → level + (requested - levels) ≤ maxLevel) ∧
  (snd result = [] → fst result = Some requested) ∧
  (snd result ≠ [] → requested ≤ 0 ∨ fst result ≠ Some requested).
Proof.
  intros Hmax result. unfold result. rewrite preUpdate_class. simpl.
  destruct (Z.leb_spec requested 0) as [Hr|Hr]; simpl.
  { split_and!; [split; [done|lia]|done|by left]. }
  destruct (Z.ltb_spec maxLevel (Z.max 1 requested)) as [Hm|Hm]; simpl.
  { split_and!; [split; [done|lia]|done|].
    intros _. right. destruct character; intros [= ?]; lia. }
  assert (Z.min maxLevel (Z.max 1 requested) = requested) as -> by lia.
  destruct character as [level|]; simpl.
  - destruct (Z.ltb_spec maxLevel (level + (requested - levels))) as [Hc|Hc].
    + split_and!; [split; [done|]|done|].
      * intros [_ H]. specialize (H level eq_refl). lia.
      * intros _. right. intros [= ?]. lia.
    + split_and!; [split; [|done]|intros _; f_equal; lia|done].
      intros _. split; [lia|]. by intros ? [= <-].
  - split_and!; [split; [|done]|done|done].
    intros _. split; [lia|done].
Qed.

End PreUpdateExtras.

(** ** The ability of an item *)

Lemma orInt_nonempty (spellcasting : option string) : orInt spellcasting ≠ "".
Proof.
  unfold orInt. destruct spellcasting as [s|]; simpl; [|done].
  by destruct (String.eqb_spec s "").
Qed.

Lemma attackAbility_is_Some (this : Item) (spellcasting : option string) :
  hasAttack this = true → is_Some (attackAbility this spellcasting).
Proof.
  unfold attackAbility, hasAttack. intros H. rewrite H.
  destruct (item_actionType this) as [a|]; [|done]. simpl in H.
  destruct (String.eqb a "mwak"); [by eexists|].
  destruct (String.eqb a "rwak"); [by eexists|].
  destruct (String.eqb a "msak"); [by eexists|].
  destruct (String.eqb a "rsak"); [by eexists|done].
Qed.

Lemma attackAbility_nonempty (this : Item) (spellcasting : option string)
    (s : string) :
  attackAbility this spellcasting = Some s → s ≠ "".
Proof.
  unfold attackAbility. destruct (hasAttack this); [|done].
  destruct (item_actionType this) as [a|]; [|done].
  repeat (match goal with |- context [String.eqb ?x ?y] =>
            destruct (String.eqb x y) end);
    intros [= <-]; try done; apply orInt_nonempty.
Qed.

(** X16. The ability [abilityMod] names.  An ability of the item itself
    comes first.  Without one, an item with no actor (or an actor without
    abilities) has none, while on an actor with abilities a spell, a tool
    and every item with an attack always have one.  A finesse weapon takes
    dexterity when its modifier is at least that of strength and strength
    otherwise, so the greater of the two.  An ability that is named is
    never the empty string. *)
Theorem X16_ability_of_item (this : Item) (data : AbilityData)
    (owner : option ActorAbilities) :
  (Js.truthyStr (system_ability data) = true →
   abilityMod this data owner = system_ability data) ∧
  (Js.truthyStr (system_ability data) = false →
   abilityMod this data None = None) ∧
  (∀ actor, owner = Some actor →
     (hasAttack this = true ∨ item_type this = "spell" ∨ item_type this = "tool") →
     is_Some (abilityMod this data owner)) ∧
  (∀ actor, owner = Some actor →
     Js.truthyStr (system_ability data) = false →
     item_type this = "weapon" → system_fin data = Some true →
     (abilityMod this data owner = Some "dex" ∧ str_mod actor ≤ dex_mod actor) ∨
     (abilityMod this data owner = Some "str" ∧ dex_mod actor < str_mod actor)) ∧
  (∀ s, abilityMod this data owner = Some s → s ≠ "").
Proof.
  unfold abilityMod. split_and!.
  - by intros ->.
  - by intros ->.
  - intros actor -> Hcase.
    destruct (Js.truthyStr (system_ability data)) eqn:Hown.
    { apply truthyStr_inv in Hown as (s & -> & _). by eexists. }
    destruct (String.eqb_spec (item_type this) "consumable") as [Ht|_].
    { destruct Hcase as [Hatt|[Hs|Hs]]; [|congruence..].
      case_bool_decide; [by eexists|by apply attackAbility_is_Some]. }
    destruct (String.eqb_spec (item_type this) "spell") as [_|Hns]; [by eexists|].
    destruct (String.eqb_spec (item_type this) "tool") as [_|Hnt]; [by eexists|].
    destruct Hcase as [Hatt|[Hs|Hs]]; [|done..].
    destruct (String.eqb (item_type this) "weapon");
      [|by apply attackAbility_is_Some].
    case_bool_decide; [by eexists|].
    destruct (match system_weaponType data with Some _ => _ | None => _ end);
      [by eexists|by apply attackAbility_is_Some].
  - intros actor -> -> ->. simpl. intros ->. simpl.
    destruct (Z.leb_spec (str_mod actor) (dex_mod actor)); [by left|by right].
  - intros s.
    destruct (Js.truthyStr (system_ability data)) eqn:Hown.
    { apply truthyStr_inv in Hown as (s' & -> & Hne). by intros [= <-]. }
    destruct owner as [actor|]; [|done].
    repeat (match goal with
            | |- context [String.eqb (item_type this) ?y] =>
                destruct (String.eqb (item_type this) y)
            | |- context [bool_decide ?P] => destruct (bool_decide P)
            end);
      try (apply attackAbility_nonempty);
      try (intros [= <-]; try done; apply orInt_nonempty).
    + destruct (_ <=? _); by intros [= <-].
    + destruct (match system_weaponType data with Some _ => _ | None => _ end);
        [by intros [= <-]|apply attackAbility_nonempty].
Qed.

(** ** The default configuration *)

Section UseDefaultsExtras.

Context (spellUpcastModes : list string).
Context (isNumericString : string → bool).
Context (localeCompareNumeric : string → string → Z).

Local Abbreviation defaults := (defaultConfiguration spellUpcastModes).

(** X17. The defaults of [use] agree with one another.  The slot flag is
    set exactly when the level is one that counts, so by default the slot
    step is never passed over for want of a level, and only for a spell of
    level 1 or more.  The recharge and usage flags together are
    [hasLimitedUses].  An item with an attack leaves its ammunition to the
    attack roll: it does not consume it on use. *)
Theorem X17_default_configuration (this : Item) (data : UseData) :
  consumeSpellSlot (defaults this data) =
    truthyLevel (consumeSpellLevel (defaults this data)) ∧
  (consumeSpellSlot (defaults this data) = true →
   item_type this = "spell" ∧ 0 < item_level this) ∧
  hasLimitedUses this =
    consumeRecharge (defaults this data) || consumeUsage (defaults this data) ∧
  (hasAttack this = true → consume_type (item_consume this) = "ammo" →
   consumeResource (defaults this data) = false).
Proof.
  split_and!; simpl.
  - destruct (requireSpellSlot spellUpcastModes this data) eqn:Hreq; [|done].
    case_bool_decide; [done|]. simpl.
    unfold requireSpellSlot in Hreq.
    apply andb_prop in Hreq as [[_ Hl]%andb_prop _].
    symmetry. apply negb_true_iff, Z.eqb_neq. lia.
  - unfold requireSpellSlot. intros [[Ht Hl]%andb_prop _]%andb_prop.
    apply String.eqb_eq in Ht. split; [done|lia].
  - done.
  - intros -> ->. simpl. apply andb_false_r.
Qed.

(** X18. A use with the default configuration of an item that has no
    limited uses and no consume target.  If no spell slot is required
    nothing is consumed and the use is never refused.  If one is required
    the use is refused exactly when the pool of the item's level, or the
    pact pool in pact mode, is empty, and otherwise the one update takes a
    slot from that pool. *)
Theorem X18_use_with_defaults (this : Item) (actor : Actor) (data : UseData) :
  isNumericString "pact" = false →
  hasLimitedUses this = false →
  Js.truthyStr (consume_target (item_consume this)) = false →
  let pool := if bool_decide (preparation_mode data = Some "pact")
              then "pact" else "spell" +:+ pretty (item_level this) in
  _getUsageUpdates isNumericString localeCompareNumeric this actor
    (defaults this data) =
  if requireSpellSlot spellUpcastModes this data then
    if slotsAvailable actor pool =? 0 then Refuse "DND5E.SpellCastNoSlots"
    else Continue (setActorUpdate ("system." +:+ spellPoolPath pool)
                     (Z.max (slotsAvailable actor pool - 1) 0) noUpdates)
  else Continue noUpdates.
Proof.
  intros Hpact Hlim Htarget pool. unfold hasLimitedUses in Hlim.
  apply orb_false_elim in Hlim as [Hr Hu].
  unfold _getUsageUpdates. simpl. rewrite Hr, Hu, Htarget. simpl.
  destruct (requireSpellSlot spellUpcastModes this data) eqn:Hreq; simpl;
    [|done].
  assert (0 < item_level this) as Hl.
  { unfold requireSpellSlot in Hreq.
    apply andb_prop in Hreq as [[_ Hl]%andb_prop _]. lia. }
  unfold pool. case_bool_decide; simpl.
  - unfold consumeSpellSlotStep. simpl. rewrite Hpact.
    by destruct (slotsAvailable actor "pact" =? 0).
  - assert ((item_level this =? 0) = false) as -> by lia. simpl.
    unfold consumeSpellSlotStep. simpl.
    by destruct (slotsAvailable actor _ =? 0).
Qed.

End UseDefaultsExtras.

(** ** The commit of a use in the store *)

Lemma isEmpty_true {V} (m : gmap string V) : isEmpty m = true → m = ∅.
Proof.
  unfold isEmpty. destruct (map_to_list m) eqn:E; [|done].
  intros _. by apply map_to_list_empty_iff.
Qed.

Lemma applyItemFields_empty (it : Item) : applyItemFields ∅ it = it.
Proof.
  unfold applyItemFields. rewrite !lookup_empty.
  by destruct it as [? ? ? ? ? [] [] ? ?].
Qed.

Lemma commitUsage_store_item (config : ItemUseConfiguration) (usage : Usage)
    (w : Store) :
  store_item (commitUsage config usage w) =
    applyItemFields (itemUpdates usage) (store_item w).
Proof.
  unfold commitUsage.
  destruct (isEmpty (itemUpdates usage)) eqn:He; simpl.
  - apply isEmpty_true in He. rewrite He, applyItemFields_empty.
    repeat (match goal with |- context [if ?b then _ else _] => destruct b end;
            simpl); done.
  - repeat (match goal with |- context [if ?b then _ else _] => destruct b end;
            simpl); done.
Qed.

Lemma commitUsage_store_deleted (config : ItemUseConfiguration) (usage : Usage)
    (w : Store) :
  store_deleted (commitUsage config usage w) =
    store_deleted w ||
    (consumeQuantity config &&
     bool_decide (item_quantity
                    (applyItemFields (itemUpdates usage) (store_item w)) = Some 0)).
Proof.
  unfold commitUsage.
  destruct (isEmpty (itemUpdates usage)) eqn:He.
  - apply isEmpty_true in He. rewrite He, applyItemFields_empty.
    cbn [negb currentItem store_persistence].
    destruct (consumeQuantity config); cbn [andb].
    + case_bool_decide; simpl;
        repeat (match goal with |- context [if ?b then _ else _] => destruct b end;
                simpl); by rewrite ?orb_true_r, ?orb_false_r.
    + repeat (match goal with |- context [if ?b then _ else _] => destruct b end;
              simpl); by rewrite ?orb_false_r.
  - set (it := applyItemFields (itemUpdates usage) (store_item w)).
    cbn [negb currentItem store_persistence itemUpdate store_item].
    fold it.
    destruct (consumeQuantity config); cbn [andb].
    + case_bool_decide; simpl;
        repeat (match goal with |- context [if ?b then _ else _] => destruct b end;
                simpl); by rewrite ?orb_true_r, ?orb_false_r.
    + repeat (match goal with |- context [if ?b then _ else _] => destruct b end;
              simpl); by rewrite ?orb_false_r.
Qed.

Section StoreExtras.

Context (isNumericString : string → bool).
Context (localeCompareNumeric : string → string → Z).

Local Abbreviation resolve :=
  (_getUsageUpdates isNumericString localeCompareNumeric).
Local Abbreviation use :=
  (useConsumption (World := Store) isNumericString localeCompareNumeric).

(** The item updates before the usage step hold the charged flag at most. *)
Lemma before_usage_step (this : Item) (actor : Actor)
    (config : ItemUseConfiguration) (usage : Usage) :
  resolve this actor config = Continue usage →
  ∃ u3, usageIf this config u3 = Continue usage ∧
        itemUpdates u3 =
          if consumeRecharge config
          then {[ "system.recharge.charged" := VBool false ]} else ∅.
Proof.
  intros H. apply resolve_chain in H as (u1 & u2 & u3 & H1 & H2 & H3 & H4).
  exists u3. split; [done|].
  apply resourceIf_itemUpdates in H2.
  assert (itemUpdates u3 = itemUpdates u2) as ->.
  { by apply slotIf_effect in H3 as [->|(k & n & _ & ->)]. }
  rewrite H2.
  apply rechargeIf_effect in H1 as [[-> ->]|[-> ->]]; [done|].
  simpl. by rewrite insert_empty.
Qed.

(** The quantity a successful resolution writes. *)
Lemma getUsageUpdates_quantity (this : Item) (actor : Actor)
    (config : ItemUseConfiguration) (usage : Usage) :
  resolve this actor config = Continue usage →
  itemUpdates usage !! "system.quantity" =
    if consumeUsage config && consumeQuantity config &&
       (default 0 (uses_value (item_uses this)) <=? 1) &&
       (1 <=? default 1 (item_quantity this))
    then Some (VNum (default 1 (item_quantity this) - 1))
    else None.
Proof.
  intros (u3 & H4 & E3)%before_usage_step.
  assert (itemUpdates u3 !! "system.quantity" = None) as Hnone.
  { rewrite E3. destruct (consumeRecharge config); [|by rewrite lookup_empty].
    by rewrite lookup_singleton_ne. }
  clear E3. unfold usageIf, consumeUsageStep in H4.
  destruct (consumeUsage config); simpl; [|by injection H4 as <-].
  set (available := default 0 (uses_value (item_uses this))) in *.
  set (q := default 1 (item_quantity this)) in *.
  destruct (Z.leb_spec 1 available) as [Ha|Ha]; simpl in H4.
  - destruct (consumeQuantity config); simpl in *.
    + destruct (Z.eqb_spec (Z.max (available - 1) 0) 0) as [Hz|Hz]; simpl in H4.
      * assert ((available <=? 1) = true) as -> by lia. simpl.
        destruct (Z.leb_spec 1 q); injection H4 as <-; simpl.
        -- rewrite lookup_insert_ne; [|done]. rewrite lookup_insert_eq.
           do 2 f_equal. lia.
        -- by rewrite lookup_insert_ne.
      * assert ((available <=? 1) = false) as -> by lia. simpl.
        injection H4 as <-. simpl. by rewrite lookup_insert_ne.
    + injection H4 as <-. simpl. by rewrite lookup_insert_ne.
  - assert ((available <=? 1) = true) as -> by lia.
    destruct (consumeQuantity config); simpl in *; [|done].
    destruct (Z.leb_spec 1 q); [|done]. injection H4 as <-; simpl.
    rewrite lookup_insert_ne; [|done]. rewrite lookup_insert_eq.
    do 2 f_equal. lia.
Qed.

(** X19. When a use destroys the item.  In the store, a use deletes the
    item exactly when it is not refused, [consumeQuantity] is set and the
    quantity is zero once the item is updated: either the quantity was
    zero already, or the usage step took the last of a quantity of one
    (the item had at most one use left).  Without [consumeQuantity] no use
    deletes the item. *)
Theorem X19_use_destroys_item (config : ItemUseConfiguration) (w : Store) :
  store_deleted w = false →
  let this := store_item w in
  store_deleted (use config w) = true ↔
  ¬ isRefused (resolve this (store_actor w) config) ∧
  consumeQuantity config = true ∧
  (item_quantity this = Some 0 ∨
   (consumeUsage config = true ∧
    default 0 (uses_value (item_uses this)) ≤ 1 ∧
    default 1 (item_quantity this) = 1)).
Proof.
  intros Hdel this. unfold useConsumption. simpl. fold this.
  destruct (resolve this (store_actor w) config) as [warning|usage] eqn:E.
  { rewrite Hdel. split; [done|]. by intros [[] _]. }
  rewrite commitUsage_store_deleted, Hdel, orb_false_l. fold this.
  pose proof (getUsageUpdates_quantity _ _ _ _ E) as Hq. fold this in Hq.
  assert (item_quantity (applyItemFields (itemUpdates usage) this) =
            match itemUpdates usage !! "system.quantity" with
            | Some (VNum q) => Some q
            | _ => item_quantity this
            end) as -> by done.
  rewrite Hq. clear Hq.
  destruct (consumeQuantity config); simpl; [|split; [done|by intros (_ & ? & _)]].
  rewrite andb_true_r.
  destruct (consumeUsage config); simpl.
  - destruct (Z.leb_spec (default 0 (uses_value (item_uses this))) 1) as [Ha|Ha];
      simpl.
    + destruct (Z.leb_spec 1 (default 1 (item_quantity this))) as [Hq|Hq].
      * rewrite bool_decide_eq_true. split.
        -- intros [= ?]. split_and!; [by intros []|done|]. right.
           split_and!; [done|done|lia].
        -- intros (_ & _ & [H0|(_ & _ & H1)]).
           ++ rewrite H0 in Hq. simpl in Hq. lia.
           ++ f_equal. lia.
      * rewrite bool_decide_eq_true. split.
        -- intros H0. split_and!; [by intros []|done|by left].
        -- intros (_ & _ & [H0|(_ & _ & H1)]); [done|lia].
    + rewrite bool_decide_eq_true. split.
      * intros H0. split_and!; [by intros []|done|by left].
      * intros (_ & _ & [H0|(_ & ? & _)]); [done|lia].
  - rewrite bool_decide_eq_true. split.
    + intros H0. split_and!; [by intros []|done|by left].
    + by intros (_ & _ & [H0|(? & _)]).
Qed.

(** X20. Recharge.  In the store, a use that consumes the recharge and is
    not refused leaves the item not charged, and a second use refuses:
    using twice is using once.  A recharge roll whose total reaches the
    recharge value sets the item charged again, so that the recharge can
    be consumed anew; a lower total changes nothing, and so does any roll
    for an item without a recharge value. *)
Theorem X20_recharge_round_trip (config : ItemUseConfiguration) (w : Store) :
  consumeRecharge config = true →
  (¬ isRefused (resolve (store_item w) (store_actor w) config) →
   recharge_charged (item_recharge (store_item (use config w))) = Some false) ∧
  use config (use config w) = use config w ∧
  ∀ total,
    let w' := rollRecharge total (use config w) in
    let value := recharge_value (item_recharge (store_item w)) in
    if Js.truthyNum value && (default 0 value <=? total)
    then recharge_charged (item_recharge (store_item w')) = Some true ∧
         ¬ isRefused (resolve (store_item w') (store_actor w') rechargeOnly)
    else w' = use config w.
Proof.
  intros Hc.
  assert (∀ usage, resolve (store_item w) (store_actor w) config = Continue usage →
            itemUpdates usage !! "system.recharge.charged" = Some (VBool false))
    as Hflag.
  { intros usage (u3 & H4 & E3)%before_usage_step. rewrite Hc in E3.
    apply usageIf_effect in H4 as (_ & _ & H4).
    destruct H4 as [[_ ->]|[(_ & n & _ & ->)|(_ & _ & u0 & n & m & _ & _ & Hu0 & ->)]];
      simpl.
    - rewrite E3. by rewrite lookup_singleton_eq.
    - rewrite lookup_insert_ne; [|done]. rewrite E3.
      by rewrite lookup_singleton_eq.
    - rewrite !lookup_insert_ne; [|done..]. rewrite Hu0; [|done]. rewrite E3.
      by rewrite lookup_singleton_eq. }
  assert (∀ usage, resolve (store_item w) (store_actor w) config = Continue usage →
            item_recharge (store_item (commitUsage config usage w)) =
              mkRecharge (recharge_value (item_recharge (store_item w)))
                (Some false)) as Hitem.
  { intros usage E. rewrite commitUsage_store_item. unfold applyItemFields.
    simpl. by rewrite (Hflag usage E). }
  split_and!.
  - intros Hok. unfold useConsumption. simpl.
    destruct (resolve (store_item w) (store_actor w) config) as [|usage] eqn:E;
      [by destruct Hok|].
    by rewrite (Hitem usage eq_refl).
  - unfold useConsumption at 2 3. simpl.
    destruct (resolve (store_item w) (store_actor w) config) as [|usage] eqn:E.
    { unfold useConsumption. simpl. by rewrite E. }
    unfold useConsumption. simpl.
    unfold _getUsageUpdates at 1. rewrite Hc. unfold consumeRechargeStep.
    by rewrite (Hitem usage eq_refl).
  - intros total w' value. unfold w', rollRecharge. simpl.
    assert (item_recharge (store_item (use config w)) =
              mkRecharge value (recharge_charged
                                  (item_recharge (store_item (use config w)))))
      as Hvalue.
    { unfold useConsumption. simpl.
      destruct (resolve (store_item w) (store_actor w) config) as [|usage] eqn:E.
      - by destruct (item_recharge (store_item w)).
      - by rewrite (Hitem usage eq_refl). }
    rewrite Hvalue. simpl.
    destruct (Js.truthyNum value); simpl; [|done].
    destruct (default 0 value <=? total); simpl; [|done].
    rewrite Hvalue. simpl. split; [done|].
    unfold _getUsageUpdates, consumeRechargeStep. simpl.
    rewrite Hvalue. simpl. by intros [].
Qed.

End StoreExtras.

(** ** The item updates, key by key *)

Section ItemUpdatesExtras.

Context (isNumericString : string → bool).
Context (localeCompareNumeric : string → string → Z).

Local Abbreviation resolve :=
  (_getUsageUpdates isNumericString localeCompareNumeric).

(** X3. The item updates of a successful resolution, in full.  The charged
    flag is written, as false, exactly when a recharge is consumed.  The
    uses are written exactly when a usage is consumed: they are the uses
    left less one, unless the quantity pays, which it does when it is
    consumed, at most one use is left and the quantity is 1 or more; the
    uses are then set back to the item's [uses.max], or to 1 when that is
    [null], and the quantity is written, one less than it was.  No other
    key is written, and the quantity in no other case. *)
Theorem X3_item_fields_written (this : Item) (actor : Actor)
    (config : ItemUseConfiguration) (usage : Usage) :
  resolve this actor config = Continue usage →
  let available := default 0 (uses_value (item_uses this)) in
  let quantity := default 1 (item_quantity this) in
  let quantityPays :=
    consumeUsage config && consumeQuantity config &&
    (available <=? 1) && (1 <=? quantity) in
  itemUpdates usage !! "system.recharge.charged" =
    (if consumeRecharge config then Some (VBool false) else None) ∧
  itemUpdates usage !! "system.uses.value" =
    (if consumeUsage config
     then Some (VNum (if quantityPays
                      then default 1 (uses_max (item_uses this))
                      else available - 1))
     else None) ∧
  itemUpdates usage !! "system.quantity" =
    (if quantityPays then Some (VNum (quantity - 1)) else None) ∧
  ∀ key, is_Some (itemUpdates usage !! key) →
         key = "system.recharge.charged" ∨ key = "system.uses.value" ∨
         key = "system.quantity".
Proof.
  intros Hresolve available quantity quantityPays.
  pose proof (getUsageUpdates_quantity _ _ _ _ _ _ Hresolve) as Hquantity.
  fold available quantity quantityPays in Hquantity.
  apply before_usage_step in Hresolve as (u3 & H4 & E3).
  assert (∀ key, itemUpdates u3 !! key =
                 if decide (key = "system.recharge.charged")
                 then if consumeRecharge config then Some (VBool false) else None
                 else None) as Hu3.
  { intros key. rewrite E3. case_decide as Hk.
    - subst key. destruct (consumeRecharge config); [|done].
      by rewrite lookup_singleton_eq.
    - destruct (consumeRecharge config); [|done].
      by rewrite lookup_singleton_ne. }
  clear E3. unfold usageIf, consumeUsageStep in H4.
  fold available quantity in H4. unfold quantityPays in *.
  destruct (consumeUsage config); simpl in *.
  2: { injection H4 as <-. split_and!; [by rewrite Hu3|by rewrite Hu3|done|].
       intros key [v Hv]. rewrite Hu3 in Hv. case_decide; [by left|done]. }
  assert (∀ (m : gmap string JsVal) key v,
            (∀ key, is_Some (m !! key) →
                    key = "system.recharge.charged" ∨ key = "system.uses.value" ∨
                    key = "system.quantity") →
            is_Some (<["system.uses.value" := v]> m !! key) →
            key = "system.recharge.charged" ∨ key = "system.uses.value" ∨
            key = "system.quantity") as Huses.
  { intros m key v Hm. destruct (decide (key = "system.uses.value")) as [->|Hne];
      [auto|]. rewrite lookup_insert_ne by done. apply Hm. }
  assert (∀ key, is_Some (itemUpdates u3 !! key) →
                 key = "system.recharge.charged" ∨ key = "system.uses.value" ∨
                 key = "system.quantity") as Hkeys3.
  { intros key [v Hv]. rewrite Hu3 in Hv. case_decide; [by left|done]. }
  destruct (Z.leb_spec 1 available) as [Ha|Ha]; simpl in H4.
  - destruct (consumeQuantity config); simpl in *.
    + destruct (Z.eqb_spec (Z.max (available - 1) 0) 0) as [Hz|Hz]; simpl in H4.
      * assert ((available <=? 1) = true) as Hle by lia. rewrite Hle in *.
        simpl in *.
        destruct (Z.leb_spec 1 quantity); injection H4 as <-; simpl.
        -- split_and!; [by rewrite !lookup_insert_ne, Hu3 by done
                       |by rewrite lookup_insert_eq|done|].
           intros key Hkey. apply Huses in Hkey; [done|].
           intros key' Hkey'.
           destruct (decide (key' = "system.quantity")) as [->|Hne]; [auto|].
           rewrite lookup_insert_ne in Hkey' by done.
           by apply Huses in Hkey'.
        -- split_and!; [by rewrite !lookup_insert_ne, Hu3 by done
                       |rewrite lookup_insert_eq; do 2 f_equal; lia|done|].
           intros key Hkey. by apply Huses in Hkey.
      * assert ((available <=? 1) = false) as Hle by lia. rewrite Hle in *.
        simpl in *. injection H4 as <-. simpl.
        split_and!; [by rewrite !lookup_insert_ne, Hu3 by done
                    |rewrite lookup_insert_eq; do 2 f_equal; lia|done|].
        intros key Hkey. by apply Huses in Hkey.
    + injection H4 as <-. simpl.
      split_and!; [by rewrite !lookup_insert_ne, Hu3 by done
                  |rewrite lookup_insert_eq; do 2 f_equal; lia|done|].
      intros key Hkey. by apply Huses in Hkey.
  - assert ((available <=? 1) = true) as Hle by lia. rewrite Hle in *.
    destruct (consumeQuantity config); simpl in *; [|done].
    destruct (Z.leb_spec 1 quantity); [|done]. injection H4 as <-. simpl.
    split_and!; [by rewrite !lookup_insert_ne, Hu3 by done
                |by rewrite lookup_insert_eq|done|].
    intros key Hkey. apply Huses in Hkey; [done|].
    intros key' Hkey'.
    destruct (decide (key' = "system.quantity")) as [->|Hne]; [auto|].
    rewrite lookup_insert_ne in Hkey' by done. by apply Hkeys3.
Qed.

End ItemUpdatesExtras.

(** ** The migration of spell data *)

(** X21. The migration of spell data keeps of the components exactly the
    entries whose value is a boolean, with their values; it leaves the
    scaling mode neither [null] nor empty, turning both into ["none"] and
    keeping every other mode, a missing mode included; and migrating
    migrated data changes nothing. *)
Theorem X21_spell_migration (source : SpellSource) :
  (∀ components,
     source_components source = Some components →
     ∃ migrated,
       source_components (migrateData source) = Some migrated ∧
       ∀ key value, migrated !! key = Some value ↔
                    components !! key = Some value ∧ ∃ b, value = SBoolean b) ∧
  (source_components source = None →
   source_components (migrateData source) = None) ∧
  source_scaling_mode (migrateData source) ≠ Some Null ∧
  source_scaling_mode (migrateData source) ≠ Some (Defined "") ∧
  (∀ mode,
     source_scaling_mode source = Some (Defined mode) → mode ≠ "" →
     source_scaling_mode (migrateData source) = Some (Defined mode)) ∧
  (source_scaling_mode source = Some Null ∨
   source_scaling_mode source = Some (Defined "") →
   source_scaling_mode (migrateData source) = Some (Defined "none")) ∧
  (source_scaling_mode source = Some Undefined ∨ source_scaling_mode source = None →
   source_scaling_mode (migrateData source) = source_scaling_mode source) ∧
  migrateData (migrateData source) = migrateData source.
Proof.
  destruct source as [components mode]. unfold migrateData. simpl.
  split_and!.
  - intros c [= ->]. eexists. split; [done|]. intros key value.
    rewrite map_lookup_filter_Some. simpl. split.
    + intros [Hk Hb]. split; [done|]. destruct value; try done. by eexists.
    + by intros [Hk [b ->]].
  - by intros ->.
  - destruct mode as [[| |m]|]; try done.
  - destruct mode as [[| |m]|]; try done. simpl.
    destruct (String.eqb_spec m ""); [done|]. by intros [= ?].
  - intros m -> Hne. simpl. by destruct (String.eqb_spec m "").
  - by intros [-> | ->].
  - by intros [-> | ->].
  - unfold migrateScaling, migrateComponentData. simpl. f_equal.
    + destruct components as [c|]; simpl; [|done]. f_equal.
      apply map_eq. intros key. apply option_eq. intros value.
      rewrite !map_lookup_filter_Some. naive_solver.
    + destruct mode as [[| |m]|]; try done. simpl.
      destruct (String.eqb_spec m ""); [done|].
      by destruct (String.eqb_spec m "").
Qed.

(** ** The defaults of a created item *)

Ltac creation_lookups :=
  intros ? ?; unfold dataProperty;
  rewrite ?lookup_insert_Some, ?lookup_singleton_Some, ?lookup_empty;
  intros; repeat (destruct_or! || destruct_and!); simplify_eq; simpl; auto.

(** X22. The defaults of an item created on an actor never override the
    creation data: every update is for a property that the data leaves
    undefined.  On an NPC whatever is set is set to true, or to 1 for the
    proficiency of a tool; on any other actor new equipment is not
    equipped and a new spell is not prepared unless the data says so, and
    a weapon gets no update but its proficiency. *)
Theorem X22_creation_defaults (this : ProficiencyData) (type : string)
    (data : CreationData) (isNPC : bool) (updates : gmap string JsVal) :
  ownedCreationUpdates this type data isNPC = Some updates →
  (∀ key value, updates !! key = Some value →
                isUndefined (dataProperty data key) = true) ∧
  (isNPC = true →
   ∀ key value, updates !! key = Some value →
                value = VBool true ∨ value = VNum 1) ∧
  (isNPC = false →
   ∀ key value, updates !! key = Some value →
                key = "system.proficient" ∨ value = VBool false) ∧
  (isNPC = false → type = "weapon" →
   ∀ key, is_Some (updates !! key) → key = "system.proficient").
Proof.
  unfold ownedCreationUpdates.
  destruct (String.eqb_spec type "equipment") as [->|_].
  { intros [= <-]. unfold _onCreateOwnedEquipment.
    destruct (isUndefined (data_equipped data)) eqn:He,
             (isUndefined (data_proficient data)) eqn:Hp, isNPC;
      (split_and!; [|intros ?..]; try done; try creation_lookups). }
  destruct (String.eqb_spec type "spell") as [->|_].
  { intros [= <-]. unfold _onCreateOwnedSpell.
    destruct (isUndefined (data_prepared data)) eqn:He, isNPC;
      (split_and!; [|intros ?..]; try done; try creation_lookups). }
  destruct (String.eqb_spec type "tool") as [->|_].
  { intros [= <-]. unfold _onCreateOwnedTool.
    destruct (isUndefined (data_proficient data)) eqn:Hp, isNPC;
      (split_and!; [|intros ?..]; try done; try creation_lookups). }
  destruct (String.eqb_spec type "weapon") as [->|_]; [|done].
  intros [= <-]. unfold _onCreateOwnedWeapon.
  destruct isNPC.
  - destruct (data_equipped data) eqn:He, (data_proficient data) eqn:Hp; simpl;
      (split_and!; [|intros ?..]; try done; try creation_lookups);
      by rewrite ?He, ?Hp.
  - destruct (isUndefined (data_proficient data)) eqn:Hp; simpl;
      [destruct (isAlways (mapEntry this))|];
      (split_and!; [| |intros _|intros _ _ key [value Hv]; revert key value Hv];
       try done; try creation_lookups).
Qed.

(** ** Activation, target and range *)

Lemma backwardsCompatible_spec (x : option string) :
  backwardsCompatible x ≠ Some "none" ∧ backwardsCompatible x ≠ Some "" ∧
  (backwardsCompatible x = None ↔ x = None ∨ x = Some "none" ∨ x = Some "") ∧
  (∀ s, backwardsCompatible x = Some s → x = Some s) ∧
  backwardsCompatible (backwardsCompatible x) = backwardsCompatible x.
Proof.
  unfold backwardsCompatible, Js.includes. destruct x as [s|]; simpl.
  - destruct (String.eqb_spec s "none") as [->|Hn]; simpl.
    { split_and!; try done. split; [auto|done]. }
    destruct (String.eqb_spec s "") as [->|He]; simpl.
    { split_and!; try done. split; [auto|done]. }
    split_and!; try congruence.
    + split; [done|]. intros [?|[?|?]]; congruence.
    + destruct (String.eqb_spec s "none"); [done|].
      by destruct (String.eqb_spec s "").
  - split_and!; try done. split; auto.
Qed.

Section ActivationExtras.

Context (abilityActivationTypes distanceUnits targetTypes : string → option string).
Context (localize : string → string).

Local Abbreviation prepare :=
  (_prepareActivation abilityActivationTypes distanceUnits targetTypes localize).

Lemma prepareTarget_idemp (tgt : Target) :
  prepareTarget (prepareTarget tgt) = prepareTarget tgt.
Proof.
  destruct tgt as [type value units].
  destruct (backwardsCompatible_spec type) as (_ & _ & _ & _ & Hi).
  unfold prepareTarget. simpl.
  destruct (decide (backwardsCompatible type = None ∨
                    backwardsCompatible type = Some "self")) as [Ht|Ht].
  { rewrite (bool_decide_eq_true_2 _ Ht). simpl. rewrite Hi.
    by rewrite (bool_decide_eq_true_2 _ Ht). }
  rewrite (bool_decide_eq_false_2 _ Ht).
  destruct (decide (units = Some "touch")) as [Hu|Hu].
  - rewrite (bool_decide_eq_true_2 _ Hu). simpl. rewrite Hi.
    by rewrite (bool_decide_eq_false_2 _ Ht), (bool_decide_eq_true_2 _ Hu).
  - rewrite (bool_decide_eq_false_2 _ Hu). simpl. rewrite Hi.
    by rewrite (bool_decide_eq_false_2 _ Ht), (bool_decide_eq_false_2 _ Hu).
Qed.

Lemma prepareRange_idemp (rng : Range) :
  prepareRange (prepareRange rng) = prepareRange rng.
Proof.
  destruct rng as [units value long].
  destruct (backwardsCompatible_spec units) as (_ & _ & _ & _ & Hi).
  unfold prepareRange. simpl.
  destruct (decide (backwardsCompatible units = None ∨
                    backwardsCompatible units = Some "touch" ∨
                    backwardsCompatible units = Some "self")) as [Hu|Hu].
  - rewrite (bool_decide_eq_true_2 _ Hu). simpl. rewrite Hi.
    by rewrite (bool_decide_eq_true_2 _ Hu).
  - rewrite (bool_decide_eq_false_2 _ Hu). simpl. rewrite Hi.
    by rewrite (bool_decide_eq_false_2 _ Hu).
Qed.

(** X23. [_prepareActivation] normalises the data once and for all:
    preparing prepared data changes neither the data nor the labels.
    Afterwards no activation type, target type or range unit is ["none"]
    or empty, since those become [null]; a target without a type or of
    type self has neither value nor units, and one with touch units has no
    value; a range without units, or with touch or self units, has neither
    value nor long range.  The target label is empty for a target whose
    type was [null], ["none"] or empty. *)
Theorem X23_activation_normalised (system : ActivationData) :
  let result := prepare system in
  prepare (fst result) = result ∧
  (∀ act, system_activation (fst result) = Some act →
     activation_type act ≠ Some "none" ∧ activation_type act ≠ Some "") ∧
  (∀ tgt, system_target (fst result) = Some tgt →
     target_type tgt ≠ Some "none" ∧ target_type tgt ≠ Some "" ∧
     (target_type tgt = None ∨ target_type tgt = Some "self" →
      target_value tgt = None ∧ target_units tgt = None) ∧
     (target_units tgt = Some "touch" → target_value tgt = None)) ∧
  (∀ rng, system_range (fst result) = Some rng →
     range_units rng ≠ Some "none" ∧ range_units rng ≠ Some "" ∧
     (range_units rng = None ∨ range_units rng = Some "touch" ∨
      range_units rng = Some "self" →
      range_value rng = None ∧ range_long rng = None)) ∧
  (∀ tgt, system_target system = Some tgt →
     target_type tgt = None ∨ target_type tgt = Some "none" ∨
     target_type tgt = Some "" →
     labels_target (snd result) = "").
Proof.
  destruct system as [act tgt rng chg]. simpl. split_and!.
  - unfold _prepareActivation. simpl. f_equal.
    + f_equal.
      * destruct act as [[type cost]|]; simpl; [|done].
        unfold prepareActivationType. simpl.
        by destruct (backwardsCompatible_spec type) as (_ & _ & _ & _ & ->).
      * destruct tgt as [tgt|]; simpl; [|done]. by rewrite prepareTarget_idemp.
      * destruct rng as [rng|]; simpl; [|done]. by rewrite prepareRange_idemp.
    + f_equal.
      * destruct act as [[type cost]|]; simpl; [|done].
        unfold prepareActivationType. simpl.
        by destruct (backwardsCompatible_spec type) as (_ & _ & _ & _ & ->).
      * destruct tgt as [tgt|]; simpl; [|done]. by rewrite prepareTarget_idemp.
      * destruct rng as [rng|]; simpl; [|done]. by rewrite prepareRange_idemp.
  - intros a. destruct act as [[type cost]|]; simpl; [|done]. intros [= <-].
    simpl. by destruct (backwardsCompatible_spec type) as (? & ? & _).
  - intros t. destruct tgt as [[type value units]|]; simpl; [|done].
    intros [= <-]. unfold prepareTarget. simpl.
    destruct (backwardsCompatible_spec type) as (Hn & He & _).
    repeat (case_bool_decide; simpl); split_and!; try done; naive_solver.
  - intros r. destruct rng as [[units value long]|]; simpl; [|done].
    intros [= <-]. unfold prepareRange. simpl.
    destruct (backwardsCompatible_spec units) as (Hn & He & _).
    repeat (case_bool_decide; simpl); split_and!; try done; naive_solver.
  - intros t -> Htype.
    destruct (backwardsCompatible_spec (target_type t)) as (_ & _ & Hnone & _).
    apply Hnone in Htype. simpl. unfold prepareTarget. rewrite Htype.
    by rewrite bool_decide_eq_true_2 by (by left).
Qed.

End ActivationExtras.

(** ** The parts of a damage roll *)

Section RollDamageExtras.

Context {RollData : Type} `{!RollHost RollData}.
Context (setItemLevel : Z → RollData → RollData).
Context (setAmmo : string → RollData → RollData).
Context (parseInt : string → option Z).

Lemma scaleDamage_first (first : string) (rest : list string)
    (scaling : option string) (times : Z) (rollData : RollData) :
  ∃ scaled, _scaleDamage (first :: rest) scaling times rollData = scaled :: rest.
Proof.
  unfold _scaleDamage. destruct (times <=? 0); [by eexists|].
  destruct (rollAlter _ _) as [|[s0|] [|]]; try (by eexists).
  destruct (rollTerms _ _) as [|[d0|] p0rest]; try (by eexists).
  destruct (_ && _); by eexists.
Qed.

Lemma scaleSpellParts_first (this : Item) (dmg : DamageData)
    (actor : DamageActor) (spellLevel : option Z) (first : string)
    (rest : list string) (rollData : RollData) :
  ∃ scaled,
    scaleSpellParts this dmg actor spellLevel (first :: rest) rollData =
      scaled :: rest ∧
    (item_type this ≠ "spell" → scaled = first) ∧
    (scaling_mode dmg = Some "cantrip" →
     cantripAdd (cantripLevel dmg actor) = 0 → scaled = first) ∧
    (scaling_mode dmg ≠ Some "cantrip" →
     default 0 spellLevel ≤ item_level this → scaled = first).
Proof.
  unfold scaleSpellParts.
  destruct (String.eqb_spec (item_type this) "spell") as [Hs|Hs];
    [|by exists first].
  case_bool_decide as Hc.
  - unfold _scaleCantripDamage.
    destruct (Z.eqb_spec (cantripAdd (cantripLevel dmg actor)) 0) as [Ha|Ha];
      cbn [partsAfter].
    + by exists first.
    + destruct (scaleDamage_first first rest
                  (if Js.truthyStr (scaling_formula dmg)
                   then scaling_formula dmg
                   else Some (Js.join " + " (first :: rest)))
                  (cantripAdd (cantripLevel dmg actor)) rollData) as [scaled E].
      exists scaled. by rewrite E.
  - destruct (_ && _ && _); [|by exists first].
    unfold _scaleSpellDamage, upcastLevels.
    destruct (Z.eqb_spec (Z.max (default 0 spellLevel - item_level this) 0) 0)
      as [Hu|Hu]; cbn [partsAfter].
    + by exists first.
    + destruct (scaleDamage_first first rest (scaling_formula dmg)
                  (Z.max (default 0 spellLevel - item_level this) 0) rollData)
        as [scaled E].
      exists scaled. rewrite E. split_and!; [done..|]. intros _ Hle. lia.
Qed.

(** X26. The parts of a damage roll.  The roll throws exactly for an item
    without damage parts.  Otherwise its parts are the item's damage
    formulas with only the first one replaced, then the actor's damage
    bonus if it has one that does not parse to zero, then ["@ammo"] if the
    ammunition kept by the attack is a consumable of type ammo, then the
    parts of the options, in this order.  The first part is the versatile
    formula, if asked for and present, or else the first damage formula,
    as it stands for an item that is no spell, for a cantrip whose
    add-count is zero and for another spell that is not cast above its
    level; no other part is ever scaled. *)
Theorem X26_damage_roll_parts (this : Item) (dmg : DamageData)
    (actor : DamageActor) (ammo : option Ammunition)
    (config : DamageRollConfiguration) (rollData : RollData) :
  let roll := rollDamage setItemLevel setAmmo parseInt this dmg actor ammo
                config rollData in
  (roll = None ↔ damage_parts dmg = []) ∧
  ∀ parts data, roll = Some (parts, data) →
    ∃ first,
      parts =
        first :: tail (damage_parts dmg) ++
        (if hasBonusDamage parseInt actor
         then [default "" (bonuses_damage actor)] else []) ++
        (if addsAmmunition ammo then ["@ammo"] else []) ++
        options_parts config ∧
      let unscaled :=
        if damage_versatile_roll config && Js.truthyStr (damage_versatile dmg)
        then default "" (damage_versatile dmg)
        else default "" (head (damage_parts dmg)) in
      (item_type this ≠ "spell" → first = unscaled) ∧
      (scaling_mode dmg = Some "cantrip" →
       cantripAdd (cantripLevel dmg actor) = 0 → first = unscaled) ∧
      (scaling_mode dmg ≠ Some "cantrip" →
       default 0 (damage_spellLevel config) ≤ item_level this →
       first = unscaled).
Proof.
  unfold rollDamage.
  destruct (damage_parts dmg) as [|p rest] eqn:Hparts; cbv beta iota zeta.
  { split; [done|]. by intros. }
  split; [split; [by destruct (addsAmmunition ammo)|done]|]. intros parts data.
  set (unscaled := if damage_versatile_roll config &&
                      Js.truthyStr (damage_versatile dmg)
                   then default "" (damage_versatile dmg) else p).
  assert ((if damage_versatile_roll config && Js.truthyStr (damage_versatile dmg)
           then setFirst (default "" (damage_versatile dmg)) (p :: rest)
           else p :: rest) = unscaled :: rest) as ->.
  { unfold unscaled. by destruct (_ && _). }
  destruct (scaleSpellParts_first this dmg actor (damage_spellLevel config)
              unscaled rest
              (if Js.truthyNum (damage_spellLevel config)
               then setItemLevel (default 0 (damage_spellLevel config)) rollData
               else rollData)) as (first & -> & Hfirst).
  intros Hroll. exists first. split; [|done].
  destruct (hasBonusDamage parseInt actor), (addsAmmunition ammo);
    injection Hroll as <- _; simpl; by rewrite <- ?app_assoc.
Qed.

End RollDamageExtras.

(** ** References in a formula *)

Lemma string_app_cons (c : ascii) (x y : string) :
  String c x +:+ y = String c (x +:+ y).
Proof. reflexivity. Qed.

Lemma string_app_nil_r (x : string) : x +:+ "" = x.
Proof.
  induction x as [|c x IH]; [done|]. by rewrite string_app_cons, IH.
Qed.

Lemma string_app_assoc (x y z : string) : (x +:+ y) +:+ z = x +:+ (y +:+ z).
Proof.
  induction x as [|c x IH]; [done|]. by rewrite !string_app_cons, IH.
Qed.

Lemma concat_empty_cons (x : string) (l : list string) :
  String.concat "" (x :: l) = x +:+ String.concat "" l.
Proof. destruct l as [|y l]; simpl; [|done]. by rewrite string_app_nil_r. Qed.

Lemma concat_empty_app (l k : list string) :
  String.concat "" (l ++ k) = String.concat "" l +:+ String.concat "" k.
Proof.
  induction l as [|x l IH]; [done|].
  by rewrite <- app_comm_cons, !concat_empty_cons, IH, string_app_assoc.
Qed.

Lemma scan_without_reference (formula : string) :
  occurs "@" formula = false →
  scan None formula = Literal <$> String.list_ascii_of_string formula.
Proof.
  induction formula as [|c rest IH]; simpl; [done|].
  intros [Hc Hrest]%orb_false_elim. rewrite Hc. csimpl. by rewrite IH.
Qed.

Lemma scan_separator (current : option string) (a b : string) (c : ascii) :
  isTermChar c = false → c ≠ "@"%char →
  scan current (a +:+ String c b) =
    scan current a ++ Literal c :: scan None b.
Proof.
  intros Hterm Hat. revert current.
  induction a as [|x a IH]; intros current.
  - change ("" +:+ String c b) with (String c b). simpl.
    rewrite Hterm. destruct (Ascii.eqb_spec c "@"); [done|].
    by destruct current.
  - rewrite string_app_cons. simpl. destruct current as [term|].
    + destruct (isTermChar x); [apply IH|].
      rewrite <- app_assoc. f_equal.
      destruct (Ascii.eqb x "@"); [apply IH|]. simpl. f_equal. apply IH.
    + destruct (Ascii.eqb x "@"); [apply IH|]. simpl. f_equal. apply IH.
Qed.

Lemma addOnce_spec (l seen : list string) :
  NoDup seen →
  NoDup (foldl addOnce seen l) ∧
  ∀ x, x ∈ foldl addOnce seen l ↔ x ∈ seen ∨ x ∈ l.
Proof.
  revert seen. induction l as [|y l IH]; intros seen Hnd; simpl.
  { split; [done|]. intros x. rewrite elem_of_nil. naive_solver. }
  unfold addOnce at 2 4. case_bool_decide as Hy.
  - destruct (IH seen Hnd) as [Hn He]. split; [done|].
    intros x. rewrite He, elem_of_cons. naive_solver.
  - destruct (IH (seen ++ [y])) as [Hn He].
    { apply NoDup_app. split_and!; [done| |apply NoDup_singleton].
      intros x Hx ->%list_elem_of_singleton. done. }
    split; [done|]. intros x.
    rewrite He, elem_of_app, list_elem_of_singleton, elem_of_cons. naive_solver.
Qed.

Section FormulaExtras.

Context (getProperty : string → option string).

Local Abbreviation replace := (replaceFormulaData getProperty).

(** X24. References in a formula.  A formula without ["@"] is returned as
    it is, without a warning.  A warning is pushed exactly when the item
    has an actor and some match of the formula has no value in the data;
    it lists each such match once, and nothing else.  A character that
    cannot be part of a match splits the work: the formula is replaced on
    either side of it independently. *)
Theorem X24_formula_references (hasActor : bool) (formula : string) :
  (occurs "@" formula = false → replace hasActor formula = (formula, None)) ∧
  (snd (replace hasActor formula) = None ↔
   hasActor = false ∨
   ∀ term, Reference term ∈ scan None formula → is_Some (getProperty term)) ∧
  (∀ references, snd (replace hasActor formula) = Some references →
     NoDup references ∧
     ∀ r, r ∈ references ↔
          ∃ term, r = "@" +:+ term ∧ Reference term ∈ scan None formula ∧
                  getProperty term = None) ∧
  (∀ a b c, formula = a +:+ String c b → isTermChar c = false → c ≠ "@"%char →
     fst (replace hasActor formula) =
       fst (replace hasActor a) +:+ String c (fst (replace hasActor b))).
Proof.
  unfold replaceFormulaData.
  set (pieces := scan None formula).
  set (missing := foldl addOnce [] (omap (missingReference getProperty) pieces)).
  destruct (addOnce_spec (omap (missingReference getProperty) pieces) [])
    as [Hnd Hin]; [constructor|]. fold missing in Hnd, Hin.
  assert (∀ r, r ∈ missing ↔
               ∃ term, r = "@" +:+ term ∧ Reference term ∈ pieces ∧
                       getProperty term = None) as Hmissing.
  { intros r. rewrite Hin, elem_of_nil, list_elem_of_omap. split.
    - intros [[]|([c|term] & Hp & Hr)]; [done|]. simpl in Hr.
      destruct (getProperty term) eqn:Hg; [done|]. injection Hr as <-.
      by exists term.
    - intros (term & -> & Hp & Hg). right. exists (Reference term).
      split; [done|]. simpl. by rewrite Hg. }
  split_and!.
  - intros Hno. unfold missing, pieces. rewrite (scan_without_reference _ Hno).
    f_equal.
    + clear. induction formula as [|c rest IH]; [done|].
      change (String.concat ""
                (String c "" ::
                 (replacement getProperty <$>
                    (Literal <$> String.list_ascii_of_string rest))) =
              String c rest).
      by rewrite concat_empty_cons, IH.
    + assert (omap (missingReference getProperty)
                (Literal <$> String.list_ascii_of_string formula) = []) as ->; [|done].
      clear. by induction (String.list_ascii_of_string formula).
  - simpl. destruct missing as [|r rest] eqn:Hm; simpl.
    + split; [|done]. intros _. right. intros term Hterm.
      destruct (getProperty term) eqn:Hg; [by eexists|].
      assert (("@" +:+ term) ∈ ([] : list string)) as Habs
        by (apply Hmissing; eauto).
      by apply elem_of_nil in Habs.
    + destruct hasActor; [|by split; [left|]]. split; [done|].
      intros [?|Hall]; [done|].
      assert (r ∈ r :: rest) as (term & _ & Hp & Hg)%Hmissing by by left.
      apply Hall in Hp as [? Hp]. congruence.
  - intros references. simpl.
    destruct (negb _ && hasActor); [|done]. by intros [= <-].
  - intros a b c -> Hterm Hat. simpl. unfold pieces.
    rewrite scan_separator by done.
    by rewrite fmap_app, concat_empty_app, fmap_cons, concat_empty_cons.
Qed.

End FormulaExtras.

(** ** The description of a spell scroll *)

Lemma slice_app (n : nat) (s : string) : sliceTo n s +:+ sliceFrom n s = s.
Proof.
  revert s. induction n as [|n IH]; intros [|c rest]; simpl;
    try reflexivity.
  by rewrite string_app_cons, IH.
Qed.

Lemma startsWith_app (a s : string) :
  startsWith a s = true → ∃ rest, s = a +:+ rest.
Proof.
  revert s. induction a as [|c a IH]; intros s; simpl.
  { intros _. by exists s. }
  destruct s as [|c' s]; [done|].
  intros [->%Ascii.eqb_eq [rest ->]%IH]%andb_prop. by exists rest.
Qed.

Lemma sliceTo_app (a b : string) : sliceTo (String.length a) (a +:+ b) = a.
Proof.
  induction a as [|c a IH].
  { change ("" +:+ b) with b. by destruct b. }
  rewrite string_app_cons. simpl. by rewrite IH.
Qed.

Lemma string_length_app (a b : string) :
  String.length (a +:+ b) = (String.length a + String.length b)%nat.
Proof.
  induction a as [|c a IH]; [done|]. rewrite string_app_cons. simpl.
  by rewrite IH.
Qed.

Lemma indexOf_Some (needle s : string) (i : nat) :
  indexOf needle s = Some i →
  (∃ before after, s = before +:+ needle +:+ after ∧ String.length before = i) ∧
  ∀ j, (j < i)%nat → startsWith needle (sliceFrom j s) = false.
Proof.
  revert i. induction s as [|c rest IH]; intros i.
  - simpl. destruct (startsWith needle "") eqn:Hp; [|done].
    intros [= <-]. split; [|lia].
    apply startsWith_app in Hp as [after ->]. by exists "", after.
  - cbn [indexOf]. destruct (startsWith needle (String c rest)) eqn:Hp.
    + intros [= <-]. split; [|lia].
      apply startsWith_app in Hp as [after ->]. by exists "", after.
    + destruct (indexOf needle rest) as [k|]; [|done]. simpl.
      intros [= <-]. destruct (IH k eq_refl) as [(before & after & -> & Hk) Hlt].
      split.
      * exists (String c before), after. split; [done|]. simpl. by rewrite Hk.
      * intros [|j] Hj; simpl; [done|]. apply Hlt. lia.
Qed.

Lemma indexOf_None (needle s : string) :
  indexOf needle s = None →
  ∀ j, startsWith needle (sliceFrom j s) = false.
Proof.
  induction s as [|c rest IH].
  - simpl. destruct (startsWith needle "") eqn:Hp; [done|].
    intros _ [|j]; done.
  - cbn [indexOf]. destruct (startsWith needle (String c rest)) eqn:Hp; [done|].
    destruct (indexOf needle rest); [done|]. intros _ [|j]; simpl; [done|].
    by apply IH.
Qed.

Section ScrollExtras.

Context (trim : string → string).
Context (localize : string → string).

(** X25. The description of a spell scroll keeps the whole description of
    the scroll item: the intro and the details that the function cuts it
    into make it up again, and the scroll's description is the intro, the
    block of the spell and the details, trimmed.  When the description
    has a ["</p>"] the intro is what comes before the first one, with it;
    when it has none the intro is the first three characters. *)
Theorem X25_scroll_description (spell : SpellSheet) (scroll : ScrollSheet) :
  let description := scroll_description scroll in
  scrollIntro description +:+ scrollDetails description = description ∧
  created_description (createScrollFromSpell trim localize spell scroll) =
    trim (scrollIntro description +:+ "<hr/><h3>" +:+ spell_name spell +:+
          " (Level " +:+ pretty (spell_level spell) +:+ ")</h3><hr/>" +:+
          spell_description spell +:+ "<hr/><h3>Scroll Details</h3><hr/>" +:+
          scrollDetails description) ∧
  (∀ i, indexOf "</p>" description = Some i →
     (∃ before, scrollIntro description = before +:+ "</p>" ∧
                String.length before = i) ∧
     ∀ j, (j < i)%nat → startsWith "</p>" (sliceFrom j description) = false) ∧
  (indexOf "</p>" description = None →
   scrollIntro description = sliceTo 3 description ∧
   ∀ j, startsWith "</p>" (sliceFrom j description) = false).
Proof.
  intros description. split_and!.
  - apply slice_app.
  - done.
  - intros i Hi. unfold scrollIntro, scrollIntroLength. rewrite Hi.
    destruct (indexOf_Some _ _ _ Hi) as [(before & after & Hd & Hlen) Hfirst].
    split; [|done]. exists before. split; [|done].
    rewrite Hd, <- string_app_assoc.
    replace (i + 4)%nat with (String.length (before +:+ "</p>"))
      by (rewrite string_length_app, Hlen; done).
    apply sliceTo_app.
  - intros Hnone. unfold scrollIntro, scrollIntroLength. rewrite Hnone.
    split; [done|]. by apply indexOf_None.
Qed.

End ScrollExtras.

(** ** The further properties at concrete inputs *)

Module ExtraWitness.

Import Examples MoreExamples.

Abbreviation resolve :=
  (_getUsageUpdates TestHost.isNumericString TestHost.localeCompareNumeric).

(** The potion: quantity 2 to 1, uses back to 3. *)
Lemma X2_witness :
  resolve potion hero usageAndQuantity =
    Continue (mkUsage {[ "system.quantity" := VNum 1;
                         "system.uses.value" := VNum 3 ]} ∅ []) ∧
  ∀ n, ({[ "system.quantity" := VNum 1; "system.uses.value" := VNum 3 ]}
          : gmap string JsVal) !! "system.quantity" = Some (VNum n) → 0 ≤ n.
Proof.
  assert (resolve potion hero usageAndQuantity =
            Continue (mkUsage {[ "system.quantity" := VNum 1;
                                 "system.uses.value" := VNum 3 ]} ∅ [])) as H
    by (vm_compute; reflexivity).
  split; [exact H|].
  exact (proj2 (proj2 (X2_updates_never_negative TestHost.isNumericString
                         TestHost.localeCompareNumeric potion hero
                         usageAndQuantity _ H))).
Defined.

(** The potion, used with its quantity and no recharge: no use is left,
    so the quantity pays and the uses are set back to three. *)
Lemma X3_witness :
  resolve potion hero usageAndQuantity =
    Continue (mkUsage {[ "system.quantity" := VNum 1;
                         "system.uses.value" := VNum 3 ]} ∅ []) ∧
  ({[ "system.quantity" := VNum 1; "system.uses.value" := VNum 3 ]}
     : gmap string JsVal) !! "system.uses.value" = Some (VNum 3) ∧
  ({[ "system.quantity" := VNum 1; "system.uses.value" := VNum 3 ]}
     : gmap string JsVal) !! "system.recharge.charged" = None.
Proof.
  assert (resolve potion hero usageAndQuantity =
            Continue (mkUsage {[ "system.quantity" := VNum 1;
                                 "system.uses.value" := VNum 3 ]} ∅ [])) as H
    by (vm_compute; reflexivity).
  split; [exact H|].
  pose proof (X3_item_fields_written TestHost.isNumericString
                TestHost.localeCompareNumeric potion hero usageAndQuantity _ H)
    as (Hcharged & Huses & _).
  split; [exact Huses|exact Hcharged].
Defined.

(** Three hit dice, smallest first: the rogue and the fighter are addressed
    once each. *)
Lemma X4_witness :
  ∃ usage, resolve secondWind hero resourceOnly = Continue usage ∧
           NoDup (cls_id <$> actor_classes hero) ∧
           NoDup (upd_id <$> resourceUpdates usage).
Proof.
  assert (NoDup (cls_id <$> actor_classes hero)) as Hnd.
  { change (NoDup ["fighter"; "rogue"]). apply NoDup_cons.
    split; [|apply NoDup_singleton].
    intros H%list_elem_of_singleton. discriminate H. }
  eexists. split; [vm_compute; reflexivity|]. split; [exact Hnd|].
  refine (proj2 (X4_sibling_updates_addressed TestHost.isNumericString
                   TestHost.localeCompareNumeric secondWind hero resourceOnly
                   _ _) Hnd).
  vm_compute. reflexivity.
Defined.

(** Three dice over the rogue (two left) and the fighter (three left). *)
Lemma X5_witness :
  0 < 3 ∧
  Forall (λ cls, cls_hitDiceUsed cls ≤ cls_levels cls) [rogue; fighter] ∧
  ∃ k, fst <$> hitDiceDeltas 3 [rogue; fighter] =
       List.filter (λ cls, 0 <? hitDiceLeft cls) (take k [rogue; fighter]).
Proof.
  assert (Forall (λ cls, cls_hitDiceUsed cls ≤ cls_levels cls) [rogue; fighter])
    as Hwf by (repeat constructor; simpl; lia).
  split_and!; [lia|exact Hwf|].
  exact (proj2 (proj2 (X5_hit_dice_spent_greedily [rogue; fighter] 3
                         ltac:(lia) Hwf))).
Defined.


(** The rogue has two d6 left: the feature may be used and spends none. *)
Lemma X7_witness :
  Forall (λ cls, 0 ≤ cls_hitDiceUsed cls)
    (List.filter (selectsClass "d6") (actor_classes hero)) ∧
  _handleConsumeResource TestHost.localeCompareNumeric hardy hero noUpdates =
    Continue noUpdates.
Proof.
  assert (Forall (λ cls, 0 ≤ cls_hitDiceUsed cls)
            (List.filter (selectsClass "d6") (actor_classes hero))) as Hwf
    by (repeat constructor; simpl; lia).
  split; [exact Hwf|].
  rewrite (X7_hit_dice_without_amount TestHost.localeCompareNumeric hardy hero
             noUpdates "d6" eq_refl eq_refl ltac:(discriminate) eq_refl Hwf).
  vm_compute. reflexivity.
Defined.


(** The bow of an archer with five arrows. *)
Lemma X9_witness :
  hasAttack longbow = true ∧
  ∃ ammo ammoUpdate critical,
    prepareAttack TestHost.isNumericString TestHost.localeCompareNumeric
      longbow archer = AttackReady ammo ammoUpdate critical ∧
    ammo = Some quiver ∧
    ammoUpdate = [mkUpdate "arrows" {[ "system.quantity" := VNum 4 ]}].
Proof.
  split; [reflexivity|].
  pose proof (proj1 (X9_attack_ammunition TestHost.isNumericString
                       TestHost.localeCompareNumeric longbow archer eq_refl)
                eq_refl) as H.
  destruct (prepareAttack _ _ longbow archer) as [|w|ammo ammoUpdate critical]
    eqn:E; [vm_compute in E; discriminate E..|].
  exists ammo, ammoUpdate, critical. split; [reflexivity|].
  destruct H as (target & item & Ht & Hi & Hammo & _ & Hupd & _).
  { intros amount [= <-]. lia. }
  injection Ht as <-. vm_compute in Hi. injection Hi as <-.
  split; [exact Hammo|]. rewrite Hupd. vm_compute. reflexivity.
Defined.

(** The stored advancements of the class example. *)
Lemma X11_witness :
  ∃ index,
    _prepareAdvancement 20 TestHost.localeCompare "class" stored = Some index ∧
    byId index !! "grant" = Some grant.
Proof.
  eexists. split; [vm_compute; reflexivity|].
  refine (proj2 (proj2 (proj2 (X11_byId_last_stored_wins 20
            TestHost.localeCompare "class" stored _ _))) grant eq_refl).
  vm_compute. reflexivity.
Defined.

Lemma X12_witness :
  ∃ index,
    _prepareAdvancement 20 TestHost.localeCompare "class" stored = Some index ∧
    needingConfiguration index = [scale].
Proof.
  eexists. split; [vm_compute; reflexivity|].
  refine (proj2 (X12_byType_keeps_stored_order 20 TestHost.localeCompare
                   "class" stored _ _)).
  vm_compute. reflexivity.
Defined.

Lemma X13_witness :
  ∃ index,
    _prepareAdvancement 20 TestHost.localeCompare "class" stored = Some index ∧
    ∀ l, is_Some (byLevel index !! l) ↔ 1 ≤ l ≤ 20.
Proof.
  eexists. split; [vm_compute; reflexivity|].
  refine (proj1 (X13_byLevel_buckets_sorted 20 TestHost.localeCompare
                   "class" stored _ _)).
  vm_compute. reflexivity.
Defined.

(** A fighter 4 of a character of level 18 asks for level 9: the other
    classes hold 14 levels and leave 6. *)
Lemma X14_witness :
  fst (_preUpdate 20 "class" 4 (Some 18) (Some 9)) = Some 6 ∧
  18 + (6 - 4) ≤ 20.
Proof.
  pose proof (X14_class_level_clamped 20 "class" 4 (Some 18) 9) as (H & Hb & _).
  split; [exact (H eq_refl)|].
  exact (proj1 (proj2 (proj2 (Hb eq_refl ltac:(lia) 6 (H eq_refl))) 18 eq_refl)).
Defined.

(** The same fighter of a character of level 6 asks for level 5. *)
Lemma X15_witness :
  1 ≤ 20 ∧ fst (_preUpdate 20 "class" 4 (Some 6) (Some 5)) = Some 5.
Proof.
  split; [lia|].
  exact (proj1 (proj2 (X15_class_level_warnings 20 4 (Some 6) 5 ltac:(lia)))
           eq_refl).
Defined.

(** A rapier in the hands of an actor with dexterity +3 and strength +1. *)
Lemma X16_witness :
  abilityMod (mkItem "rapier" "weapon" (Some "mwak") 0 (Some 1) noUses
                noRecharge noConsume None)
    (mkAbilityData None None (Some true) (Some "martialM"))
    (Some (mkActorAbilities None 3 1)) = Some "dex".
Proof.
  pose proof (X16_ability_of_item
                (mkItem "rapier" "weapon" (Some "mwak") 0 (Some 1) noUses
                   noRecharge noConsume None)
                (mkAbilityData None None (Some true) (Some "martialM"))
                (Some (mkActorAbilities None 3 1))) as (_ & _ & _ & H & _).
  destruct (H (mkActorAbilities None 3 1) eq_refl eq_refl eq_refl eq_refl)
    as [[Hdex _]|[_ Hstr]]; [exact Hdex|simpl in Hstr; lia].
Defined.

(** The bow does not consume its arrows on use. *)
Lemma X17_witness :
  consumeResource (defaultConfiguration ["always"; "pact"; "prepared"] longbow
                     (mkUseData None None)) = false.
Proof.
  exact (proj2 (proj2 (proj2
           (X17_default_configuration ["always"; "pact"; "prepared"] longbow
              (mkUseData None None)))) eq_refl eq_refl).
Defined.

(** A prepared first-level spell takes one of the two first-level slots. *)
Lemma X18_witness :
  TestHost.isNumericString "pact" = false ∧
  resolve sleep hero
    (defaultConfiguration ["always"; "pact"; "prepared"] sleep
       (mkUseData None (Some "prepared"))) =
  Continue (mkUsage ∅ {[ "system.spells.spell1.value" := 1 ]} []).
Proof.
  split; [reflexivity|].
  rewrite (X18_use_with_defaults ["always"; "pact"; "prepared"]
             TestHost.isNumericString TestHost.localeCompareNumeric sleep hero
             (mkUseData None (Some "prepared")) eq_refl eq_refl eq_refl).
  vm_compute. reflexivity.
Defined.

(** The last use of the last potion destroys it. *)
Lemma X19_witness :
  store_deleted (mkStore lastPotion hero false) = false ∧
  store_deleted
    (useConsumption TestHost.isNumericString TestHost.localeCompareNumeric
       usageAndQuantity (mkStore lastPotion hero false)) = true.
Proof.
  split; [reflexivity|].
  apply (X19_use_destroys_item TestHost.isNumericString
           TestHost.localeCompareNumeric usageAndQuantity
           (mkStore lastPotion hero false) eq_refl).
  split_and!; [vm_compute; intros []|reflexivity|].
  right. split_and!; [reflexivity|simpl; lia|reflexivity].
Defined.

(** The breath, once used, is used up until it recharges. *)
Lemma X20_witness :
  consumeRecharge rechargeOnly = true ∧
  useConsumption TestHost.isNumericString TestHost.localeCompareNumeric
    rechargeOnly
    (useConsumption TestHost.isNumericString TestHost.localeCompareNumeric
       rechargeOnly (mkStore breath dragon false)) =
  useConsumption TestHost.isNumericString TestHost.localeCompareNumeric
    rechargeOnly (mkStore breath dragon false).
Proof.
  split; [reflexivity|].
  exact (proj1 (proj2 (X20_recharge_round_trip TestHost.isNumericString
                         TestHost.localeCompareNumeric rechargeOnly
                         (mkStore breath dragon false) eq_refl))).
Defined.

(** Old spell data with a material description among the components and
    no scaling mode. *)
Lemma X21_witness :
  source_scaling_mode
    (migrateData
       (mkSpellSource
          (Some {[ "vocal" := SBoolean true; "value" := SString "a feather" ]})
          (Some Null))) = Some (Defined "none").
Proof.
  pose proof (X21_spell_migration
                (mkSpellSource
                   (Some {[ "vocal" := SBoolean true;
                            "value" := SString "a feather" ]})
                   (Some Null))) as (_ & _ & _ & _ & _ & H & _).
  apply H. by left.
Defined.

(** Armor created on an NPC with its equipped state given. *)
Lemma X22_witness :
  ∃ updates,
    ownedCreationUpdates (mkProficiencyData None None None ∅ ∅ ∅) "equipment"
      (mkCreationData Given Missing Missing) true = Some updates ∧
    ∀ key value, updates !! key = Some value →
                 isUndefined (dataProperty (mkCreationData Given Missing Missing)
                                key) = true.
Proof.
  eexists. split; [reflexivity|].
  exact (proj1 (X22_creation_defaults (mkProficiencyData None None None ∅ ∅ ∅)
                  "equipment" (mkCreationData Given Missing Missing) true _
                  eq_refl)).
Defined.

(** A target of type none with a value left over. *)
Lemma X23_witness :
  labels_target
    (snd (_prepareActivation (λ _, None) (λ _, None) (λ _, None) (λ key, key)
            (mkActivationData None
               (Some (mkTarget (Some "none") (Some 30) (Some "ft"))) None None)))
  = "".
Proof.
  exact (proj2 (proj2 (proj2 (proj2
           (X23_activation_normalised (λ _, None) (λ _, None) (λ _, None)
              (λ key, key)
              (mkActivationData None
                 (Some (mkTarget (Some "none") (Some 30) (Some "ft")))
                 None None)))))
           _ eq_refl (or_intror (or_introl eq_refl))).
Defined.

(** A formula without a reference. *)
Lemma X24_witness :
  replaceFormulaData (λ _, None) true "1d6 + 2" = ("1d6 + 2", None).
Proof.
  exact (proj1 (X24_formula_references (λ _, None) true "1d6 + 2") eq_refl).
Defined.

(** A scroll item whose description opens with a paragraph. *)
Lemma X25_witness :
  indexOf "</p>" "<p>Intro</p><p>More</p>" = Some 8%nat ∧
  ∃ before, scrollIntro "<p>Intro</p><p>More</p>" = before +:+ "</p>" ∧
            String.length before = 8%nat.
Proof.
  split; [reflexivity|].
  exact (proj1 (proj1 (proj2 (proj2
           (X25_scroll_description (λ s, s) (λ s, s)
              (mkSpellSheet "Sleep" 1 "" None None (mkSave None None None))
              (mkScrollSheet "<p>Intro</p><p>More</p>" "5" (Some 13)))))
           8%nat eq_refl)).
Defined.

(** A fire bolt of a character of level 3, whose add-count is zero. *)
Lemma X26_witness :
  ∃ data,
    rollDamage (λ _ data, data) (λ _ data, data) (λ _, None)
      (mkItem "bolt" "spell" (Some "rsak") 0 None noUses noRecharge noConsume None)
      (mkDamageData ["1d10"] None (Some "cantrip") None (Some "prepared"))
      (mkDamageActor "character" 3 0 0 None) None
      (mkDamageRollConfiguration None false []) tt = Some (["1d10"], data).
Proof.
  destruct (rollDamage (λ _ data, data) (λ _ data, data) (λ _, None)
              (mkItem "bolt" "spell" (Some "rsak") 0 None noUses noRecharge
                 noConsume None)
              (mkDamageData ["1d10"] None (Some "cantrip") None (Some "prepared"))
              (mkDamageActor "character" 3 0 0 None) None
              (mkDamageRollConfiguration None false []) tt)
    as [[parts data]|] eqn:E; [|vm_compute in E; discriminate E].
  exists data.
  destruct (proj2 (X26_damage_roll_parts (λ _ data, data) (λ _ data, data)
                     (λ _, None)
                     (mkItem "bolt" "spell" (Some "rsak") 0 None noUses
                        noRecharge noConsume None)
                     (mkDamageData ["1d10"] None (Some "cantrip") None
                        (Some "prepared"))
                     (mkDamageActor "character" 3 0 0 None) None
                     (mkDamageRollConfiguration None false []) tt)
              parts data E) as (first & -> & _ & Hcantrip & _).
  by rewrite (Hcantrip eq_refl eq_refl).
Defined.

End ExtraWitness.
